(** * Real-Time-Workspace: access control, invitations, refresh tokens
      and version-gated document writes

    A shallow embedding of the backend services
    ([app/services/document.py], [app/services/invitation.py],
    [app/services/auth.py]) and of the routes that call them
    ([app/routers/documents.py], [app/routers/invitations.py],
    [app/routers/users.py]), together with the properties the specification
    states about them and further properties of the code.

    Modelling conventions.
    - A table of [app/models.py] is a finite map from the primary key
      ([id], a UUID) to the row; a loaded ORM object is the pair of its
      key and its row, and writing an attribute of the object followed by
      [db.commit()] stores the changed row under the same key.
    - The uniqueness constraints declared in [app/models.py] are enforced
      where a row is inserted, and so is [nullable=False] on the
      invitation's [token_hash]: a violation raises [IntegrityError] and
      the transaction leaves the database as it was. [crdt_version] is an
      [Integer] column: a write of a value outside the 32-bit range is
      refused by the engine. Foreign keys are not modelled: a statement
      about an insert says which referenced rows it takes to exist.
    - An operation is a function from the database to an outcome and the
      database after it; an exception ends the request before
      [db.commit()], so the database that comes out is the one that went in.
    - [datetime.now(timezone.utc)] is an argument [now] (microseconds), the
      [uuid4] default of a new row is an argument [new_id], and the random
      refresh token is an argument as well.
    - Columns that none of the modelled operations reads or assigns
      (display names, device metadata, [created_at], [updated_at]) are
      left out of the rows. The invitation's [token_hash] is kept: it is
      [None] on an object whose attribute was never assigned. *)

From Stdlib Require Import ZArith NArith String Ascii.
From Stdlib.Strings Require Import Byte.
From stdpp Require Import gmap strings list fin_maps.

Abbreviation UUID := N (only parsing).
Abbreviation datetime := Z (only parsing).
Abbreviation bytes := (list byte) (only parsing).

(** [timedelta(days=n)] in microseconds. *)
Definition timedelta_days (n : Z) : Z := (n * 86400000000)%Z.

(** ** Enumerations of [app/models.py] *)

Inductive DocumentRole := OWNER | EDITOR | VIEWER.

Inductive InvitationStatus := PENDING | ACCEPTED | DECLINED | EXPIRED.

#[global] Instance DocumentRole_eq_dec : EqDecision DocumentRole.
Proof. solve_decision. Defined.

#[global] Instance InvitationStatus_eq_dec : EqDecision InvitationStatus.
Proof. solve_decision. Defined.

Definition DocumentRole_to_nat (r : DocumentRole) : nat :=
  match r with OWNER => 0 | EDITOR => 1 | VIEWER => 2 end.

Definition DocumentRole_of_nat (n : nat) : DocumentRole :=
  match n with 0 => OWNER | 1 => EDITOR | _ => VIEWER end.

#[global] Instance DocumentRole_countable : Countable DocumentRole.
Proof.
  apply (inj_countable' DocumentRole_to_nat DocumentRole_of_nat).
  by intros [].
Defined.

(** The [.value] of an enumeration member. *)
Definition DocumentRole_value (r : DocumentRole) : string :=
  match r with OWNER => "OWNER" | EDITOR => "EDITOR" | VIEWER => "VIEWER" end.

Definition InvitationStatus_value (s : InvitationStatus) : string :=
  match s with
  | PENDING => "PENDING"
  | ACCEPTED => "ACCEPTED"
  | DECLINED => "DECLINED"
  | EXPIRED => "EXPIRED"
  end.

(** [str.lower()] on the ASCII letters. *)
Definition lower_ascii (c : ascii) : ascii :=
  let n := nat_of_ascii c in
  if (65 <=? n)%nat && (n <=? 90)%nat then ascii_of_nat (n + 32) else c.

Fixpoint lower (s : string) : string :=
  match s with
  | EmptyString => EmptyString
  | String c s' => String (lower_ascii c) (lower s')
  end.

(** ** Rows *)

Module User.
Record t := mk {
  email : string;
  is_active : bool;
}.
End User.

Module Document.
Record t := mk {
  owner_id : UUID;
  title : string;
  description : option string;
  crdt_state : option bytes;
  crdt_version : Z;
  is_archived : bool;
  is_public : bool;
  last_edited_at : option datetime;
}.

Definition set_is_archived (b : bool) (d : t) : t :=
  mk (owner_id d) (title d) (description d) (crdt_state d)
     (crdt_version d) b (is_public d) (last_edited_at d).
End Document.

Module DocumentPermission.
Record t := mk {
  document_id : UUID;
  user_id : UUID;
  role : DocumentRole;
  granted_at : datetime;
  granted_by_id : option UUID;
}.
End DocumentPermission.

Module RefreshToken.
Record t := mk {
  user_id : UUID;
  token_hash : string;
  is_revoked : bool;
  expires_at : datetime;
  last_used_at : option datetime;
  revoked_at : option datetime;
}.

Definition set_last_used_at (ts : datetime) (r : t) : t :=
  mk (user_id r) (token_hash r) (is_revoked r) (expires_at r)
     (Some ts) (revoked_at r).

Definition revoke (ts : datetime) (r : t) : t :=
  mk (user_id r) (token_hash r) true (expires_at r)
     (last_used_at r) (Some ts).
End RefreshToken.

Module Invitation.
Record t := mk {
  document_id : UUID;
  invited_by_id : UUID;
  invitee_email : string;
  invitee_id : option UUID;
  role : DocumentRole;
  status : InvitationStatus;
  message : option string;
  expires_at : datetime;
  responded_at : option datetime;
  token_hash : option string;
}.

Definition set_status (s : InvitationStatus) (i : t) : t :=
  mk (document_id i) (invited_by_id i) (invitee_email i) (invitee_id i)
     (role i) s (message i) (expires_at i) (responded_at i) (token_hash i).

Definition set_expires_at (e : datetime) (i : t) : t :=
  mk (document_id i) (invited_by_id i) (invitee_email i) (invitee_id i)
     (role i) (status i) (message i) e (responded_at i) (token_hash i).
End Invitation.

(** ** The database *)

Record DB := mkDB {
  users : gmap N User.t;
  documents : gmap N Document.t;
  document_permissions : gmap N DocumentPermission.t;
  refresh_tokens : gmap N RefreshToken.t;
  invitations : gmap N Invitation.t;
}.

Definition empty_db : DB := mkDB ∅ ∅ ∅ ∅ ∅.

Definition with_documents (f : gmap N Document.t → gmap N Document.t) (db : DB) : DB :=
  mkDB (users db) (f (documents db)) (document_permissions db)
       (refresh_tokens db) (invitations db).

Definition with_document_permissions
    (f : gmap N DocumentPermission.t → gmap N DocumentPermission.t) (db : DB) : DB :=
  mkDB (users db) (documents db) (f (document_permissions db))
       (refresh_tokens db) (invitations db).

Definition with_refresh_tokens
    (f : gmap N RefreshToken.t → gmap N RefreshToken.t) (db : DB) : DB :=
  mkDB (users db) (documents db) (document_permissions db)
       (f (refresh_tokens db)) (invitations db).

Definition with_invitations
    (f : gmap N Invitation.t → gmap N Invitation.t) (db : DB) : DB :=
  mkDB (users db) (documents db) (document_permissions db)
       (refresh_tokens db) (f (invitations db)).

(** ** Outcomes: a value or a raised exception *)

Inductive exn :=
  | HTTPException (status_code : Z) (detail : string)
  | IntegrityError (constraint : string)
  | DBAPIError (detail : string)
  | MultipleResultsFound.

Inductive result (A : Type) :=
  | Ok (a : A)
  | Raise (e : exn).
Arguments Ok {A} a.
Arguments Raise {A} e.

Definition HTTP_400_BAD_REQUEST : Z := 400.
Definition HTTP_403_FORBIDDEN : Z := 403.
Definition HTTP_404_NOT_FOUND : Z := 404.

#[global] Instance result_ret : MRet result := λ A a, Ok a.

#[global] Instance result_bind : MBind result := λ A B f r,
  match r with
  | Ok a => f a
  | Raise e => Raise e
  end.

(** A request handler: reads the database and either returns a value and
    the database it committed, or raises. *)
Definition M (A : Type) : Type := DB → result A * DB.

#[global] Instance M_ret : MRet M := λ A a db, (Ok a, db).

#[global] Instance M_bind : MBind M := λ A B f m db,
  match m db with
  | (Ok a, db') => f a db'
  | (Raise e, db') => (Raise e, db')
  end.

Definition raise {A} (e : exn) : M A := λ db, (Raise e, db).

(** [await db.execute(stmt)]: read the tables. *)
Definition execute {A} (stmt : DB → result A) : M A := λ db, (stmt db, db).

(** [await db.commit()]: the pending changes of the session, [txn], are
    written together; when the engine refuses one of them nothing is
    written and the exception propagates. *)
Definition commit (txn : DB → result DB) : M unit := λ db,
  match txn db with
  | Ok db' => (Ok tt, db')
  | Raise e => (Raise e, db)
  end.

(** [Result.scalar_one_or_none()]. *)
Definition scalar_one_or_none {A} (rows : gmap N A) : result (option (N * A)) :=
  match map_to_list rows with
  | [] => Ok None
  | [r] => Ok (Some r)
  | _ => Raise MultipleResultsFound
  end.

(** A SELECT on the primary key: the key is unique, so there is at most
    one row. *)
Definition select_by_id {A} (rows : gmap N A) (k : UUID) : option (N * A) :=
  (λ r, (k, r)) <$> rows !! k.

(** Python truthiness of [x or d] on an optional integer. *)
Definition or_default (x : option Z) (d : Z) : Z :=
  match x with
  | Some v => if (v =? 0)%Z then d else v
  | None => d
  end.

(** ** Inserts, with the constraints of [__table_args__] and of the columns *)

(** Primary key of any table. *)
Definition pk_free {A} (rows : gmap N A) (k : UUID) : bool :=
  bool_decide (rows !! k = None).

(** [UniqueConstraint("document_id", "user_id", name="uq_document_user_permission")]. *)
Definition same_document_user (p : DocumentPermission.t) (kq : N * DocumentPermission.t) : Prop :=
  DocumentPermission.document_id kq.2 = DocumentPermission.document_id p
  ∧ DocumentPermission.user_id kq.2 = DocumentPermission.user_id p.

#[global] Instance same_document_user_dec p kq : Decision (same_document_user p kq).
Proof. unfold same_document_user. apply _. Defined.

Definition add_document_permission (new_id : UUID) (p : DocumentPermission.t)
    (db : DB) : result DB :=
  if negb (pk_free (document_permissions db) new_id) then
    Raise (IntegrityError "document_permissions_pkey")
  else if bool_decide (filter (same_document_user p) (document_permissions db) = ∅) then
    Ok (with_document_permissions (<[new_id := p]>) db)
  else
    Raise (IntegrityError "uq_document_user_permission").

Definition add_document (new_id : UUID) (d : Document.t) (db : DB) : result DB :=
  if pk_free (documents db) new_id then
    Ok (with_documents (<[new_id := d]>) db)
  else
    Raise (IntegrityError "documents_pkey").

(** [crdt_version: Mapped[int]] is an [Integer] column, a signed 32-bit
    value. *)
Definition INTEGER_MIN : Z := -2147483648.
Definition INTEGER_MAX : Z := 2147483647.

(** The UPDATE that stores a new [crdt_version]: the engine refuses a value
    outside the range of the column. The other writes of a document row
    leave the stored version as it is. *)
Definition update_document_version (k : UUID) (d : Document.t) (db : DB) : result DB :=
  if bool_decide (INTEGER_MIN ≤ Document.crdt_version d ≤ INTEGER_MAX)%Z then
    Ok (with_documents (<[k := d]>) db)
  else
    Raise (DBAPIError "integer out of range").

(** ** [app/services/document.py] *)

Module DocumentService.

(** [create_document]: the document and its OWNER permission are added to
    the session and committed together. *)
Definition create_document (now : datetime) (new_id new_perm_id : UUID)
    (owner_id : UUID) (title : string) (description : option string)
    (is_public : bool) : M (UUID * Document.t) :=
  let document := Document.mk owner_id title description None 0 false is_public None in
  let owner_permission :=
    DocumentPermission.mk new_id owner_id OWNER now (Some owner_id) in
  _ ← commit (λ db, add_document new_id document db
                    ≫= add_document_permission new_perm_id owner_permission);
  mret (new_id, document).

Definition get_document_by_id (document_id : UUID) (include_archived : bool)
    : M (option (UUID * Document.t)) :=
  execute (λ db,
    match select_by_id (documents db) document_id with
    | Some (k, d) =>
        if negb include_archived && negb (bool_decide (Document.is_archived d = false))
        then Ok None
        else Ok (Some (k, d))
    | None => Ok None
    end).

(** [delete_document]; a hard delete cascades to the permissions and the
    invitations of the document. *)
Definition delete_document (document : UUID * Document.t) (soft_delete : bool) : M bool :=
  _ ← (if soft_delete then
         commit (λ db, Ok (with_documents
           (<[document.1 := Document.set_is_archived true document.2]>) db))
       else
         commit (λ db, Ok (with_invitations
           (filter (λ kv, Invitation.document_id kv.2 ≠ document.1))
           (with_document_permissions
             (filter (λ kv, DocumentPermission.document_id kv.2 ≠ document.1))
             (with_documents (delete document.1) db)))));
  mret true.

Definition get_user_permission (document_id user_id : UUID)
    : M (option (UUID * DocumentPermission.t)) :=
  execute (λ db, scalar_one_or_none
    (filter (λ kv, DocumentPermission.document_id kv.2 = document_id
                   ∧ DocumentPermission.user_id kv.2 = user_id)
            (document_permissions db))).

Definition get_user_role (document_id user_id : UUID) : M (option DocumentRole) :=
  permission ← get_user_permission document_id user_id;
  mret (match permission with
        | Some (_, p) => Some (DocumentPermission.role p)
        | None => None
        end).

Definition role_hierarchy : gmap DocumentRole Z :=
  {[ VIEWER := 1%Z; EDITOR := 2%Z; OWNER := 3%Z ]}.

Definition check_access (document_id user_id : UUID) (required_role : DocumentRole)
    : M bool :=
  role ← get_user_role document_id user_id;
  match role with
  | None =>
      doc ← get_document_by_id document_id false;
      match doc with
      | Some (_, d) =>
          if Document.is_public d && bool_decide (required_role = VIEWER)
          then mret true
          else mret false
      | None => mret false
      end
  | Some role =>
      mret (default 0%Z (role_hierarchy !! role)
            >=? default 0%Z (role_hierarchy !! required_role))%Z
  end.

Definition grant_permission (now : datetime) (new_id : UUID)
    (document_id user_id : UUID) (role : DocumentRole) (granted_by_id : UUID)
    : M (UUID * DocumentPermission.t) :=
  existing ← get_user_permission document_id user_id;
  match existing with
  | Some (k, e) =>
      let e' := DocumentPermission.mk (DocumentPermission.document_id e)
                  (DocumentPermission.user_id e) role now (Some granted_by_id) in
      _ ← commit (λ db, Ok (with_document_permissions (<[k := e']>) db));
      mret (k, e')
  | None =>
      let permission :=
        DocumentPermission.mk document_id user_id role now (Some granted_by_id) in
      _ ← commit (add_document_permission new_id permission);
      mret (new_id, permission)
  end.

Definition revoke_permission (document_id user_id : UUID) : M bool :=
  permission ← get_user_permission document_id user_id;
  match permission with
  | None => mret false
  | Some (k, p) =>
      if bool_decide (DocumentPermission.role p = OWNER) then mret false
      else
        _ ← commit (λ db, Ok (with_document_permissions (delete k) db));
        mret true
  end.

Definition update_crdt_state (now : datetime) (document_id : UUID)
    (crdt_state : bytes) (expected_version : option Z)
    : M (option (UUID * Document.t)) :=
  document ← get_document_by_id document_id false;
  match document with
  | None => mret None
  | Some (k, d) =>
      if match expected_version with
         | Some v => negb (bool_decide (Document.crdt_version d = v))
         | None => false
         end
      then mret None
      else
        let d' := Document.mk (Document.owner_id d) (Document.title d)
                    (Document.description d) (Some crdt_state)
                    (Document.crdt_version d + 1) (Document.is_archived d)
                    (Document.is_public d) (Some now) in
        _ ← commit (update_document_version k d');
        mret (Some (k, d'))
  end.

Definition get_crdt_state (document_id : UUID) : M (option (option bytes * Z)) :=
  document ← get_document_by_id document_id false;
  mret (match document with
        | None => None
        | Some (_, d) => Some (Document.crdt_state d, Document.crdt_version d)
        end).

(** [get_document_with_permissions]: the document, archived or not, with
    the rows of its [permissions] relationship. *)
Definition get_document_with_permissions (document_id : UUID)
    : M (option ((UUID * Document.t) * gmap N DocumentPermission.t)) :=
  execute (λ db, Ok
    ((λ document,
        (document,
         filter (λ kv, DocumentPermission.document_id kv.2 = document_id)
                (document_permissions db)))
     <$> select_by_id (documents db) document_id)).

(** [update_document]: only the arguments that are not [None] are written. *)
Definition update_document (document : UUID * Document.t)
    (title description : option string) (is_archived is_public : option bool)
    : M (UUID * Document.t) :=
  let d := document.2 in
  let d' := Document.mk (Document.owner_id d)
              (default (Document.title d) title)
              (match description with
               | Some text => Some text
               | None => Document.description d
               end)
              (Document.crdt_state d) (Document.crdt_version d)
              (default (Document.is_archived d) is_archived)
              (default (Document.is_public d) is_public)
              (Document.last_edited_at d) in
  _ ← commit (λ db, Ok (with_documents (<[document.1 := d']>) db));
  mret (document.1, d').

End DocumentService.

(** ** [app/services/invitation.py] *)

(** A loop [for row in rows: row.attr = ...; count += 1] over the rows a
    query selected: every selected object is changed under its key and
    counted. *)
Definition change_row {A} (f : A → A) (acc : gmap N A * Z) (kv : N * A) : gmap N A * Z :=
  (<[kv.1 := f kv.2]> acc.1, (acc.2 + 1)%Z).

Definition for_each_row {A} (f : A → A) (selected : list (N * A)) (rows : gmap N A)
    : gmap N A * Z :=
  foldl (change_row f) (rows, 0%Z) selected.

(** The partial unique index [uq_document_invitee_email_pending]
    ([postgresql_where="status = 'PENDING'"]). *)
Definition pending_for (document_id : UUID) (invitee_email : string)
    (kv : N * Invitation.t) : Prop :=
  Invitation.document_id kv.2 = document_id
  ∧ Invitation.invitee_email kv.2 = invitee_email
  ∧ Invitation.status kv.2 = PENDING.

#[global] Instance pending_for_dec d e kv : Decision (pending_for d e kv).
Proof. unfold pending_for. apply _. Defined.

(** The INSERT of an invitation. [token_hash] is [nullable=False] and
    [unique=True]; the NOT NULL column is checked on the row itself, before
    the indexes. *)
Definition add_invitation (new_id : UUID) (i : Invitation.t) (db : DB) : result DB :=
  match Invitation.token_hash i with
  | None => Raise (IntegrityError "invitations.token_hash is null")
  | Some h =>
      if negb (pk_free (invitations db) new_id) then
        Raise (IntegrityError "invitations_pkey")
      else if negb (bool_decide (filter (λ kv, Invitation.token_hash kv.2 = Some h)
                                        (invitations db) = ∅)) then
        Raise (IntegrityError "invitations_token_hash_key")
      else if bool_decide (Invitation.status i = PENDING)
              && negb (bool_decide (filter (pending_for (Invitation.document_id i)
                                              (Invitation.invitee_email i))
                                           (invitations db) = ∅)) then
        Raise (IntegrityError "uq_document_invitee_email_pending")
      else
        Ok (with_invitations (<[new_id := i]>) db)
  end.

Module InvitationService.

Definition INVITATION_EXPIRE_DAYS : Z := 7.

Definition create_invitation (now : datetime) (new_id : UUID)
    (document_id invited_by_id : UUID) (invitee_email : string)
    (role : DocumentRole) (message : option string) (expire_days : option Z)
    : M (UUID * Invitation.t) :=
  let expire_days := or_default expire_days INVITATION_EXPIRE_DAYS in
  invitee ← execute (λ db, scalar_one_or_none
    (filter (λ kv, User.email kv.2 = invitee_email) (users db)));
  existing ← execute (λ db, scalar_one_or_none
    (filter (pending_for document_id invitee_email) (invitations db)));
  match existing with
  | Some (k, e) =>
      let e' := Invitation.mk (Invitation.document_id e) invited_by_id
                  (Invitation.invitee_email e) (Invitation.invitee_id e)
                  role (Invitation.status e) message
                  (now + timedelta_days expire_days) (Invitation.responded_at e)
                  (Invitation.token_hash e) in
      _ ← commit (λ db, Ok (with_invitations (<[k := e']>) db));
      mret (k, e')
  | None =>
      let invitation := Invitation.mk document_id invited_by_id invitee_email
                          (fst <$> invitee) role PENDING message
                          (now + timedelta_days expire_days) None None in
      _ ← commit (add_invitation new_id invitation);
      mret (new_id, invitation)
  end.

Definition get_invitation_by_id (invitation_id : UUID)
    : M (option (UUID * Invitation.t)) :=
  execute (λ db, Ok (select_by_id (invitations db) invitation_id)).

(** The rows of the listing; the [order_by(created_at)] of the result is
    not modelled. *)
Definition get_pending_invitations_for_user (now : datetime) (user_id : UUID)
    (user_email : string) : M (list (UUID * Invitation.t)) :=
  execute (λ db, Ok (map_to_list
    (filter (λ kv, Invitation.status kv.2 = PENDING
                   ∧ (Invitation.expires_at kv.2 > now)%Z
                   ∧ (Invitation.invitee_id kv.2 = Some user_id
                      ∨ Invitation.invitee_email kv.2 = user_email))
            (invitations db)))).

Definition accept_invitation (now : datetime) (new_id : UUID)
    (invitation : UUID * Invitation.t) (user_id : UUID)
    : M (UUID * DocumentPermission.t) :=
  let i := invitation.2 in
  let i' := Invitation.mk (Invitation.document_id i) (Invitation.invited_by_id i)
              (Invitation.invitee_email i) (Some user_id) (Invitation.role i)
              ACCEPTED (Invitation.message i) (Invitation.expires_at i) (Some now)
              (Invitation.token_hash i) in
  let permission :=
    DocumentPermission.mk (Invitation.document_id i) user_id (Invitation.role i)
      now (Some (Invitation.invited_by_id i)) in
  _ ← commit (λ db, add_document_permission new_id permission
                      (with_invitations (<[invitation.1 := i']>) db));
  mret (new_id, permission).

Definition decline_invitation (now : datetime) (invitation : UUID * Invitation.t)
    : M (UUID * Invitation.t) :=
  let i := invitation.2 in
  let i' := Invitation.mk (Invitation.document_id i) (Invitation.invited_by_id i)
              (Invitation.invitee_email i) (Invitation.invitee_id i)
              (Invitation.role i) DECLINED (Invitation.message i)
              (Invitation.expires_at i) (Some now) (Invitation.token_hash i) in
  _ ← commit (λ db, Ok (with_invitations (<[invitation.1 := i']>) db));
  mret (invitation.1, i').

Definition cancel_invitation (invitation : UUID * Invitation.t) : M bool :=
  if negb (bool_decide (Invitation.status invitation.2 = PENDING)) then mret false
  else
    _ ← commit (λ db, Ok (with_invitations (delete invitation.1) db));
    mret true.

Definition expire_old_invitations (now : datetime) : M Z :=
  selected ← execute (λ db, Ok (map_to_list
    (filter (λ kv, Invitation.status kv.2 = PENDING
                   ∧ (Invitation.expires_at kv.2 <= now)%Z)
            (invitations db))));
  updated ← execute (λ db, Ok
    (for_each_row (Invitation.set_status EXPIRED) selected (invitations db)));
  _ ← commit (λ db, Ok (with_invitations (λ _, updated.1) db));
  mret updated.2.

Definition can_invite_to_document (document_id inviter_id : UUID) : M bool :=
  role ← DocumentService.get_user_role document_id inviter_id;
  mret (bool_decide (role = Some OWNER ∨ role = Some EDITOR)).

Definition is_already_collaborator (document_id : UUID) (email : string) : M bool :=
  user ← execute (λ db, scalar_one_or_none
    (filter (λ kv, User.email kv.2 = email) (users db)));
  match user with
  | None => mret false
  | Some (user_id, _) =>
      permission ← execute (λ db, scalar_one_or_none
        (filter (λ kv, DocumentPermission.document_id kv.2 = document_id
                       ∧ DocumentPermission.user_id kv.2 = user_id)
                (document_permissions db)));
      mret (bool_decide (permission ≠ None))
  end.

End InvitationService.

(** ** [app/routers/documents.py] and [app/dependencies.py] *)

Module DocumentsRouter.

(** [DocumentAccessChecker.__call__]. *)
Definition DocumentAccessChecker (required_role : DocumentRole)
    (document_id : UUID) (current_user : UUID * User.t) : M unit :=
  has_access ← DocumentService.check_access document_id current_user.1 required_role;
  if negb has_access then
    raise (HTTPException HTTP_403_FORBIDDEN
             ("Insufficient permissions. Required role: "
              +:+ DocumentRole_value required_role))
  else mret tt.

Definition require_owner := DocumentAccessChecker OWNER.

(** [DocumentPermissionCreate]. *)
Record DocumentPermissionCreate := {
  user_id : UUID;
  role : DocumentRole;
}.

Definition grant_permission (now : datetime) (new_id : UUID) (document_id : UUID)
    (permission_data : DocumentPermissionCreate) (current_user : UUID * User.t)
    : M (UUID * DocumentPermission.t) :=
  _ ← require_owner document_id current_user;
  if bool_decide (role permission_data = OWNER) then
    raise (HTTPException HTTP_400_BAD_REQUEST
             "Cannot grant OWNER role. Use transfer ownership instead.")
  else
    DocumentService.grant_permission now new_id document_id
      (user_id permission_data) (role permission_data) current_user.1.

Definition require_viewer := DocumentAccessChecker VIEWER.
Definition require_editor := DocumentAccessChecker EDITOR.

Definition create_document (now : datetime) (new_id new_perm_id : UUID)
    (title : string) (description : option string) (is_public : bool)
    (current_user : UUID * User.t) : M (UUID * Document.t) :=
  DocumentService.create_document now new_id new_perm_id current_user.1
    title description is_public.

(** [DocumentWithPermissions], the body of [get_document]. *)
Record DocumentWithPermissions := {
  document : UUID * Document.t;
  permissions : gmap N DocumentPermission.t;
  user_role : option DocumentRole;
}.

(** [get_document]; [current_user] is [None] for a caller without a valid
    token ([OptionalUser]). *)
Definition get_document (document_id : UUID) (current_user : option (UUID * User.t))
    : M DocumentWithPermissions :=
  found ← DocumentService.get_document_with_permissions document_id;
  match found with
  | None => raise (HTTPException HTTP_404_NOT_FOUND "Document not found")
  | Some (doc, perms) =>
      role ← match current_user with
             | Some u => DocumentService.get_user_role document_id u.1
             | None => mret None
             end;
      if negb (Document.is_public doc.2) && bool_decide (role = None) then
        raise (HTTPException HTTP_403_FORBIDDEN "You don't have access to this document")
      else
        mret {| document := doc; permissions := perms; user_role := role |}
  end.

(** [DocumentUpdate]. *)
Record DocumentUpdate := {
  title : option string;
  description : option string;
  is_archived : option bool;
  is_public : option bool;
}.

Definition update_document (document_id : UUID) (updates : DocumentUpdate)
    (current_user : UUID * User.t) : M (UUID * Document.t) :=
  _ ← require_editor document_id current_user;
  found ← DocumentService.get_document_by_id document_id false;
  match found with
  | None => raise (HTTPException HTTP_404_NOT_FOUND "Document not found")
  | Some doc =>
      DocumentService.update_document doc (title updates) (description updates)
        (is_archived updates) (is_public updates)
  end.

(** [delete_document]; the value is the [message] of the body. *)
Definition delete_document (document_id : UUID) (permanent : bool)
    (current_user : UUID * User.t) : M string :=
  _ ← require_owner document_id current_user;
  found ← DocumentService.get_document_by_id document_id true;
  match found with
  | None => raise (HTTPException HTTP_404_NOT_FOUND "Document not found")
  | Some doc =>
      _ ← DocumentService.delete_document doc (negb permanent);
      mret (if permanent then "Document deleted permanently" else "Document archived")
  end.

Definition revoke_permission (document_id user_id : UUID)
    (current_user : UUID * User.t) : M string :=
  _ ← require_owner document_id current_user;
  revoked ← DocumentService.revoke_permission document_id user_id;
  if negb revoked then
    raise (HTTPException HTTP_400_BAD_REQUEST
             "Cannot revoke permission. User may be the owner or not have permission.")
  else mret "Permission revoked".

End DocumentsRouter.

(** ** [app/routers/invitations.py] *)

Module InvitationsRouter.

(** [InvitationCreate]; that [invitee_email] is a well-formed address
    ([EmailStr]) is checked before the handler runs. *)
Record InvitationCreate := {
  document_id : UUID;
  invitee_email : string;
  role : DocumentRole;
  message : option string;
}.

Definition create_invitation (now : datetime) (new_id : UUID)
    (invitation_data : InvitationCreate) (current_user : UUID * User.t)
    : M (UUID * Invitation.t) :=
  can_invite ← InvitationService.can_invite_to_document
                 (document_id invitation_data) current_user.1;
  if negb can_invite then
    raise (HTTPException HTTP_403_FORBIDDEN
             "You don't have permission to invite users to this document")
  else
    is_collaborator ← InvitationService.is_already_collaborator
                        (document_id invitation_data) (invitee_email invitation_data);
    if (is_collaborator : bool) then
      raise (HTTPException HTTP_400_BAD_REQUEST
               "User is already a collaborator on this document")
    else if bool_decide (invitee_email invitation_data = User.email current_user.2) then
      raise (HTTPException HTTP_400_BAD_REQUEST "You cannot invite yourself")
    else
      InvitationService.create_invitation now new_id
        (document_id invitation_data) current_user.1
        (invitee_email invitation_data) (role invitation_data)
        (message invitation_data) None.

(** The JSON body a successful [respond_to_invitation] returns. *)
Inductive respond_body :=
  | Accepted (role : string) (document_id : UUID)
  | Declined.

Definition respond_to_invitation (now : datetime) (new_id : UUID)
    (invitation_id : UUID) (accept : bool) (current_user : UUID * User.t)
    : M respond_body :=
  invitation ← InvitationService.get_invitation_by_id invitation_id;
  match invitation with
  | None => raise (HTTPException HTTP_404_NOT_FOUND "Invitation not found")
  | Some invitation =>
      let is_invitee :=
        bool_decide (Invitation.invitee_id invitation.2 = Some current_user.1)
        || bool_decide (Invitation.invitee_email invitation.2 = User.email current_user.2) in
      if negb is_invitee then
        raise (HTTPException HTTP_403_FORBIDDEN "This invitation is not for you")
      else if negb (bool_decide (Invitation.status invitation.2 = PENDING)) then
        raise (HTTPException HTTP_400_BAD_REQUEST
                 ("Invitation has already been "
                  +:+ lower (InvitationStatus_value (Invitation.status invitation.2))))
      else if accept then
        permission ← InvitationService.accept_invitation now new_id invitation current_user.1;
        mret (Accepted (DocumentRole_value (DocumentPermission.role permission.2))
                       (Invitation.document_id invitation.2))
      else
        _ ← InvitationService.decline_invitation now invitation;
        mret Declined
  end.

Definition cancel_invitation (invitation_id : UUID) (current_user : UUID * User.t)
    : M unit :=
  invitation ← InvitationService.get_invitation_by_id invitation_id;
  match invitation with
  | None => raise (HTTPException HTTP_404_NOT_FOUND "Invitation not found")
  | Some invitation =>
      if negb (bool_decide (Invitation.invited_by_id invitation.2 = current_user.1)) then
        raise (HTTPException HTTP_403_FORBIDDEN
                 "Only the inviter can cancel the invitation")
      else
        cancelled ← InvitationService.cancel_invitation invitation;
        if negb cancelled then
          raise (HTTPException HTTP_400_BAD_REQUEST
                   "Cannot cancel invitation. It may have already been responded to.")
        else mret tt
  end.

End InvitationsRouter.

(** ** [app/config.py] and [app/services/auth.py] *)

Record Settings := {
  JWT_EXPIRATION_MINUTES : Z;
  REFRESH_TOKEN_EXPIRE_DAYS : Z;
}.

(** The defaults of [Settings]. *)
Definition default_settings : Settings :=
  {| JWT_EXPIRATION_MINUTES := 30; REFRESH_TOKEN_EXPIRE_DAYS := 30 |}.

(** [token_hash] is declared [unique=True]. *)
Definition add_refresh_token (new_id : UUID) (r : RefreshToken.t) (db : DB) : result DB :=
  if negb (pk_free (refresh_tokens db) new_id) then
    Raise (IntegrityError "refresh_tokens_pkey")
  else if bool_decide (filter (λ kv, RefreshToken.token_hash kv.2 = RefreshToken.token_hash r)
                              (refresh_tokens db) = ∅) then
    Ok (with_refresh_tokens (<[new_id := r]>) db)
  else
    Raise (IntegrityError "refresh_tokens_token_hash_key").

Module AuthService.
Section auth_service.

Variable settings : Settings.

(** [hashlib.sha256(token.encode()).hexdigest()], taken as given. *)
Variable hash_token : string → string.

(** [token] stands for the value of [generate_refresh_token()]. *)
Definition create_refresh_token (now : datetime) (new_id : UUID) (token : string)
    (user_id : UUID) : M string :=
  let token_hash := hash_token token in
  let expires_at := (now + timedelta_days (REFRESH_TOKEN_EXPIRE_DAYS settings))%Z in
  let refresh_token := RefreshToken.mk user_id token_hash false expires_at None None in
  _ ← commit (add_refresh_token new_id refresh_token);
  mret token.

Definition verify_refresh_token (now : datetime) (token : string)
    : M (option (UUID * RefreshToken.t)) :=
  let token_hash := hash_token token in
  refresh_token ← execute (λ db, scalar_one_or_none
    (filter (λ kv, RefreshToken.token_hash kv.2 = token_hash
                   ∧ RefreshToken.is_revoked kv.2 = false
                   ∧ (RefreshToken.expires_at kv.2 > now)%Z)
            (refresh_tokens db)));
  match refresh_token with
  | Some (k, r) =>
      let r' := RefreshToken.set_last_used_at now r in
      _ ← commit (λ db, Ok (with_refresh_tokens (<[k := r']>) db));
      mret (Some (k, r'))
  | None => mret None
  end.

Definition revoke_refresh_token (now : datetime) (token : string) : M bool :=
  let token_hash := hash_token token in
  refresh_token ← execute (λ db, scalar_one_or_none
    (filter (λ kv, RefreshToken.token_hash kv.2 = token_hash) (refresh_tokens db)));
  match refresh_token with
  | Some (k, r) =>
      _ ← commit (λ db, Ok (with_refresh_tokens (<[k := RefreshToken.revoke now r]>) db));
      mret true
  | None => mret false
  end.

Definition revoke_all_user_tokens (now : datetime) (user_id : UUID) : M Z :=
  tokens ← execute (λ db, Ok (map_to_list
    (filter (λ kv, RefreshToken.user_id kv.2 = user_id
                   ∧ RefreshToken.is_revoked kv.2 = false)
            (refresh_tokens db))));
  updated ← execute (λ db, Ok
    (for_each_row (RefreshToken.revoke now) tokens (refresh_tokens db)));
  _ ← commit (λ db, Ok (with_refresh_tokens (λ _, updated.1) db));
  mret updated.2.

(** *** Requests to the token manager, one after another *)

Inductive request :=
  | Issue (new_id : UUID) (token : string) (user_id : UUID)
  | Verify (token : string)
  | Revoke (token : string)
  | RevokeAll (user_id : UUID).

(** The database after a request made at time [now] (what the request
    returned is dropped; a request that raised changed nothing). *)
Definition serve (db : DB) (timed : datetime * request) : DB :=
  match timed.2 with
  | Issue new_id token user_id => (create_refresh_token timed.1 new_id token user_id db).2
  | Verify token => (verify_refresh_token timed.1 token db).2
  | Revoke token => (revoke_refresh_token timed.1 token db).2
  | RevokeAll user_id => (revoke_all_user_tokens timed.1 user_id db).2
  end.

Definition serve_all (requests : list (datetime * request)) (db : DB) : DB :=
  foldl serve db requests.

(** A request that revokes the token whose hash is [h] or every token
    of [user_id]. *)
Definition revokes (h : string) (user_id : UUID) (timed : datetime * request) : Prop :=
  match timed.2 with
  | Revoke token => hash_token token = h
  | RevokeAll u => u = user_id
  | _ => False
  end.

End auth_service.

Definition get_user_by_id (user_id : UUID) : M (option (UUID * User.t)) :=
  execute (λ db,
    match select_by_id (users db) user_id with
    | Some (k, u) => if User.is_active u then Ok (Some (k, u)) else Ok None
    | None => Ok None
    end).

Definition get_user_by_email (email : string) : M (option (UUID * User.t)) :=
  execute (λ db, scalar_one_or_none
    (filter (λ kv, User.email kv.2 = email ∧ User.is_active kv.2 = true) (users db))).

End AuthService.

(** ** [app/routers/users.py] *)

Definition with_user_table (f : gmap N User.t → gmap N User.t) (db : DB) : DB :=
  mkDB (f (users db)) (documents db) (document_permissions db)
       (refresh_tokens db) (invitations db).

Module UsersRouter.

(** [deactivate_my_account]: the write of [is_active] is pending in the
    session when [revoke_all_user_tokens] runs and is committed by the
    commit of that call, together with the revocations. *)
Definition deactivate_my_account (now : datetime) (current_user : UUID * User.t)
    : M string :=
  let deactivated := User.mk (User.email current_user.2) false in
  λ db,
    match AuthService.revoke_all_user_tokens now current_user.1 db with
    | (Ok _, db') =>
        (Ok "Account deactivated successfully",
         with_user_table (<[current_user.1 := deactivated]>) db')
    | (Raise e, _) => (Raise e, db)
    end.

End UsersRouter.

(** ** Requests to the invitation service, one after another *)

Module InvitationRequests.

Inductive request :=
  | Create (new_id : UUID) (document_id invited_by_id : UUID) (invitee_email : string)
           (role : DocumentRole) (message : option string) (expire_days : option Z)
  | Accept (new_id : UUID) (invitation_id : UUID) (user_id : UUID)
  | Decline (invitation_id : UUID)
  | Cancel (invitation_id : UUID)
  | ExpireOld
  | DeleteDocument (document_id : UUID) (soft_delete : bool).

(** The object a request works on is loaded by its id first, as the
    routes do; a request on an id that is not in its table, and a request
    that raised, leave the database as it was. *)
Definition on_invitation {A} (invitation_id : UUID)
    (f : UUID * Invitation.t → M A) (db : DB) : DB :=
  match select_by_id (invitations db) invitation_id with
  | Some invitation => (f invitation db).2
  | None => db
  end.

Definition serve (db : DB) (timed : datetime * request) : DB :=
  match timed.2 with
  | Create new_id document_id invited_by_id invitee_email role message expire_days =>
      (InvitationService.create_invitation timed.1 new_id document_id invited_by_id
         invitee_email role message expire_days db).2
  | Accept new_id invitation_id user_id =>
      on_invitation invitation_id
        (λ i, InvitationService.accept_invitation timed.1 new_id i user_id) db
  | Decline invitation_id =>
      on_invitation invitation_id (InvitationService.decline_invitation timed.1) db
  | Cancel invitation_id =>
      on_invitation invitation_id InvitationService.cancel_invitation db
  | ExpireOld => (InvitationService.expire_old_invitations timed.1 db).2
  | DeleteDocument document_id soft_delete =>
      match select_by_id (documents db) document_id with
      | Some document => (DocumentService.delete_document document soft_delete db).2
      | None => db
      end
  end.

Definition serve_all (requests : list (datetime * request)) (db : DB) : DB :=
  foldl serve db requests.

End InvitationRequests.

(** ** Predicates on the database used in the statements *)

(** No permission row for the pair (document, user). *)
Definition no_permission (db : DB) (document_id user_id : UUID) : Prop :=
  ∀ k p, document_permissions db !! k = Some p →
    ¬ (DocumentPermission.document_id p = document_id
       ∧ DocumentPermission.user_id p = user_id).

(** The permission rows of the pair (document, user). *)
Definition permissions_of (db : DB) (document_id user_id : UUID)
    : gmap N DocumentPermission.t :=
  filter (λ kv, DocumentPermission.document_id kv.2 = document_id
                ∧ DocumentPermission.user_id kv.2 = user_id)
         (document_permissions db).

(** The PENDING invitations of the pair (document, invitee email). *)
Definition pending_invitations (db : DB) (document_id : UUID) (invitee_email : string)
    : gmap N Invitation.t :=
  filter (pending_for document_id invitee_email) (invitations db).

(** At most one PENDING invitation per (document, invitee email). *)
Definition at_most_one_pending (db : DB) : Prop :=
  ∀ k1 k2 i1 i2,
    invitations db !! k1 = Some i1 → invitations db !! k2 = Some i2 →
    Invitation.status i1 = PENDING → Invitation.status i2 = PENDING →
    Invitation.document_id i1 = Invitation.document_id i2 →
    Invitation.invitee_email i1 = Invitation.invitee_email i2 →
    k1 = k2.

(** Every PENDING row of [db'] is a PENDING row of [db] for the same pair,
    under the same key. *)
Definition pending_within (db db' : DB) : Prop :=
  ∀ k i', invitations db' !! k = Some i' → Invitation.status i' = PENDING →
    ∃ i, invitations db !! k = Some i ∧ Invitation.status i = PENDING
         ∧ Invitation.document_id i = Invitation.document_id i'
         ∧ Invitation.invitee_email i = Invitation.invitee_email i'.

(** The row [update_crdt_state] stores for a successful write. *)
Definition written (now : datetime) (crdt_state : bytes) (d : Document.t) : Document.t :=
  Document.mk (Document.owner_id d) (Document.title d) (Document.description d)
    (Some crdt_state) (Document.crdt_version d + 1) (Document.is_archived d)
    (Document.is_public d) (Some now).

(** The acting user is the invitee of [i]: the pre-linked id or the email. *)
Definition is_invitee (i : Invitation.t) (current_user : UUID * User.t) : bool :=
  bool_decide (Invitation.invitee_id i = Some current_user.1)
  || bool_decide (Invitation.invitee_email i = User.email current_user.2).

(** The rows [accept_invitation] and [decline_invitation] write. *)
Definition accepted (now : datetime) (user_id : UUID) (i : Invitation.t) : Invitation.t :=
  Invitation.mk (Invitation.document_id i) (Invitation.invited_by_id i)
    (Invitation.invitee_email i) (Some user_id) (Invitation.role i)
    ACCEPTED (Invitation.message i) (Invitation.expires_at i) (Some now)
    (Invitation.token_hash i).

Definition declined (now : datetime) (i : Invitation.t) : Invitation.t :=
  Invitation.mk (Invitation.document_id i) (Invitation.invited_by_id i)
    (Invitation.invitee_email i) (Invitation.invitee_id i) (Invitation.role i)
    DECLINED (Invitation.message i) (Invitation.expires_at i) (Some now)
    (Invitation.token_hash i).

Definition granted_on_accept (now : datetime) (user_id : UUID) (i : Invitation.t)
    : DocumentPermission.t :=
  DocumentPermission.mk (Invitation.document_id i) user_id (Invitation.role i)
    now (Some (Invitation.invited_by_id i)).

(** The conflict of a respond on a resolved invitation and the refusal of
    a respond by somebody else. *)
Definition already_responded (st : InvitationStatus) : exn :=
  HTTPException HTTP_400_BAD_REQUEST
    ("Invitation has already been " +:+ lower (InvitationStatus_value st)).

Definition not_for_you : exn :=
  HTTPException HTTP_403_FORBIDDEN "This invitation is not for you".

(** [User.email] is declared [unique=True]. *)
Definition users_email_unique (db : DB) : Prop :=
  ∀ k1 k2 u1 u2,
    users db !! k1 = Some u1 → users db !! k2 = Some u2 →
    User.email u1 = User.email u2 → k1 = k2.

(** The rows [create_invitation] writes: the pending row it found,
    re-stamped, or a new row. *)
Definition restamped (now : datetime) (invited_by_id : UUID) (role : DocumentRole)
    (message : option string) (expire_days : option Z) (e : Invitation.t) : Invitation.t :=
  Invitation.mk (Invitation.document_id e) invited_by_id (Invitation.invitee_email e)
    (Invitation.invitee_id e) role (Invitation.status e) message
    (now + timedelta_days (or_default expire_days InvitationService.INVITATION_EXPIRE_DAYS))
    (Invitation.responded_at e) (Invitation.token_hash e).

Definition new_invitation (now : datetime) (document_id invited_by_id : UUID)
    (invitee_email : string) (invitee_id : option UUID) (role : DocumentRole)
    (message : option string) (expire_days : option Z) : Invitation.t :=
  Invitation.mk document_id invited_by_id invitee_email invitee_id role PENDING message
    (now + timedelta_days (or_default expire_days InvitationService.INVITATION_EXPIRE_DAYS))
    None None.

(** The refresh-token row [k] is the one row whose hash is [h]; it belongs
    to [user_id], expires at [expires_at] and its [is_revoked] is [revoked]. *)
Definition token_row (db : DB) (k : UUID) (h : string) (user_id : UUID)
    (expires_at : datetime) (revoked : bool) : Prop :=
  ∃ r, refresh_tokens db !! k = Some r
       ∧ RefreshToken.token_hash r = h
       ∧ RefreshToken.user_id r = user_id
       ∧ RefreshToken.expires_at r = expires_at
       ∧ RefreshToken.is_revoked r = revoked
       ∧ ∀ k' r', refresh_tokens db !! k' = Some r' → RefreshToken.token_hash r' = h → k' = k.

(** ** The listing of a user's documents *)

Module Listing.
Section listing.

(** [ORDER BY documents.updated_at DESC]: [updated_at] is not among the
    columns of the rows here, so the order of the result is taken as given. *)
Variable order_by_updated_at : list (N * Document.t) → list (N * Document.t).

(** The subquery: the ids of the documents the user has a permission on. *)
Definition perm_subquery (db : DB) (user_id : UUID) : gset N :=
  list_to_set ((λ kv : N * DocumentPermission.t, DocumentPermission.document_id kv.2)
               <$> map_to_list (filter (λ kv, DocumentPermission.user_id kv.2 = user_id)
                                       (document_permissions db))).

(** [get_user_documents]; the routes admit [page >= 1] and [page_size >= 1]. *)
Definition get_user_documents (user_id : UUID) (include_shared include_archived : bool)
    (page page_size : Z) : M (list (N * Document.t) * Z) :=
  execute (λ db,
    let rows :=
      filter (λ kv, (Document.owner_id kv.2 = user_id
                     ∨ (include_shared = true ∧ kv.1 ∈ perm_subquery db user_id))
                    ∧ (include_archived = false → Document.is_archived kv.2 = false))
             (documents db) in
    let total := Z.of_nat (size rows) in
    let documents :=
      take (Z.to_nat page_size)
        (drop (Z.to_nat ((page - 1) * page_size))
           (order_by_updated_at (map_to_list rows))) in
    Ok (documents, total)).

(** [DocumentListResponse]. *)
Record DocumentListResponse := {
  documents : list (N * Document.t);
  total : Z;
  page : Z;
  page_size : Z;
  has_more : bool;
}.

(** [list_my_documents] of [routers/documents.py]. *)
Definition list_my_documents (current_user : UUID * User.t)
    (include_shared include_archived : bool) (page page_size : Z)
    : M DocumentListResponse :=
  found ← get_user_documents current_user.1 include_shared include_archived page page_size;
  mret {| documents := found.1; total := found.2; page := page; page_size := page_size;
          has_more := bool_decide (page * page_size < found.2)%Z |}.

End listing.
End Listing.

(** ** Requests to the document and invitation handlers, one after another *)

Module Requests.

Inductive request :=
  | CreateDocument (new_id new_perm_id : UUID) (title : string)
      (description : option string) (is_public : bool) (current_user : UUID * User.t)
  | UpdateDocument (document_id : UUID) (updates : DocumentsRouter.DocumentUpdate)
      (current_user : UUID * User.t)
  | DeleteDocument (document_id : UUID) (permanent : bool) (current_user : UUID * User.t)
  | GrantPermission (new_id : UUID) (document_id : UUID)
      (permission_data : DocumentsRouter.DocumentPermissionCreate)
      (current_user : UUID * User.t)
  | RevokePermission (document_id user_id : UUID) (current_user : UUID * User.t)
  | UpdateCrdtState (document_id : UUID) (crdt_state : bytes) (expected_version : option Z)
  | CreateInvitation (new_id : UUID) (invitation_data : InvitationsRouter.InvitationCreate)
      (current_user : UUID * User.t)
  | RespondToInvitation (new_id : UUID) (invitation_id : UUID) (accept : bool)
      (current_user : UUID * User.t)
  | CancelInvitation (invitation_id : UUID) (current_user : UUID * User.t)
  | ExpireOldInvitations.

(** The database after a request made at time [now]: the routes of
    [routers/documents.py] and [routers/invitations.py], the write of the
    document state and the sweep of the invitations. *)
Definition serve (db : DB) (timed : datetime * request) : DB :=
  match timed.2 with
  | CreateDocument new_id new_perm_id title description is_public current_user =>
      (DocumentsRouter.create_document timed.1 new_id new_perm_id title description
         is_public current_user db).2
  | UpdateDocument document_id updates current_user =>
      (DocumentsRouter.update_document document_id updates current_user db).2
  | DeleteDocument document_id permanent current_user =>
      (DocumentsRouter.delete_document document_id permanent current_user db).2
  | GrantPermission new_id document_id permission_data current_user =>
      (DocumentsRouter.grant_permission timed.1 new_id document_id permission_data
         current_user db).2
  | RevokePermission document_id user_id current_user =>
      (DocumentsRouter.revoke_permission document_id user_id current_user db).2
  | UpdateCrdtState document_id crdt_state expected_version =>
      (DocumentService.update_crdt_state timed.1 document_id crdt_state
         expected_version db).2
  | CreateInvitation new_id invitation_data current_user =>
      (InvitationsRouter.create_invitation timed.1 new_id invitation_data current_user db).2
  | RespondToInvitation new_id invitation_id accept current_user =>
      (InvitationsRouter.respond_to_invitation timed.1 new_id invitation_id accept
         current_user db).2
  | CancelInvitation invitation_id current_user =>
      (InvitationsRouter.cancel_invitation invitation_id current_user db).2
  | ExpireOldInvitations => (InvitationService.expire_old_invitations timed.1 db).2
  end.

Definition serve_all (requests : list (datetime * request)) (db : DB) : DB :=
  foldl serve db requests.

(** The request is a permanent delete of [document_id]. *)
Definition deletes (document_id : UUID) (timed : datetime * request) : Prop :=
  match timed.2 with
  | DeleteDocument d permanent _ => d = document_id ∧ permanent = true
  | _ => False
  end.

End Requests.

(** A sequence of writes to the state of one document; the value is the
    number of writes that were applied. *)
Fixpoint write_all (document_id : UUID) (writes : list (datetime * bytes * option Z))
    (db : DB) : Z * DB :=
  match writes with
  | [] => (0%Z, db)
  | (now, crdt_state, expected_version) :: writes' =>
      match DocumentService.update_crdt_state now document_id crdt_state
              expected_version db with
      | (Ok (Some _), db') =>
          let '(n, db'') := write_all document_id writes' db' in ((1 + n)%Z, db'')
      | (_, db') => write_all document_id writes' db'
      end
  end.

(** ** Further predicates *)

(** A handler that only reads. *)
Definition read_only {A} (m : M A) : Prop := ∀ db, (m db).2 = db.

(** The rank of a role in [role_hierarchy]. *)
Definition rank (role : DocumentRole) : Z :=
  default 0%Z (DocumentService.role_hierarchy !! role).

(** [uq_document_user_permission] as a property of the table. *)
Definition permissions_unique (db : DB) : Prop :=
  ∀ k1 k2 p1 p2,
    document_permissions db !! k1 = Some p1 → document_permissions db !! k2 = Some p2 →
    DocumentPermission.document_id p1 = DocumentPermission.document_id p2 →
    DocumentPermission.user_id p1 = DocumentPermission.user_id p2 →
    k1 = k2.

(** The unique index on [refresh_tokens.token_hash] as a property of the table. *)
Definition token_hashes_unique (db : DB) : Prop :=
  ∀ k1 k2 r1 r2,
    refresh_tokens db !! k1 = Some r1 → refresh_tokens db !! k2 = Some r2 →
    RefreshToken.token_hash r1 = RefreshToken.token_hash r2 → k1 = k2.

(** The database after the permanent delete of a document. *)
Definition without_document (document_id : UUID) (db : DB) : DB :=
  with_invitations
    (filter (λ kv, Invitation.document_id kv.2 ≠ document_id))
    (with_document_permissions
       (filter (λ kv, DocumentPermission.document_id kv.2 ≠ document_id))
       (with_documents (delete document_id) db)).

(** The single writes the handlers are made of. [deletable] says which
    documents may be deleted permanently. *)
Inductive write (deletable : UUID → Prop) (db : DB) : DB → Prop :=
  | write_add_document k d :
      documents db !! k = None →
      write deletable db (with_documents (<[k := d]>) db)
  | write_set_document k d d' :
      documents db !! k = Some d →
      Document.owner_id d' = Document.owner_id d →
      (Document.crdt_version d <= Document.crdt_version d')%Z →
      write deletable db (with_documents (<[k := d']>) db)
  | write_delete_document k :
      deletable k →
      write deletable db (without_document k db)
  | write_add_permission k p :
      document_permissions db !! k = None →
      no_permission db (DocumentPermission.document_id p) (DocumentPermission.user_id p) →
      write deletable db (with_document_permissions (<[k := p]>) db)
  | write_set_permission k p p' :
      document_permissions db !! k = Some p →
      DocumentPermission.document_id p' = DocumentPermission.document_id p →
      DocumentPermission.user_id p' = DocumentPermission.user_id p →
      write deletable db (with_document_permissions (<[k := p']>) db)
  | write_delete_permission k :
      write deletable db (with_document_permissions (delete k) db)
  | write_set_invitation k i i' :
      invitations db !! k = Some i → Invitation.status i = PENDING →
      write deletable db (with_invitations (<[k := i']>) db)
  | write_delete_invitation k i :
      invitations db !! k = Some i → Invitation.status i = PENDING →
      write deletable db (with_invitations (delete k) db)
  | write_expire_invitations now :
      write deletable db (InvitationService.expire_old_invitations now db).2.

(** ** Example databases *)

Module Examples.

Definition alice : UUID * User.t := (7%N, User.mk "alice@example.com" true).
Definition bob : UUID * User.t := (8%N, User.mk "bob@example.com" true).
Definition carol : UUID * User.t := (9%N, User.mk "carol@example.com" true).

Definition abc : bytes := ["a"%byte; "b"%byte; "c"%byte].
Definition xyz : bytes := ["x"%byte; "y"%byte; "z"%byte].

Definition with_users (db : DB) : DB :=
  mkDB (<[alice.1 := alice.2]> (<[bob.1 := bob.2]> (<[carol.1 := carol.2]> (users db))))
       (documents db) (document_permissions db) (refresh_tokens db) (invitations db).

(** Alice creates the public document 1 (her OWNER permission is row 10). *)
Definition public_db : DB :=
  (DocumentService.create_document 1000 1 10 alice.1 "Untitled Document" None true
     (with_users empty_db)).2.

Definition public_doc : Document.t :=
  Document.mk alice.1 "Untitled Document" None None 0 false true None.

(** ... and archives it. *)
Definition archived_db : DB :=
  (DocumentService.delete_document (1%N, public_doc) true public_db).2.

Definition archived_doc : Document.t := Document.set_is_archived true public_doc.



(** The request of Alice to invite [bob@example.com] to document 1 as
    EDITOR. *)
Definition editor_invite : InvitationsRouter.InvitationCreate :=
  InvitationsRouter.Build_InvitationCreate 1 "bob@example.com" EDITOR (Some "please join").

(** The table holds a PENDING invitation of [bob@example.com] to document 1
    as EDITOR, sent by Alice (row 20, with the hash of its link). *)
Definition editor_invitation : Invitation.t :=
  Invitation.mk 1 alice.1 "bob@example.com" (Some bob.1) EDITOR PENDING
    (Some "please join") (2000 + timedelta_days 7) None (Some "sha256:link-20").

Definition invited_db : DB :=
  with_invitations (<[20%N := editor_invitation]>) public_db.

(** Alice invites [bob@example.com] to document 1 again, now as OWNER. *)
Definition owner_invite : InvitationsRouter.InvitationCreate :=
  InvitationsRouter.Build_InvitationCreate 1 "bob@example.com" OWNER None.

Definition owner_invited_db : DB :=
  (InvitationsRouter.create_invitation 2600 21 owner_invite alice invited_db).2.

Definition owner_invitation : Invitation.t :=
  Invitation.mk 1 alice.1 "bob@example.com" (Some bob.1) OWNER PENDING
    None (2600 + timedelta_days 7) None (Some "sha256:link-20").

(** While the invitation 20 is PENDING, Alice grants Bob VIEWER directly
    (row 11). *)
Definition granted_db : DB :=
  (DocumentsRouter.grant_permission 2500 11 1
     (DocumentsRouter.Build_DocumentPermissionCreate bob.1 VIEWER) alice invited_db).2.

(** A stand-in for the hash of a token, and the requests of a session:
    Bob refreshes, and Carol logs in, refreshes and logs out everywhere. *)
Definition tagged (token : string) : string := "sha256:" +:+ token.

Definition other_requests : list (datetime * AuthService.request) :=
  [(1500%Z, AuthService.Verify "secret");
   (1600%Z, AuthService.Issue 31 "other" carol.1);
   (1700%Z, AuthService.Verify "other");
   (1800%Z, AuthService.RevokeAll carol.1)].

(** Bob accepts the invitation 20 (his permission is row 12). *)
Definition accepted_db : DB :=
  (InvitationsRouter.respond_to_invitation 3000 12 20 true bob invited_db).2.

End Examples.

(** * Properties *)

Ltac bind_step := unfold mbind, mret, M_bind, M_ret; cbn beta.

Ltac run :=
  unfold mbind, mret, M_bind, M_ret, result_bind, result_ret,
         execute, commit, raise in *; simpl in *.

Section queries.
Context {A : Type}.
Implicit Types (rows : gmap N A).

Lemma scalar_one_or_none_empty rows :
  rows = ∅ → scalar_one_or_none rows = Ok None.
Proof. intros ->. unfold scalar_one_or_none. by rewrite map_to_list_empty. Qed.

Lemma scalar_one_or_none_singleton k (x : A) :
  scalar_one_or_none ({[ k := x ]} : gmap N A) = Ok (Some (k, x)).
Proof. unfold scalar_one_or_none. by rewrite map_to_list_singleton. Qed.

Lemma scalar_one_or_none_None rows :
  scalar_one_or_none rows = Ok None → rows = ∅.
Proof.
  unfold scalar_one_or_none.
  destruct (map_to_list rows) as [|r [|r' l]] eqn:E; try discriminate.
  intros _. by apply map_to_list_empty_iff.
Qed.

Lemma scalar_one_or_none_Some rows k x :
  scalar_one_or_none rows = Ok (Some (k, x)) → rows = {[ k := x ]}.
Proof.
  unfold scalar_one_or_none.
  destruct (map_to_list rows) as [|r [|r' l]] eqn:E; try discriminate.
  intros [= ->]. rewrite <- (list_to_map_to_list rows), E. simpl.
  by rewrite insert_empty.
Qed.

Lemma filter_empty_iff (P : N * A → Prop) `{!∀ kv, Decision (P kv)} rows :
  filter P rows = ∅ ↔ ∀ k x, rows !! k = Some x → ¬ P (k, x).
Proof.
  rewrite map_empty. split.
  - intros He k x Hk HP. specialize (He k).
    rewrite map_lookup_filter_None in He. destruct He as [He|He]; [congruence|].
    by apply (He x).
  - intros He k. apply map_lookup_filter_None. right. intros x Hk. by apply He.
Qed.

Lemma filter_singleton_lookup (P : N * A → Prop) `{!∀ kv, Decision (P kv)} rows k x :
  filter P rows = {[ k := x ]} → rows !! k = Some x ∧ P (k, x).
Proof.
  intros He. apply (map_lookup_filter_Some P rows k x).
  rewrite He. apply lookup_singleton_eq.
Qed.
End queries.

(** ** The document service *)

Section document_service.
Import DocumentService.

Lemma get_user_permission_no_permission db D U :
  no_permission db D U → get_user_permission D U db = (Ok None, db).
Proof.
  intros H. unfold get_user_permission, execute.
  rewrite scalar_one_or_none_empty; [done|].
  apply filter_empty_iff. intros k p Hk. simpl. by apply (H k).
Qed.

Lemma get_user_permission_found db D U k p :
  get_user_permission D U db = (Ok (Some (k, p)), db) →
  document_permissions db !! k = Some p
  ∧ DocumentPermission.document_id p = D ∧ DocumentPermission.user_id p = U.
Proof.
  unfold get_user_permission, execute. intros [= H].
  apply scalar_one_or_none_Some, filter_singleton_lookup in H. apply H.
Qed.

Lemma get_user_permission_state db D U : (get_user_permission D U db).2 = db.
Proof. done. Qed.

Lemma get_document_by_id_live db D d :
  documents db !! D = Some d → Document.is_archived d = false →
  get_document_by_id D false db = (Ok (Some (D, d)), db).
Proof.
  intros HD Ha. unfold get_document_by_id, execute, select_by_id.
  rewrite HD. simpl. by rewrite Ha.
Qed.

Lemma get_document_by_id_archived db D d :
  documents db !! D = Some d → Document.is_archived d = true →
  get_document_by_id D false db = (Ok None, db).
Proof.
  intros HD Ha. unfold get_document_by_id, execute, select_by_id.
  rewrite HD. simpl. by rewrite Ha.
Qed.

Lemma get_document_by_id_missing db D :
  documents db !! D = None → get_document_by_id D false db = (Ok None, db).
Proof.
  intros HD. unfold get_document_by_id, execute, select_by_id. by rewrite HD.
Qed.






Lemma create_document_ok now new_id new_perm_id owner title description is_public db D d db' :
  create_document now new_id new_perm_id owner title description is_public db
    = (Ok (D, d), db') →
  documents db' !! D = Some d ∧ Document.crdt_version d = 0%Z
  ∧ Document.is_archived d = false ∧ Document.crdt_state d = None.
Proof.
  unfold create_document, add_document, add_document_permission. run.
  destruct (pk_free (documents db) new_id); simpl; [|discriminate].
  destruct (pk_free (document_permissions db) new_perm_id); simpl; [|discriminate].
  case_bool_decide; [|discriminate]. intros [= <- <- <-]. simpl.
  by rewrite lookup_insert_eq.
Qed.
End document_service.

Section document_service_claims.
Import DocumentService Examples.

Lemma check_access_no_role db D U required :
  no_permission db D U →
  check_access D U required db
  = match (get_document_by_id D false db).1 with
    | Ok (Some (_, d)) =>
        (Ok (Document.is_public d && bool_decide (required = VIEWER)), db)
    | Ok None => (Ok false, db)
    | Raise e => (Raise e, db)
    end.
Proof.
  intros Hno. unfold check_access, get_user_role. bind_step.
  rewrite (get_user_permission_no_permission _ _ _ Hno). cbn beta iota.
  unfold get_document_by_id, execute. cbn beta iota.
  destruct (select_by_id (documents db) D) as [[k d]|]; [|done].
  destruct (negb false && _); [done|]. simpl.
  by destruct (Document.is_public d && bool_decide (required = VIEWER)).
Qed.




(** C7: when the role [U] holds on [D] is OWNER, [revoke_permission]
    returns [False] and deletes nothing: the database, and with it the
    permissions of [D], is the one before the call. *)
Theorem revoke_permission_owner db D U :
  (get_user_role D U db).1 = Ok (Some OWNER) →
  revoke_permission D U db = (Ok false, db)
  ∧ document_permissions (revoke_permission D U db).2 = document_permissions db.
Proof.
  unfold revoke_permission, get_user_role. bind_step.
  destruct (get_user_permission D U db) as [[[[k p]|]|e] db'] eqn:E;
    cbn [fst snd]; try discriminate.
  intros [= Hrole].
  assert (db' = db) as -> by (by rewrite <- (get_user_permission_state db D U), E).
  by rewrite Hrole.
Qed.

Lemma revoke_permission_owner_witness :
  revoke_permission 1 alice.1 public_db = (Ok false, public_db)
  ∧ document_permissions (revoke_permission 1 alice.1 public_db).2
    = document_permissions public_db.
Proof. apply (revoke_permission_owner public_db 1 alice.1). reflexivity. Defined.

(** C8, as amended: for every public document [D] that is not archived
    and every user [U] with no permission row on [D],
    [check_access(D, U, VIEWER)] is true and [check_access(D, U, EDITOR)]
    is false. *)
Theorem check_access_public db D d U :
  documents db !! D = Some d → Document.is_public d = true →
  Document.is_archived d = false → no_permission db D U →
  check_access D U VIEWER db = (Ok true, db)
  ∧ check_access D U EDITOR db = (Ok false, db).
Proof.
  intros HD Hp Ha Hno.
  rewrite !(check_access_no_role _ _ _ _ Hno).
  rewrite (get_document_by_id_live _ _ _ HD Ha). cbn [fst].
  by rewrite Hp.
Qed.

Lemma no_permission_bob_public_db : no_permission public_db 1 bob.1.
Proof.
  intros k p Hk [_ Hu]. change (document_permissions public_db) with
    ({[ 10%N := DocumentPermission.mk 1 alice.1 OWNER 1000 (Some alice.1) ]}
       : gmap N DocumentPermission.t) in Hk.
  apply lookup_singleton_Some in Hk as [_ <-]. discriminate Hu.
Qed.

Lemma check_access_public_witness :
  check_access 1 bob.1 VIEWER public_db = (Ok true, public_db)
  ∧ check_access 1 bob.1 EDITOR public_db = (Ok false, public_db).
Proof.
  apply (check_access_public public_db 1 public_doc bob.1);
    [reflexivity | reflexivity | reflexivity | apply no_permission_bob_public_db].
Defined.

(** C8 as stated fails on a public document that is archived: Bob, who
    has no permission row, is refused as a viewer. *)
Lemma check_access_public_archived_counterexample :
  documents archived_db !! 1%N = Some archived_doc
  ∧ Document.is_public archived_doc = true
  ∧ (get_user_role 1 bob.1 archived_db).1 = Ok None
  ∧ check_access 1 bob.1 VIEWER archived_db = (Ok false, archived_db).
Proof. repeat split; reflexivity. Qed.

(** C9: for every archived document [D] with [is_public] true and every
    user [U] with no permission row on [D], [check_access(D, U, VIEWER)]
    is false, and so is it for every other required role: the lookup of
    the public fallback leaves archived documents out. *)
Theorem check_access_archived db D d U :
  documents db !! D = Some d → Document.is_archived d = true →
  Document.is_public d = true → no_permission db D U →
  get_document_by_id D false db = (Ok None, db)
  ∧ check_access D U VIEWER db = (Ok false, db)
  ∧ ∀ required, check_access D U required db = (Ok false, db).
Proof.
  intros HD Ha Hp Hno.
  pose proof (get_document_by_id_archived _ _ _ HD Ha) as E.
  split; [done|].
  assert (∀ required, check_access D U required db = (Ok false, db)) as Hall.
  { intros required. rewrite (check_access_no_role _ _ _ _ Hno). by rewrite E. }
  split; [apply Hall | exact Hall].
Qed.

Lemma no_permission_bob_archived_db : no_permission archived_db 1 bob.1.
Proof. exact no_permission_bob_public_db. Qed.

Lemma check_access_archived_witness :
  get_document_by_id 1 false archived_db = (Ok None, archived_db)
  ∧ check_access 1 bob.1 VIEWER archived_db = (Ok false, archived_db)
  ∧ ∀ required, check_access 1 bob.1 required archived_db = (Ok false, archived_db).
Proof.
  apply (check_access_archived archived_db 1 archived_doc bob.1);
    [reflexivity | reflexivity | reflexivity | apply no_permission_bob_archived_db].
Defined.
End document_service_claims.

(** ** Invitations *)

Section inserts.

Lemma pk_free_true {A} (rows : gmap N A) k : rows !! k = None → pk_free rows k = true.
Proof. intros H. unfold pk_free. by rewrite bool_decide_eq_true_2. Qed.

Lemma add_document_permission_ok db new_id p :
  document_permissions db !! new_id = None →
  no_permission db (DocumentPermission.document_id p) (DocumentPermission.user_id p) →
  add_document_permission new_id p db
  = Ok (with_document_permissions (<[new_id := p]>) db).
Proof.
  intros Hpk Hno. unfold add_document_permission.
  rewrite (pk_free_true _ _ Hpk). simpl.
  rewrite bool_decide_eq_true_2; [done|].
  apply filter_empty_iff. intros k q Hk. by apply (Hno k).
Qed.

Lemma add_document_permission_duplicate db new_id p k q :
  document_permissions db !! new_id = None →
  document_permissions db !! k = Some q →
  DocumentPermission.document_id q = DocumentPermission.document_id p →
  DocumentPermission.user_id q = DocumentPermission.user_id p →
  add_document_permission new_id p db
  = Raise (IntegrityError "uq_document_user_permission").
Proof.
  intros Hpk Hk Hd Hu. unfold add_document_permission.
  rewrite (pk_free_true _ _ Hpk). simpl.
  rewrite bool_decide_eq_false_2; [done|].
  intros He. by apply (proj1 (filter_empty_iff _ _) He k q Hk).
Qed.

End inserts.

Section respond.
Import InvitationService InvitationsRouter.

Lemma respond_to_invitation_unfold now new_id db k i accept current_user :
  invitations db !! k = Some i →
  respond_to_invitation now new_id k accept current_user db
  = if negb (is_invitee i current_user) then (Raise not_for_you, db)
    else if negb (bool_decide (Invitation.status i = PENDING))
    then (Raise (already_responded (Invitation.status i)), db)
    else if accept then
      match add_document_permission new_id (granted_on_accept now current_user.1 i)
              (with_invitations (<[k := accepted now current_user.1 i]>) db) with
      | Ok db' => (Ok (Accepted (DocumentRole_value (Invitation.role i))
                                (Invitation.document_id i)), db')
      | Raise e => (Raise e, db)
      end
    else (Ok Declined, with_invitations (<[k := declined now i]>) db).
Proof.
  intros Hk. unfold respond_to_invitation, get_invitation_by_id, execute, select_by_id.
  bind_step. rewrite Hk. cbn [fmap option_fmap option_map fst snd].
  unfold is_invitee. destruct (negb (_ || _)); [done|].
  destruct (negb (bool_decide _)); [done|].
  destruct accept; [|done].
  unfold accept_invitation, commit. bind_step. cbn [fst snd].
  fold (granted_on_accept now current_user.1 i). fold (accepted now current_user.1 i).
  by destruct (add_document_permission _ _ _).
Qed.

Lemma accept_invitation_existing_permission now new_id db k i U kp p :
  document_permissions db !! new_id = None →
  document_permissions db !! kp = Some p →
  DocumentPermission.document_id p = Invitation.document_id i →
  DocumentPermission.user_id p = U →
  accept_invitation now new_id (k, i) U db
  = (Raise (IntegrityError "uq_document_user_permission"), db).
Proof.
  intros Hpk Hkp Hd Hu. unfold accept_invitation, commit. bind_step. cbn [fst snd].
  by rewrite (add_document_permission_duplicate _ new_id _ kp p).
Qed.

End respond.

Section loops.
Context {A : Type}.
Implicit Types (rows : gmap N A) (l : list (N * A)).

Lemma foldl_rows_other f l acc k :
  k ∉ l.*1 → (foldl (change_row f) acc l).1 !! k = acc.1 !! k.
Proof.
  revert acc. induction l as [|[k' x'] l IH]; intros acc Hk; [done|].
  rewrite fmap_cons, not_elem_of_cons in Hk. destruct Hk as [Hne Hk].
  simpl. rewrite (IH _ Hk). simpl. by rewrite lookup_insert_ne.
Qed.

Lemma foldl_rows_selected f l acc k x :
  NoDup l.*1 → (k, x) ∈ l → (foldl (change_row f) acc l).1 !! k = Some (f x).
Proof.
  revert acc. induction l as [|[k' x'] l IH]; intros acc Hnd Hin.
  - by apply elem_of_nil in Hin.
  - rewrite fmap_cons, NoDup_cons in Hnd. destruct Hnd as [Hk' Hnd].
    apply elem_of_cons in Hin as [[= <- <-]|Hin]; simpl.
    + rewrite (foldl_rows_other _ _ _ _ Hk'). simpl. apply lookup_insert_eq.
    + by apply IH.
Qed.

Lemma foldl_rows_count f l acc :
  (foldl (change_row f) acc l).2 = (acc.2 + Z.of_nat (length l))%Z.
Proof.
  revert acc. induction l as [|kv l IH]; intros acc; simpl; [lia|].
  rewrite IH. simpl. lia.
Qed.

(** The loop over the rows a filter selected changes exactly those rows
    and counts them. *)
Lemma for_each_row_filter (P : N * A → Prop) `{!∀ kv, Decision (P kv)} f rows k :
  (for_each_row f (map_to_list (filter P rows)) rows).1 !! k
  = (λ x, if decide (P (k, x)) then f x else x) <$> rows !! k.
Proof.
  unfold for_each_row.
  destruct (filter P rows !! k) as [x|] eqn:E.
  - pose proof E as [Hk HP]%map_lookup_filter_Some.
    rewrite (foldl_rows_selected f _ _ k x).
    + rewrite Hk. simpl. by rewrite decide_True.
    + apply NoDup_fst_map_to_list.
    + by apply elem_of_map_to_list.
  - rewrite foldl_rows_other.
    + simpl. apply map_lookup_filter_None in E as [E|E].
      * by rewrite E.
      * destruct (rows !! k) as [x|] eqn:Hk; [|done]. simpl.
        rewrite decide_False; [done|]. by apply E.
    + intros [[k' x] [-> Hin]]%list_elem_of_fmap. simpl in E.
      apply elem_of_map_to_list in Hin. congruence.
Qed.

Lemma for_each_row_count (P : N * A → Prop) `{!∀ kv, Decision (P kv)} f rows :
  (for_each_row f (map_to_list (filter P rows)) rows).2
  = Z.of_nat (size (filter P rows)).
Proof.
  unfold for_each_row.
  rewrite foldl_rows_count, length_map_to_list. simpl. lia.
Qed.
End loops.

Section sweep.
Import InvitationService.

Lemma expire_old_invitations_lookup now db k :
  invitations (expire_old_invitations now db).2 !! k
  = (λ i, if decide (Invitation.status i = PENDING ∧ (Invitation.expires_at i <= now)%Z)
          then Invitation.set_status EXPIRED i else i)
    <$> invitations db !! k.
Proof.
  unfold expire_old_invitations, execute, commit. bind_step. cbn [fst snd].
  simpl.
  etrans; [exact (for_each_row_filter
           (λ kv, Invitation.status kv.2 = PENDING ∧ (Invitation.expires_at kv.2 <= now)%Z)
           (Invitation.set_status EXPIRED) (invitations db) k)|done].
Qed.

Lemma expire_old_invitations_other_tables now db :
  let db' := (expire_old_invitations now db).2 in
  users db' = users db ∧ documents db' = documents db
  ∧ document_permissions db' = document_permissions db
  ∧ refresh_tokens db' = refresh_tokens db.
Proof. done. Qed.
End sweep.

Section invitation_claims.
Import DocumentService InvitationService InvitationsRouter Examples.

Lemma respond_to_invitation_ok_status now new_id db k accept current_user body db' :
  respond_to_invitation now new_id k accept current_user db = (Ok body, db') →
  ∃ i', invitations db' !! k = Some i'
        ∧ (Invitation.status i' = ACCEPTED ∨ Invitation.status i' = DECLINED).
Proof.
  destruct (invitations db !! k) as [i|] eqn:Hk.
  - rewrite (respond_to_invitation_unfold _ _ _ _ _ _ _ Hk).
    destruct (negb (is_invitee i current_user)); [discriminate|].
    destruct (negb (bool_decide _)); [discriminate|].
    destruct accept.
    + unfold add_document_permission.
      destruct (negb (pk_free _ _)); [discriminate|].
      destruct (bool_decide _); [|discriminate].
      intros [= _ <-]. exists (accepted now current_user.1 i). simpl.
      rewrite lookup_insert_eq. auto.
    + intros [= _ <-]. exists (declined now i). simpl.
      rewrite lookup_insert_eq. auto.
  - unfold respond_to_invitation, get_invitation_by_id, execute, select_by_id.
    bind_step. rewrite Hk. discriminate.
Qed.

(** C2, on the code: the permission route refuses the role OWNER, the
    invitation route has no such check. While [bob@example.com] holds the
    PENDING invitation 20 to document 1 as EDITOR, Alice's request to
    invite him as OWNER is served: the row is updated in place to the
    role OWNER, and once Bob accepts it he holds OWNER on the document.
    A request for a pair without a PENDING invitation raises, but not for
    its role: the insert of the new row is refused for its missing
    [token_hash], for EDITOR as for OWNER. *)
Theorem create_invitation_owner_role_not_rejected :
  (DocumentsRouter.grant_permission 2000 11 1
     (DocumentsRouter.Build_DocumentPermissionCreate bob.1 OWNER) alice public_db).1
  = Raise (HTTPException HTTP_400_BAD_REQUEST
             "Cannot grant OWNER role. Use transfer ownership instead.")
  ∧ invitations invited_db !! 20%N = Some editor_invitation
  ∧ Invitation.role editor_invitation = EDITOR
  ∧ Invitation.status editor_invitation = PENDING
  ∧ InvitationsRouter.create_invitation 2600 21 owner_invite alice invited_db
    = (Ok (20%N, owner_invitation), owner_invited_db)
  ∧ invitations owner_invited_db !! 20%N = Some owner_invitation
  ∧ Invitation.role owner_invitation = OWNER
  ∧ Invitation.status owner_invitation = PENDING
  ∧ (respond_to_invitation 3000 12 20 true bob owner_invited_db).1
    = Ok (Accepted "OWNER" 1)
  ∧ (get_user_role 1 bob.1
       (respond_to_invitation 3000 12 20 true bob owner_invited_db).2).1
    = Ok (Some OWNER)
  ∧ InvitationsRouter.create_invitation 2000 20 owner_invite alice public_db
    = (Raise (IntegrityError "invitations.token_hash is null"), public_db)
  ∧ InvitationsRouter.create_invitation 2000 20 editor_invite alice public_db
    = (Raise (IntegrityError "invitations.token_hash is null"), public_db).
Proof.
  split_and!; reflexivity.
Qed.

(** C3, on the code: Bob holds VIEWER on document 1 when he accepts the
    EDITOR invitation. The accept adds a second permission row for the
    pair, the unique constraint refuses it, and nothing is committed: the
    invitation is still PENDING and Bob's role is still VIEWER. *)
Theorem accept_invitation_existing_permission_raises :
  invitations granted_db !! 20%N = Some editor_invitation
  ∧ is_invitee editor_invitation bob = true
  ∧ (get_user_role 1 bob.1 granted_db).1 = Ok (Some VIEWER)
  ∧ accept_invitation 3000 12 (20%N, editor_invitation) bob.1 granted_db
    = (Raise (IntegrityError "uq_document_user_permission"), granted_db)
  ∧ respond_to_invitation 3000 12 20 true bob granted_db
    = (Raise (IntegrityError "uq_document_user_permission"), granted_db).
Proof. repeat split; reflexivity. Qed.

(** C4, as amended: on an invitation whose status is not PENDING, a
    respond call by the invitee (the linked id or the email) raises the
    conflict that names the current status, a respond call by anybody
    else is refused as not being the invitee, and either way the database
    is left as it was, so no permission is created. Hence after a respond
    that succeeded every further respond on the same invitation raises
    and leaves the database as it was. *)
Theorem respond_to_invitation_resolved :
  (∀ now new_id db k i accept current_user,
     invitations db !! k = Some i → Invitation.status i ≠ PENDING →
     respond_to_invitation now new_id k accept current_user db
     = (Raise (if is_invitee i current_user
               then already_responded (Invitation.status i)
               else not_for_you), db))
  ∧ (∀ now new_id db k accept current_user body db',
       respond_to_invitation now new_id k accept current_user db = (Ok body, db') →
       ∀ now' new_id' accept' current_user',
         ∃ e, respond_to_invitation now' new_id' k accept' current_user' db'
              = (Raise e, db')).
Proof.
  assert (∀ now new_id db k i accept current_user,
     invitations db !! k = Some i → Invitation.status i ≠ PENDING →
     respond_to_invitation now new_id k accept current_user db
     = (Raise (if is_invitee i current_user
               then already_responded (Invitation.status i)
               else not_for_you), db)) as Hresolved.
  { intros now new_id db k i accept current_user Hk Hst.
    rewrite (respond_to_invitation_unfold _ _ _ _ _ _ _ Hk).
    destruct (is_invitee i current_user); [|done]. simpl.
    by rewrite bool_decide_eq_false_2. }
  split; [exact Hresolved|].
  intros now new_id db k accept current_user body db' Hok now' new_id' accept' current_user'.
  destruct (respond_to_invitation_ok_status _ _ _ _ _ _ _ _ Hok) as (i' & Hk' & Hst).
  eexists. apply (Hresolved now' new_id' db' k i'); [done|].
  destruct Hst as [-> | ->]; discriminate.
Qed.

(** Bob has accepted; his second respond names the status, and the
    first respond is one that succeeded. *)
Lemma respond_to_invitation_resolved_witness :
  respond_to_invitation 4000 13 20 false bob accepted_db
  = (Raise (HTTPException 400 "Invitation has already been accepted"), accepted_db)
  ∧ ∃ e, respond_to_invitation 4000 13 20 true bob accepted_db = (Raise e, accepted_db).
Proof.
  destruct respond_to_invitation_resolved as [Hresolved Hsecond]. split.
  - apply (Hresolved 4000%Z 13%N accepted_db 20%N (accepted 3000 bob.1 editor_invitation)
             false bob); [reflexivity | discriminate].
  - apply (Hsecond 3000%Z 12%N invited_db 20%N true bob (Accepted "EDITOR" 1) accepted_db).
    reflexivity.
Defined.

(** C4 as stated fails for a caller who is not the invitee: on the
    invitation Bob has accepted, Carol's respond is refused with 403
    rather than with the conflict that names the status. *)
Lemma respond_to_invitation_resolved_counterexample :
  invitations accepted_db !! 20%N = Some (accepted 3000 bob.1 editor_invitation)
  ∧ Invitation.status (accepted 3000 bob.1 editor_invitation) = ACCEPTED
  ∧ respond_to_invitation 4000 13 20 true carol accepted_db
    = (Raise (HTTPException 403 "This invitation is not for you"), accepted_db)
  ∧ (respond_to_invitation 4000 13 20 true carol accepted_db).1
    ≠ Raise (already_responded ACCEPTED).
Proof. repeat split; try reflexivity. discriminate. Qed.

(** C10, on the code: the invitation 20 of [granted_db] is PENDING and
    its [expires_at] is a day in the past; Bob, its invitee, holds VIEWER
    on the document. His accept does not succeed: it raises the
    [IntegrityError] of the second permission row for the pair, and the
    invitation stays PENDING and his role VIEWER. (His decline succeeds,
    and so does the accept while he holds no permission, as in
    [invited_db]: the respond path never reads [expires_at].) *)
Theorem respond_to_invitation_stale_pending_raises :
  let now := (2000 + timedelta_days 8)%Z in
  invitations granted_db !! 20%N = Some editor_invitation
  ∧ Invitation.status editor_invitation = PENDING
  ∧ (Invitation.expires_at editor_invitation <? now)%Z = true
  ∧ is_invitee editor_invitation bob = true
  ∧ (get_user_role 1 bob.1 granted_db).1 = Ok (Some VIEWER)
  ∧ respond_to_invitation now 12 20 true bob granted_db
    = (Raise (IntegrityError "uq_document_user_permission"), granted_db)
  ∧ Invitation.status
      <$> invitations (respond_to_invitation now 12 20 true bob granted_db).2 !! 20%N
    = Some PENDING
  ∧ (get_user_role 1 bob.1 (respond_to_invitation now 12 20 true bob granted_db).2).1
    = Ok (Some VIEWER)
  ∧ (respond_to_invitation now 12 20 false bob granted_db).1 = Ok Declined
  ∧ Invitation.status
      <$> invitations (respond_to_invitation now 12 20 false bob granted_db).2 !! 20%N
    = Some DECLINED
  ∧ (respond_to_invitation now 12 20 true bob invited_db).1 = Ok (Accepted "EDITOR" 1)
  ∧ Invitation.status
      <$> invitations (respond_to_invitation now 12 20 true bob invited_db).2 !! 20%N
    = Some ACCEPTED
  ∧ (get_user_role 1 bob.1 (respond_to_invitation now 12 20 true bob invited_db).2).1
    = Ok (Some EDITOR).
Proof. cbv zeta. split_and!; reflexivity. Qed.

(** X25: for every invitation that is still PENDING while its
    [expires_at] is already in the past, a respond by the invitee who
    holds no permission on the document yet succeeds: an accept stores
    the invitation as ACCEPTED and adds the permission at the invited
    role, a decline stores it as DECLINED. The listing of pending
    invitations leaves such an invitation out, and after the sweep its
    status is EXPIRED, its other columns being what they were. *)
Theorem respond_to_invitation_stale_pending now new_id db k i current_user :
  invitations db !! k = Some i → Invitation.status i = PENDING →
  (Invitation.expires_at i < now)%Z → is_invitee i current_user = true →
  (document_permissions db !! new_id = None →
   no_permission db (Invitation.document_id i) current_user.1 →
   respond_to_invitation now new_id k true current_user db
   = (Ok (Accepted (DocumentRole_value (Invitation.role i)) (Invitation.document_id i)),
      with_document_permissions (<[new_id := granted_on_accept now current_user.1 i]>)
        (with_invitations (<[k := accepted now current_user.1 i]>) db)))
  ∧ respond_to_invitation now new_id k false current_user db
    = (Ok Declined, with_invitations (<[k := declined now i]>) db)
  ∧ (∃ l, get_pending_invitations_for_user now current_user.1
            (User.email current_user.2) db = (Ok l, db)
          ∧ ∀ i', (k, i') ∉ l)
  ∧ (∃ i', invitations (expire_old_invitations now db).2 !! k = Some i'
           ∧ Invitation.status i' = EXPIRED
           ∧ Invitation.document_id i' = Invitation.document_id i
           ∧ Invitation.invited_by_id i' = Invitation.invited_by_id i
           ∧ Invitation.invitee_email i' = Invitation.invitee_email i
           ∧ Invitation.invitee_id i' = Invitation.invitee_id i
           ∧ Invitation.role i' = Invitation.role i
           ∧ Invitation.message i' = Invitation.message i
           ∧ Invitation.expires_at i' = Invitation.expires_at i
           ∧ Invitation.responded_at i' = Invitation.responded_at i
           ∧ Invitation.token_hash i' = Invitation.token_hash i).
Proof.
  intros Hk Hst Hexp Hinv. split; [|split; [|split]].
  - intros Hpk Hno.
    rewrite (respond_to_invitation_unfold _ _ _ _ _ _ _ Hk), Hinv, Hst. simpl.
    by rewrite add_document_permission_ok.
  - by rewrite (respond_to_invitation_unfold _ _ _ _ _ _ _ Hk), Hinv, Hst.
  - eexists. split; [reflexivity|]. intros i' Hin.
    apply elem_of_map_to_list, map_lookup_filter_Some in Hin as [Hk' (_ & Hgt & _)].
    simpl in Hgt. rewrite Hk in Hk'. injection Hk' as <-. lia.
  - exists (Invitation.set_status EXPIRED i). split; [|by split_and!].
    rewrite expire_old_invitations_lookup, Hk. simpl.
    rewrite decide_True; [done|]. split; [done|lia].
Qed.

Lemma respond_to_invitation_stale_pending_witness :
  let now := (2000 + timedelta_days 8)%Z in
  respond_to_invitation now 12 20 true bob invited_db
  = (Ok (Accepted "EDITOR" 1),
     with_document_permissions (<[12%N := granted_on_accept now bob.1 editor_invitation]>)
       (with_invitations (<[20%N := accepted now bob.1 editor_invitation]>) invited_db))
  ∧ respond_to_invitation now 12 20 false bob invited_db
    = (Ok Declined, with_invitations (<[20%N := declined now editor_invitation]>) invited_db)
  ∧ (∃ l, get_pending_invitations_for_user now bob.1 (User.email bob.2) invited_db
          = (Ok l, invited_db)
          ∧ ∀ i', (20%N, i') ∉ l)
  ∧ (∃ i', invitations (expire_old_invitations now invited_db).2 !! 20%N = Some i'
           ∧ Invitation.status i' = EXPIRED
           ∧ Invitation.document_id i' = Invitation.document_id editor_invitation
           ∧ Invitation.invited_by_id i' = Invitation.invited_by_id editor_invitation
           ∧ Invitation.invitee_email i' = Invitation.invitee_email editor_invitation
           ∧ Invitation.invitee_id i' = Invitation.invitee_id editor_invitation
           ∧ Invitation.role i' = Invitation.role editor_invitation
           ∧ Invitation.message i' = Invitation.message editor_invitation
           ∧ Invitation.expires_at i' = Invitation.expires_at editor_invitation
           ∧ Invitation.responded_at i' = Invitation.responded_at editor_invitation
           ∧ Invitation.token_hash i' = Invitation.token_hash editor_invitation).
Proof.
  intros now.
  destruct (respond_to_invitation_stale_pending now 12 invited_db 20 editor_invitation bob)
    as (Hacc & Hrest); [reflexivity | reflexivity | reflexivity | reflexivity |].
  split; [|exact Hrest].
  apply Hacc; [reflexivity|].
  change (no_permission public_db 1 bob.1). apply no_permission_bob_public_db.
Defined.
End invitation_claims.

Section unique_rows.
Context {A : Type}.
Implicit Types (rows : gmap N A).

Lemma filter_singleton_of_unique (P : N * A → Prop) `{!∀ kv, Decision (P kv)} rows k x :
  rows !! k = Some x → P (k, x) →
  (∀ k' x', rows !! k' = Some x' → P (k', x') → k' = k) →
  filter P rows = {[ k := x ]}.
Proof.
  intros Hk HP Huniq. apply map_eq. intros k'.
  destruct (decide (k' = k)) as [->|Hne].
  - rewrite lookup_singleton_eq. by apply map_lookup_filter_Some.
  - rewrite lookup_singleton_ne by done. apply map_lookup_filter_None.
    right. intros x' Hk' HP'. apply Hne. by apply (Huniq k' x').
Qed.

(** On a column that is unique, [scalar_one_or_none] does not raise. *)
Lemma scalar_one_or_none_unique (P : N * A → Prop) `{!∀ kv, Decision (P kv)} rows :
  (∀ k1 k2 x1 x2, rows !! k1 = Some x1 → rows !! k2 = Some x2 →
                  P (k1, x1) → P (k2, x2) → k1 = k2) →
  ∃ r, scalar_one_or_none (filter P rows) = Ok r.
Proof.
  intros Huniq. destruct (map_choose_or_empty (filter P rows)) as [(k & x & Hkx)|He].
  - apply map_lookup_filter_Some in Hkx as [Hk HP].
    rewrite (filter_singleton_of_unique P rows k x Hk HP).
    + eexists. apply scalar_one_or_none_singleton.
    + intros k' x' Hk' HP'. by apply (Huniq k' k x' x).
  - rewrite He. eexists. by apply scalar_one_or_none_empty.
Qed.
End unique_rows.

Section pending_invariant.
Import InvitationService InvitationRequests.

Lemma pending_within_refl db : pending_within db db.
Proof. intros k i Hk Hst. by exists i. Qed.

Lemma pending_within_invariant db db' :
  pending_within db db' → at_most_one_pending db → at_most_one_pending db'.
Proof.
  intros Hw Hinv k1 k2 i1 i2 H1 H2 Hs1 Hs2 Hd He.
  destruct (Hw k1 i1 H1 Hs1) as (j1 & Hj1 & Hsj1 & Hdj1 & Hej1).
  destruct (Hw k2 i2 H2 Hs2) as (j2 & Hj2 & Hsj2 & Hdj2 & Hej2).
  apply (Hinv k1 k2 j1 j2); congruence.
Qed.

(** Storing under an existing key a row that keeps the pair, or that is
    not PENDING. *)
Lemma pending_within_update db k i i' :
  invitations db !! k = Some i →
  (Invitation.status i' = PENDING →
     Invitation.status i = PENDING
     ∧ Invitation.document_id i = Invitation.document_id i'
     ∧ Invitation.invitee_email i = Invitation.invitee_email i') →
  pending_within db (with_invitations (<[k := i']>) db).
Proof.
  intros Hk Hkeep k' j Hk' Hst. simpl in Hk'.
  apply lookup_insert_Some in Hk' as [[<- <-]|[Hne Hk']].
  - exists i. split; [done|]. by apply Hkeep.
  - by exists j.
Qed.

Lemma create_invitation_cases now new_id D inviter E role message expire_days db :
  let r := create_invitation now new_id D inviter E role message expire_days db in
  (∃ e, r = (Raise e, db))
  ∨ (∃ k e, invitations db !! k = Some e ∧ pending_for D E (k, e)
            ∧ filter (pending_for D E) (invitations db) = {[ k := e ]}
            ∧ r = (Ok (k, restamped now inviter role message expire_days e),
                   with_invitations
                     (<[k := restamped now inviter role message expire_days e]>) db)).
Proof.
  unfold create_invitation, execute, commit. bind_step.
  destruct (scalar_one_or_none (filter _ (users db))) as [invitee|e]; [|left; eauto].
  cbn beta iota.
  destruct (scalar_one_or_none (filter (pending_for D E) (invitations db)))
    as [[[k e]|]|e'] eqn:Hq; [| |left; eauto]; cbn beta iota.
  - right. exists k, e.
    pose proof (scalar_one_or_none_Some _ _ _ Hq) as Hf.
    destruct (filter_singleton_lookup _ _ _ _ Hf) as [Hk HP]. done.
  - left. unfold add_invitation. cbn [Invitation.token_hash]. eauto.
Qed.

Lemma create_invitation_invariant now new_id D inviter E role message expire_days db :
  at_most_one_pending db →
  at_most_one_pending
    (create_invitation now new_id D inviter E role message expire_days db).2.
Proof.
  intros Hinv.
  destruct (create_invitation_cases now new_id D inviter E role message expire_days db)
    as [[e ->]|(k & e & Hk & HP & _ & ->)]; cbn [snd]; [done|].
  eapply pending_within_invariant; [|exact Hinv].
  apply (pending_within_update db k e); [done|]. by intros.
Qed.

Lemma serve_invariant db timed :
  at_most_one_pending db → at_most_one_pending (serve db timed).
Proof.
  intros Hinv. destruct timed as [now [new_id D inviter E role message expire_days
    | new_id k U | k | k | | D soft]]; unfold serve; cbn [fst snd].
  - by apply create_invitation_invariant.
  - unfold on_invitation, select_by_id.
    destruct (invitations db !! k) as [i|] eqn:Hk; [|done]. cbn [fmap option_fmap option_map].
    unfold accept_invitation, commit. bind_step. cbn [fst snd].
    unfold add_document_permission. cbn [document_permissions with_invitations].
    destruct (negb (pk_free _ _)); [done|].
    destruct (bool_decide _); [|done]. cbn [snd].
    intros k1 k2 i1 i2 H1 H2. cbn [invitations with_document_permissions] in H1, H2.
    revert k1 k2 i1 i2 H1 H2.
    change (at_most_one_pending (with_invitations (<[k := accepted now U i]>) db)).
    eapply pending_within_invariant; [|exact Hinv].
    apply (pending_within_update db k i); [done|]. discriminate.
  - unfold on_invitation, select_by_id.
    destruct (invitations db !! k) as [i|] eqn:Hk; [|done]. cbn [fmap option_fmap option_map].
    unfold decline_invitation, commit. bind_step. cbn [fst snd].
    eapply pending_within_invariant; [|exact Hinv].
    apply (pending_within_update db k i); [done|]. discriminate.
  - unfold on_invitation, select_by_id.
    destruct (invitations db !! k) as [i|] eqn:Hk; [|done]. cbn [fmap option_fmap option_map].
    unfold cancel_invitation, commit. cbn [fst snd].
    destruct (negb (bool_decide _)); [done|]. bind_step. cbn [snd].
    eapply pending_within_invariant; [|exact Hinv].
    intros k' j Hk' Hst. simpl in Hk'.
    apply lookup_delete_Some in Hk' as [_ Hk']. by exists j.
  - eapply pending_within_invariant; [|exact Hinv].
    intros k' j Hk' Hst. rewrite expire_old_invitations_lookup in Hk'.
    destruct (invitations db !! k') as [i|] eqn:Hi; [|done].
    simpl in Hk'. injection Hk' as <-. exists i. split; [done|].
    destruct (decide _); [discriminate Hst|done].
  - unfold select_by_id. destruct (documents db !! D) as [d|]; [|done].
    cbn [fmap option_fmap option_map].
    unfold DocumentService.delete_document, commit.
    destruct soft; bind_step; cbn [fst snd]; [done|].
    eapply pending_within_invariant; [|exact Hinv].
    intros k' j Hk' Hst. simpl in Hk'.
    apply map_lookup_filter_Some in Hk' as [Hk' _]. by exists j.
Qed.

Lemma serve_all_invariant requests db :
  at_most_one_pending db → at_most_one_pending (serve_all requests db).
Proof.
  unfold serve_all. revert db.
  induction requests as [|timed requests IH]; intros db Hinv; [done|].
  simpl. apply IH. by apply serve_invariant.
Qed.
End pending_invariant.

Section create_invitation_claims.
Import InvitationService InvitationRequests Examples.

Lemma users_query_ok db E :
  users_email_unique db →
  ∃ invitee, scalar_one_or_none (filter (λ kv, User.email kv.2 = E) (users db))
             = Ok invitee.
Proof.
  intros Hu. apply (scalar_one_or_none_unique (λ kv, User.email kv.2 = E)).
  intros k1 k2 u1 u2 H1 H2 E1 E2. simpl in E1, E2. apply (Hu k1 k2 u1 u2); congruence.
Qed.

Lemma create_invitation_existing now new_id db D E inviter role message expire_days k e :
  users_email_unique db →
  filter (pending_for D E) (invitations db) = {[ k := e ]} →
  create_invitation now new_id D inviter E role message expire_days db
  = (Ok (k, restamped now inviter role message expire_days e),
     with_invitations (<[k := restamped now inviter role message expire_days e]>) db).
Proof.
  intros Hu Hf. unfold create_invitation, execute, commit. bind_step.
  destruct (users_query_ok db E Hu) as [invitee ->]. cbn beta iota.
  by rewrite Hf, scalar_one_or_none_singleton.
Qed.

(** The INSERT of [create_invitation] is refused: the new object has no
    [token_hash]. *)
Lemma create_invitation_new now new_id db D E inviter role message expire_days :
  users_email_unique db →
  filter (pending_for D E) (invitations db) = ∅ →
  create_invitation now new_id D inviter E role message expire_days db
  = (Raise (IntegrityError "invitations.token_hash is null"), db).
Proof.
  intros Hu Hf. unfold create_invitation, execute, commit. bind_step.
  destruct (users_query_ok db E Hu) as [invitee ->]. cbn beta iota.
  by rewrite Hf, scalar_one_or_none_empty by done.
Qed.


(** X26: the invitation service keeps at most one PENDING invitation per
    (document, invitee email) through every sequence of its requests,
    starting from the empty database or from any database with that
    property. A create for a pair that has a PENDING invitation stores
    the role, message, expiry and inviter of the call in that row and
    adds no row; two creates for such a pair leave exactly one PENDING
    row for it, under the same key, carrying the role and message of the
    second. *)
Theorem create_invitation_single_pending :
  at_most_one_pending empty_db
  ∧ (∀ requests db, at_most_one_pending db → at_most_one_pending (serve_all requests db))
  ∧ (∀ now new_id db D E inviter role message expire_days k e,
       users_email_unique db → at_most_one_pending db →
       invitations db !! k = Some e → pending_for D E (k, e) →
       let e' := restamped now inviter role message expire_days e in
       let r := create_invitation now new_id D inviter E role message expire_days db in
       r = (Ok (k, e'), with_invitations (<[k := e']>) db)
       ∧ pending_invitations r.2 D E = {[ k := e' ]}
       ∧ size (invitations r.2) = size (invitations db)
       ∧ Invitation.role e' = role ∧ Invitation.message e' = message
       ∧ Invitation.invited_by_id e' = inviter
       ∧ Invitation.expires_at e'
         = (now + timedelta_days (or_default expire_days INVITATION_EXPIRE_DAYS))%Z)
  ∧ (∀ t1 t2 id1 id2 db D E inviter1 inviter2 role1 role2 message1 message2 days1 days2
       k e,
       users_email_unique db → at_most_one_pending db →
       invitations db !! k = Some e → pending_for D E (k, e) →
       let r1 := create_invitation t1 id1 D inviter1 E role1 message1 days1 db in
       let r2 := create_invitation t2 id2 D inviter2 E role2 message2 days2 r1.2 in
       ∃ i1 i2,
         r1.1 = Ok (k, i1) ∧ r2.1 = Ok (k, i2)
         ∧ pending_invitations r1.2 D E = {[ k := i1 ]}
         ∧ pending_invitations r2.2 D E = {[ k := i2 ]}
         ∧ size (pending_invitations r2.2 D E) = 1
         ∧ invitations r2.2 = <[k := i2]> (invitations db)
         ∧ Invitation.role i2 = role2 ∧ Invitation.message i2 = message2
         ∧ Invitation.status i2 = PENDING).
Proof.
  assert (∀ now new_id db D E inviter role message expire_days k e,
       users_email_unique db → at_most_one_pending db →
       invitations db !! k = Some e → pending_for D E (k, e) →
       let e' := restamped now inviter role message expire_days e in
       let r := create_invitation now new_id D inviter E role message expire_days db in
       r = (Ok (k, e'), with_invitations (<[k := e']>) db)
       ∧ pending_invitations r.2 D E = {[ k := e' ]}
       ∧ size (invitations r.2) = size (invitations db)) as Hupdate.
  { intros now new_id db D E inviter role message expire_days k e Hu Hinv Hk HP e' r.
    assert (filter (pending_for D E) (invitations db) = {[ k := e ]}) as Hf.
    { apply filter_singleton_of_unique; [done..|].
      intros k' x' Hk' (Hd' & He' & Hs'). destruct HP as (Hd & He & Hs).
      simpl in *. apply (Hinv k' k x' e); congruence. }
    assert (r = (Ok (k, e'), with_invitations (<[k := e']>) db)) as Hr
      by (by apply create_invitation_existing).
    split; [done|]. rewrite Hr. cbn [snd invitations with_invitations]. split.
    + unfold pending_invitations. cbn [invitations with_invitations].
      rewrite map_filter_insert_True, Hf by (destruct HP as (?&?&?); by repeat split).
      by rewrite insert_singleton_eq.
    + apply map_size_insert_Some. eauto. }
  split; [|split; [|split]].
  - intros k1 k2 i1 i2 H1. simpl in H1. by rewrite lookup_empty in H1.
  - intros requests db. apply serve_all_invariant.
  - intros now new_id db D E inviter role message expire_days k e Hu Hinv Hk HP e' r.
    destruct (Hupdate now new_id db D E inviter role message expire_days k e Hu Hinv Hk HP)
      as (Hr & Hp & Hsize).
    by split_and!.
  - intros t1 t2 id1 id2 db D E inviter1 inviter2 role1 role2 message1 message2
      days1 days2 k e Hu Hinv Hk HP r1 r2.
    destruct (Hupdate t1 id1 db D E inviter1 role1 message1 days1 k e Hu Hinv Hk HP)
      as (Hr1 & Hp1 & _).
    fold r1 in Hr1, Hp1.
    set (i1 := restamped t1 inviter1 role1 message1 days1 e) in *.
    assert (users_email_unique r1.2) as Hu1 by (by rewrite Hr1).
    assert (at_most_one_pending r1.2) as Hinv1
      by (by apply create_invitation_invariant).
    assert (invitations r1.2 !! k = Some i1) as Hk1
      by (rewrite Hr1; cbn [snd invitations with_invitations]; apply lookup_insert_eq).
    assert (pending_for D E (k, i1)) as HP1
      by (destruct HP as (?&?&?); by repeat split).
    destruct (Hupdate t2 id2 r1.2 D E inviter2 role2 message2 days2 k i1 Hu1 Hinv1 Hk1 HP1)
      as (Hr2 & Hp2 & _).
    fold r2 in Hr2, Hp2.
    set (i2 := restamped t2 inviter2 role2 message2 days2 i1) in *.
    exists i1, i2.
    split; [by rewrite Hr1|]. split; [by rewrite Hr2|]. split; [done|].
    split; [done|]. split; [by rewrite Hp2, map_size_singleton|].
    split; [|split; [done|split; [done|by destruct HP as (?&?&?)]]].
    rewrite Hr2, Hr1. cbn [snd invitations with_invitations].
    apply insert_insert_eq.
Qed.
End create_invitation_claims.

Section create_invitation_witness.
Import InvitationService InvitationRequests Examples.

Lemma users_email_unique_public_db : users_email_unique public_db.
Proof.
  intros k1 k2 u1 u2 H1 H2 He.
  change (users public_db) with
    (<[alice.1 := alice.2]> (<[bob.1 := bob.2]> (<[carol.1 := carol.2]>
       (∅ : gmap N User.t)))) in H1, H2.
  repeat (apply lookup_insert_Some in H1 as [[<- <-]|[? H1]]);
    try (by rewrite lookup_empty in H1);
    repeat (apply lookup_insert_Some in H2 as [[<- <-]|[? H2]]);
    try (by rewrite lookup_empty in H2);
    done.
Qed.

Lemma at_most_one_pending_invited_db : at_most_one_pending invited_db.
Proof.
  intros k1 k2 i1 i2 H1 H2 _ _ _ _.
  change (invitations invited_db) with
    (<[20%N := editor_invitation]> (∅ : gmap N Invitation.t)) in H1, H2.
  apply lookup_insert_Some in H1 as [[<- _]|[_ H1]]; [|by rewrite lookup_empty in H1].
  apply lookup_insert_Some in H2 as [[<- _]|[_ H2]]; [|by rewrite lookup_empty in H2].
  done.
Qed.

(** While [bob@example.com] holds the PENDING invitation 20, Alice
    invites him as EDITOR and then as VIEWER. *)
Lemma create_invitation_single_pending_witness :
  at_most_one_pending
    (serve_all [(2000%Z, Create 20 1 alice.1 "bob@example.com" EDITOR None None);
                (3000%Z, Create 21 1 alice.1 "bob@example.com" VIEWER (Some "hi") None);
                (4000%Z, ExpireOld)] invited_db)
  ∧ (let r1 := create_invitation 2600 21 1 alice.1 "bob@example.com" EDITOR None None
                 invited_db in
     let r2 := create_invitation 3000 22 1 alice.1 "bob@example.com" VIEWER (Some "hi")
                 None r1.2 in
     ∃ i1 i2,
       r1.1 = Ok (20%N, i1) ∧ r2.1 = Ok (20%N, i2)
       ∧ pending_invitations r1.2 1 "bob@example.com" = {[ 20%N := i1 ]}
       ∧ pending_invitations r2.2 1 "bob@example.com" = {[ 20%N := i2 ]}
       ∧ size (pending_invitations r2.2 1 "bob@example.com") = 1
       ∧ invitations r2.2 = <[20%N := i2]> (invitations invited_db)
       ∧ Invitation.role i2 = VIEWER ∧ Invitation.message i2 = Some "hi"
       ∧ Invitation.status i2 = PENDING).
Proof.
  destruct create_invitation_single_pending as (Hempty & Hinv & _ & Htwice).
  split; [apply Hinv, at_most_one_pending_invited_db|].
  apply (Htwice 2600%Z 3000%Z 21%N 22%N invited_db 1%N "bob@example.com" _ _ _ _ _ _ _ _
           20%N editor_invitation);
    [apply users_email_unique_public_db | apply at_most_one_pending_invited_db
    | reflexivity | by split_and!].
Defined.
End create_invitation_witness.

(** ** Refresh tokens *)

Section refresh_tokens.
Variable settings : Settings.
Variable hash_token : string → string.

Abbreviation create_refresh_token := (AuthService.create_refresh_token settings hash_token).
Abbreviation verify_refresh_token := (AuthService.verify_refresh_token hash_token).
Abbreviation revoke_refresh_token := (AuthService.revoke_refresh_token hash_token).
Abbreviation revoke_all_user_tokens := AuthService.revoke_all_user_tokens.
Abbreviation serve := (AuthService.serve settings hash_token).
Abbreviation serve_all := (AuthService.serve_all settings hash_token).
Abbreviation revokes := (AuthService.revokes hash_token).

Implicit Types (db : DB) (k : N) (h : string) (r : RefreshToken.t).

Lemma create_refresh_token_fresh now new_id token U db :
  refresh_tokens db !! new_id = None →
  (∀ k r, refresh_tokens db !! k = Some r → RefreshToken.token_hash r ≠ hash_token token) →
  let row := RefreshToken.mk U (hash_token token) false
               (now + timedelta_days (REFRESH_TOKEN_EXPIRE_DAYS settings)) None None in
  create_refresh_token now new_id token U db
  = (Ok token, with_refresh_tokens (<[new_id := row]>) db)
  ∧ token_row (with_refresh_tokens (<[new_id := row]>) db) new_id (hash_token token) U
      (now + timedelta_days (REFRESH_TOKEN_EXPIRE_DAYS settings)) false.
Proof.
  intros Hpk Hfresh row. split.
  - unfold AuthService.create_refresh_token, commit, add_refresh_token. bind_step.
    rewrite (pk_free_true _ _ Hpk). cbn [negb RefreshToken.token_hash].
    rewrite bool_decide_eq_true_2; [done|].
    apply filter_empty_iff. intros k r Hk. simpl. by apply (Hfresh k).
  - exists row. simpl. rewrite lookup_insert_eq. repeat split; try done.
    intros k' r' Hk' Hh. apply lookup_insert_Some in Hk' as [[<- _]|[_ Hk']]; [done|].
    by destruct (Hfresh k' r' Hk').
Qed.

(** What [verify_refresh_token] does on the row of a token. *)
Lemma verify_refresh_token_row now token db k U e b :
  token_row db k (hash_token token) U e b →
  ∃ r, refresh_tokens db !! k = Some r ∧ RefreshToken.user_id r = U
       ∧ RefreshToken.is_revoked r = b
       ∧ verify_refresh_token now token db
         = if negb b && bool_decide (e > now)%Z
           then (Ok (Some (k, RefreshToken.set_last_used_at now r)),
                 with_refresh_tokens (<[k := RefreshToken.set_last_used_at now r]>) db)
           else (Ok None, db).
Proof.
  intros (r & Hk & Hh & HU & He & Hb & Hsole). exists r. repeat split; try done.
  unfold AuthService.verify_refresh_token, execute, commit. bind_step.
  destruct (negb b && bool_decide (e > now)%Z) eqn:Hvalid.
  - apply andb_true_iff in Hvalid as [Hnb Hgt]. apply bool_decide_eq_true in Hgt.
    rewrite (filter_singleton_of_unique _ _ k r);
      [by rewrite scalar_one_or_none_singleton|done| |].
    + simpl. destruct b; [done|]. repeat split; [done..|lia].
    + intros k' r' Hk' (Hh' & _). by apply (Hsole k' r').
  - rewrite scalar_one_or_none_empty; [done|].
    apply filter_empty_iff. intros k' r' Hk' (Hh' & Hb' & He'). simpl in *.
    assert (k' = k) as -> by (by apply (Hsole k' r')).
    rewrite Hk in Hk'. injection Hk' as <-.
    apply andb_false_iff in Hvalid as [Hvalid|Hvalid].
    + rewrite Hb in Hb'. by rewrite Hb' in Hvalid.
    + apply bool_decide_eq_false in Hvalid. lia.
Qed.

(** Storing, under a key that is taken, a row with the same hash, user
    and expiry. *)
Lemma token_row_update db k h U e b k' r' r'' :
  token_row db k h U e b →
  refresh_tokens db !! k' = Some r' →
  RefreshToken.token_hash r'' = RefreshToken.token_hash r' →
  RefreshToken.user_id r'' = RefreshToken.user_id r' →
  RefreshToken.expires_at r'' = RefreshToken.expires_at r' →
  token_row (with_refresh_tokens (<[k' := r'']>) db) k h U e
    (if decide (k' = k) then RefreshToken.is_revoked r'' else b).
Proof.
  intros (r & Hk & Hh & HU & He & Hb & Hsole) Hk' Hh' HU' He'.
  assert (∀ j rj, <[k' := r'']> (refresh_tokens db) !! j = Some rj →
                  RefreshToken.token_hash rj = h → j = k) as Hsole'.
  { intros j rj Hj Hhj. apply lookup_insert_Some in Hj as [[<- <-]|[_ Hj]].
    - apply (Hsole k' r'); congruence.
    - by apply (Hsole j rj). }
  destruct (decide (k' = k)) as [->|Hne].
  - exists r''. simpl. rewrite lookup_insert_eq.
    rewrite Hk in Hk'. injection Hk' as <-. repeat split; try congruence. done.
  - exists r. simpl. rewrite lookup_insert_ne by done. by repeat split.
Qed.

Lemma revoke_refresh_token_row now token db k U e b :
  token_row db k (hash_token token) U e b →
  ∃ r, refresh_tokens db !! k = Some r
       ∧ revoke_refresh_token now token db
         = (Ok true, with_refresh_tokens (<[k := RefreshToken.revoke now r]>) db)
       ∧ token_row (revoke_refresh_token now token db).2 k (hash_token token) U e true.
Proof.
  intros Hrow. pose proof Hrow as (r & Hk & Hh & HU & He & Hb & Hsole).
  exists r. split; [done|].
  assert (revoke_refresh_token now token db
          = (Ok true, with_refresh_tokens (<[k := RefreshToken.revoke now r]>) db)) as E.
  { unfold AuthService.revoke_refresh_token, execute, commit. bind_step.
    rewrite (filter_singleton_of_unique _ _ k r);
      [by rewrite scalar_one_or_none_singleton|done|done|].
    intros k' r' Hk' Hh'. by apply (Hsole k' r'). }
  split; [done|]. rewrite E. cbn [snd].
  pose proof (token_row_update db k _ U e b k r (RefreshToken.revoke now r) Hrow Hk
                eq_refl eq_refl eq_refl) as Hrow'.
  by rewrite decide_True in Hrow'.
Qed.

Lemma revoke_all_user_tokens_lookup now U db k :
  refresh_tokens (revoke_all_user_tokens now U db).2 !! k
  = (λ r, if decide (RefreshToken.user_id r = U ∧ RefreshToken.is_revoked r = false)
          then RefreshToken.revoke now r else r)
    <$> refresh_tokens db !! k.
Proof.
  unfold AuthService.revoke_all_user_tokens, execute, commit. bind_step. cbn [fst snd].
  simpl.
  etrans; [exact (for_each_row_filter
    (λ kv, RefreshToken.user_id kv.2 = U ∧ RefreshToken.is_revoked kv.2 = false)
    (RefreshToken.revoke now) (refresh_tokens db) k)|done].
Qed.

Lemma revoke_all_user_tokens_row now U' db k h U e b :
  token_row db k h U e b →
  token_row (revoke_all_user_tokens now U' db).2 k h U e
    (if decide (U' = U) then true else b).
Proof.
  intros (r & Hk & Hh & HU & He & Hb & Hsole).
  assert (∀ j rj, refresh_tokens (revoke_all_user_tokens now U' db).2 !! j = Some rj →
                  RefreshToken.token_hash rj = h → j = k) as Hsole'.
  { intros j rj Hj Hhj. rewrite revoke_all_user_tokens_lookup in Hj.
    destruct (refresh_tokens db !! j) as [r0|] eqn:Hj0; [|done].
    simpl in Hj. injection Hj as <-. apply (Hsole j r0 Hj0).
    by destruct (decide _). }
  pose proof (revoke_all_user_tokens_lookup now U' db k) as Hlk.
  rewrite Hk in Hlk. simpl in Hlk.
  eexists. split; [exact Hlk|].
  destruct (decide (RefreshToken.user_id r = U' ∧ RefreshToken.is_revoked r = false))
    as [[HU' Hb']|Hn]; simpl.
  - repeat split; try done. rewrite decide_True; [done|congruence].
  - repeat split; try done. destruct (decide (U' = U)) as [->|]; [|done].
    destruct (RefreshToken.is_revoked r) eqn:Hr; [congruence|]. by destruct Hn.
Qed.

(** A request keeps the row of a token: the hash, the user and the
    expiry stay, a revoked token stays revoked, and a token stays valid
    through every request that does not revoke it. *)
Lemma serve_token_row db timed k h U e b :
  token_row db k h U e b →
  ∃ b', token_row (serve db timed) k h U e b'
        ∧ (b = true → b' = true)
        ∧ (¬ revokes h U timed → b' = b).
Proof.
  intros Hrow. pose proof Hrow as (r & Hk & Hh & HU & He & Hb & Hsole).
  destruct timed as [now [new_id token' U' | token' | token' | U']];
    unfold AuthService.serve, AuthService.revokes; cbn [fst snd].
  - exists b. split; [|done].
    unfold AuthService.create_refresh_token, commit, add_refresh_token. bind_step.
    destruct (pk_free (refresh_tokens db) new_id) eqn:Hpk; cbn [negb]; [|done].
    case_bool_decide as Hf; [|done]. cbn [snd].
    apply bool_decide_eq_true in Hpk.
    pose proof (proj1 (filter_empty_iff _ _) Hf) as Hnone.
    exists r. simpl. rewrite lookup_insert_ne by congruence.
    repeat split; try done.
    intros k' r' Hk' Hh'. apply lookup_insert_Some in Hk' as [[<- <-]|[_ Hk']].
    + destruct (Hnone k r Hk). simpl in *. congruence.
    + by apply (Hsole k' r').
  - exists b. split; [|done].
    unfold AuthService.verify_refresh_token, execute, commit. bind_step.
    destruct (scalar_one_or_none _) as [[[k' r']|]|err] eqn:Hq; cbn [snd]; try done.
    apply scalar_one_or_none_Some, filter_singleton_lookup in Hq as [Hk' _].
    pose proof (token_row_update db k h U e b k' r' (RefreshToken.set_last_used_at now r')
                  Hrow Hk' eq_refl eq_refl eq_refl) as Hrow'.
    destruct (decide (k' = k)) as [->|]; [|done].
    rewrite Hk in Hk'. injection Hk' as <-. simpl in Hrow'. by rewrite Hb in Hrow'.
  - unfold AuthService.revoke_refresh_token, execute, commit. bind_step.
    destruct (scalar_one_or_none _) as [[[k' r']|]|err] eqn:Hq; cbn [snd];
      try (exists b; done).
    apply scalar_one_or_none_Some, filter_singleton_lookup in Hq as [Hk' Hh'].
    simpl in Hh'.
    pose proof (token_row_update db k h U e b k' r' (RefreshToken.revoke now r')
                  Hrow Hk' eq_refl eq_refl eq_refl) as Hrow'.
    eexists. split; [exact Hrow'|].
    destruct (decide (k' = k)) as [->|]; [|done]. simpl.
    split; [done|]. intros Hnot. destruct Hnot.
    rewrite Hk in Hk'. injection Hk' as <-. congruence.
  - eexists. split; [by apply revoke_all_user_tokens_row|].
    destruct (decide (U' = U)); [|done]. split; [done|]. by intros [].
Qed.

Lemma serve_all_token_row requests db k h U e b :
  token_row db k h U e b →
  ∃ b', token_row (serve_all requests db) k h U e b'
        ∧ (b = true → b' = true)
        ∧ (Forall (λ timed, ¬ revokes h U timed) requests → b' = b).
Proof.
  unfold AuthService.serve_all. revert db b.
  induction requests as [|timed requests IH]; intros db b Hrow; [by exists b|].
  destruct (serve_token_row db timed k h U e b Hrow) as (b1 & Hrow1 & Hrev1 & Hkeep1).
  destruct (IH _ _ Hrow1) as (b2 & Hrow2 & Hrev2 & Hkeep2).
  exists b2. simpl. split; [done|]. split; [by auto|].
  intros [Hhd Htl]%Forall_cons. rewrite (Hkeep2 Htl). by apply Hkeep1.
Qed.

(** C6: the token issued for [U] (a fresh secret, stored under a fresh
    id) verifies at every time before its [expires_at], after any
    requests that do not revoke it: the verification returns its row,
    which belongs to [U], and stamps [last_used_at]. Once the token is
    revoked, by [revoke_refresh_token] or by [revoke_all_user_tokens] of
    [U], and at every time from [expires_at] on, verification returns
    nothing, whatever requests are served in between. *)
Theorem refresh_token_round_trip now new_id token U db :
  refresh_tokens db !! new_id = None →
  (∀ k r, refresh_tokens db !! k = Some r → RefreshToken.token_hash r ≠ hash_token token) →
  let expires := (now + timedelta_days (REFRESH_TOKEN_EXPIRE_DAYS settings))%Z in
  ∃ db1,
    create_refresh_token now new_id token U db = (Ok token, db1)
    ∧ (∀ requests t,
         Forall (λ timed, ¬ revokes (hash_token token) U timed) requests →
         (t < expires)%Z →
         ∃ r, verify_refresh_token t token (serve_all requests db1)
              = (Ok (Some (new_id, r)),
                 with_refresh_tokens (<[new_id := r]>) (serve_all requests db1))
              ∧ RefreshToken.user_id r = U
              ∧ RefreshToken.last_used_at r = Some t)
    ∧ (∀ before after t t',
         let revoked := revoke_refresh_token t' token (serve_all before db1) in
         revoked.1 = Ok true
         ∧ verify_refresh_token t token (serve_all after revoked.2)
           = (Ok None, serve_all after revoked.2))
    ∧ (∀ before after t t',
         let revoked := revoke_all_user_tokens t' U (serve_all before db1) in
         verify_refresh_token t token (serve_all after revoked.2)
         = (Ok None, serve_all after revoked.2))
    ∧ (∀ requests t,
         (expires <= t)%Z →
         verify_refresh_token t token (serve_all requests db1)
         = (Ok None, serve_all requests db1)).
Proof.
  intros Hpk Hfresh expires.
  destruct (create_refresh_token_fresh now new_id token U db Hpk Hfresh) as [Hissue Hrow].
  eexists. split; [exact Hissue|]. fold expires in Hrow.
  set (db1 := with_refresh_tokens _ db) in *. clearbody db1.
  split; [|split; [|split]].
  - intros requests t Hkeep Ht.
    destruct (serve_all_token_row requests db1 _ _ _ _ _ Hrow) as (b' & Hrow' & _ & Hb').
    rewrite (Hb' Hkeep) in Hrow'.
    destruct (verify_refresh_token_row t token _ _ _ _ _ Hrow') as (r & _ & HU & _ & Hv).
    rewrite bool_decide_eq_true_2 in Hv by lia.
    exists (RefreshToken.set_last_used_at t r). by rewrite Hv.
  - intros before after t t' revoked.
    destruct (serve_all_token_row before db1 _ _ _ _ _ Hrow) as (b0 & Hrow0 & _ & _).
    destruct (revoke_refresh_token_row t' token _ _ _ _ _ Hrow0) as (r0 & _ & Hrev & Hrow1).
    fold revoked in Hrev, Hrow1. split; [by rewrite Hrev|].
    destruct (serve_all_token_row after revoked.2 _ _ _ _ _ Hrow1) as (b2 & Hrow2 & Hb2 & _).
    rewrite (Hb2 eq_refl) in Hrow2.
    by destruct (verify_refresh_token_row t token _ _ _ _ _ Hrow2) as (r & _ & _ & _ & ->).
  - intros before after t t' revoked.
    destruct (serve_all_token_row before db1 _ _ _ _ _ Hrow) as (b0 & Hrow0 & _ & _).
    pose proof (revoke_all_user_tokens_row t' U _ _ _ _ _ _ Hrow0) as Hrow1.
    rewrite decide_True in Hrow1 by done. fold revoked in Hrow1.
    destruct (serve_all_token_row after revoked.2 _ _ _ _ _ Hrow1) as (b2 & Hrow2 & Hb2 & _).
    rewrite (Hb2 eq_refl) in Hrow2.
    by destruct (verify_refresh_token_row t token _ _ _ _ _ Hrow2) as (r & _ & _ & _ & ->).
  - intros requests t Ht.
    destruct (serve_all_token_row requests db1 _ _ _ _ _ Hrow) as (b' & Hrow' & _ & _).
    destruct (verify_refresh_token_row t token _ _ _ _ _ Hrow') as (r & _ & _ & _ & ->).
    rewrite bool_decide_eq_false_2 by lia. by rewrite andb_false_r.
Qed.
End refresh_tokens.

Section refresh_token_witness.
Import Examples AuthService.

(** Bob's token, issued at 1000 with the default lifetime of 30 days. *)
Lemma refresh_token_round_trip_witness :
  let expires := (1000 + timedelta_days 30)%Z in
  ∃ db1,
    create_refresh_token default_settings tagged 1000 30 "secret" bob.1 public_db
    = (Ok "secret", db1)
    ∧ (∃ r, verify_refresh_token tagged 2000 "secret"
              (serve_all default_settings tagged other_requests db1)
            = (Ok (Some (30%N, r)),
               with_refresh_tokens (<[30%N := r]>)
                 (serve_all default_settings tagged other_requests db1))
            ∧ RefreshToken.user_id r = bob.1
            ∧ RefreshToken.last_used_at r = Some 2000%Z)
    ∧ (let revoked := revoke_refresh_token tagged 2500 "secret"
                        (serve_all default_settings tagged other_requests db1) in
       revoked.1 = Ok true
       ∧ verify_refresh_token tagged 3000 "secret"
           (serve_all default_settings tagged other_requests revoked.2)
         = (Ok None, serve_all default_settings tagged other_requests revoked.2))
    ∧ (let revoked := revoke_all_user_tokens 2500 bob.1
                        (serve_all default_settings tagged other_requests db1) in
       verify_refresh_token tagged 3000 "secret"
         (serve_all default_settings tagged other_requests revoked.2)
       = (Ok None, serve_all default_settings tagged other_requests revoked.2))
    ∧ verify_refresh_token tagged expires "secret"
        (serve_all default_settings tagged other_requests db1)
      = (Ok None, serve_all default_settings tagged other_requests db1).
Proof.
  intros expires.
  destruct (refresh_token_round_trip default_settings tagged 1000 30 "secret" bob.1
              public_db) as (db1 & Hissue & Hvalid & Hrevoke & Hrevoke_all & Hexpired).
  - reflexivity.
  - intros k r Hk. change (refresh_tokens public_db) with (∅ : gmap N RefreshToken.t) in Hk.
    by rewrite lookup_empty in Hk.
  - exists db1. split; [exact Hissue|]. split; [|split; [|split]].
    + apply Hvalid; [|reflexivity].
      repeat constructor; unfold revokes; cbn [snd]; try (by intros []).
      discriminate.
    + apply (Hrevoke other_requests other_requests).
    + apply (Hrevoke_all other_requests other_requests).
    + apply Hexpired. reflexivity.
Defined.
End refresh_token_witness.

(** * Further properties *)

(** ** Handlers that only read *)

Section read_only.
Context {A B : Type}.

Lemma read_only_ret (a : A) : read_only (mret a : M A).
Proof. by intros db. Qed.

Lemma read_only_raise e : read_only (raise e : M A).
Proof. by intros db. Qed.

Lemma read_only_execute (stmt : DB → result A) : read_only (execute stmt).
Proof. by intros db. Qed.

Lemma read_only_bind (m : M A) (f : A → M B) :
  read_only m → (∀ a, read_only (f a)) → read_only (m ≫= f).
Proof.
  intros Hm Hf db. unfold mbind, M_bind. specialize (Hm db).
  destruct (m db) as [[a|e] db']; simpl in Hm; subst db'; [apply Hf|done].
Qed.

(** After a handler that only reads, the rest runs on the same database. *)
Lemma bind_read_only (m : M A) (f : A → M B) db :
  read_only m →
  (m ≫= f) db
  = match (m db).1 with
    | Ok a => f a db
    | Raise e => (Raise e, db)
    end.
Proof.
  intros Hm. unfold mbind, M_bind. specialize (Hm db).
  by destruct (m db) as [[a|e] db']; simpl in *; subst db'.
Qed.
End read_only.

Section read_only_handlers.
Import DocumentService.

Lemma read_only_get_user_permission D U : read_only (get_user_permission D U).
Proof. apply read_only_execute. Qed.

Lemma read_only_get_user_role D U : read_only (get_user_role D U).
Proof.
  apply read_only_bind; [apply read_only_get_user_permission|].
  intros a. apply read_only_ret.
Qed.

Lemma read_only_get_document_by_id D b : read_only (get_document_by_id D b).
Proof. apply read_only_execute. Qed.

Lemma read_only_check_access D U required : read_only (check_access D U required).
Proof.
  apply read_only_bind; [apply read_only_get_user_role|].
  intros [role|]; [apply read_only_ret|].
  apply read_only_bind; [apply read_only_get_document_by_id|].
  intros [[k d]|]; [|apply read_only_ret].
  destruct (_ && _); apply read_only_ret.
Qed.

Lemma read_only_DocumentAccessChecker required D u :
  read_only (DocumentsRouter.DocumentAccessChecker required D u).
Proof.
  apply read_only_bind; [apply read_only_check_access|].
  intros b. destruct (negb b); [apply read_only_raise|apply read_only_ret].
Qed.

Lemma read_only_can_invite_to_document D U :
  read_only (InvitationService.can_invite_to_document D U).
Proof.
  apply read_only_bind; [apply read_only_get_user_role|]. intros a. apply read_only_ret.
Qed.

Lemma read_only_is_already_collaborator D E :
  read_only (InvitationService.is_already_collaborator D E).
Proof.
  apply read_only_bind; [apply read_only_execute|].
  intros [[k u]|]; [|apply read_only_ret].
  apply read_only_bind; [apply read_only_execute|]. intros a. apply read_only_ret.
Qed.

Lemma read_only_get_invitation_by_id k :
  read_only (InvitationService.get_invitation_by_id k).
Proof. apply read_only_execute. Qed.
End read_only_handlers.

(** ** Roles and access *)

Section access.
Import DocumentService.

Lemma rank_values : rank VIEWER = 1%Z ∧ rank EDITOR = 2%Z ∧ rank OWNER = 3%Z.
Proof. repeat split; reflexivity. Qed.

Lemma get_user_permission_None db D U :
  get_user_permission D U db = (Ok None, db) → no_permission db D U.
Proof.
  unfold get_user_permission, execute. intros [= Hq].
  apply scalar_one_or_none_None in Hq. intros k p Hk.
  by apply (proj1 (filter_empty_iff _ _) Hq k p Hk).
Qed.

Lemma get_user_permission_cases db D U :
  (∃ e, get_user_permission D U db = (Raise e, db))
  ∨ (get_user_permission D U db = (Ok None, db) ∧ no_permission db D U)
  ∨ (∃ k p, get_user_permission D U db = (Ok (Some (k, p)), db)
            ∧ document_permissions db !! k = Some p
            ∧ DocumentPermission.document_id p = D ∧ DocumentPermission.user_id p = U
            ∧ permissions_of db D U = {[ k := p ]}).
Proof.
  destruct (get_user_permission D U db) as [[[[k p]|]|e] db'] eqn:E.
  all: assert (db' = db) as -> by (by rewrite <- (get_user_permission_state db D U), E).
  - right. right. exists k, p. split; [done|].
    destruct (get_user_permission_found _ _ _ _ _ E) as (Hk & HD & HU).
    repeat split; try done.
    unfold get_user_permission, execute in E. injection E as E.
    by apply scalar_one_or_none_Some in E.
  - right. left. split; [done|]. by apply get_user_permission_None.
  - left. by exists e.
Qed.

Lemma check_access_role db D U k p required :
  get_user_permission D U db = (Ok (Some (k, p)), db) →
  check_access D U required db
  = (Ok (rank (DocumentPermission.role p) >=? rank required)%Z, db).
Proof.
  intros E. unfold check_access, get_user_role. bind_step. by rewrite E.
Qed.

Lemma check_access_raise db D U e required :
  get_user_permission D U db = (Raise e, db) →
  check_access D U required db = (Raise e, db).
Proof.
  intros E. unfold check_access, get_user_role. bind_step. by rewrite E.
Qed.

(** X1: [check_access] is monotone in the required role: whoever passes
    the check for a role passes it for every role of lower or equal rank. *)
Theorem check_access_monotone db D U required required' :
  (rank required' <= rank required)%Z →
  check_access D U required db = (Ok true, db) →
  check_access D U required' db = (Ok true, db).
Proof.
  intros Hle Hacc.
  destruct (get_user_permission_cases db D U)
    as [[e E]|[[E Hno]|(k & p & E & _)]].
  - by rewrite (check_access_raise _ _ _ _ _ E) in Hacc.
  - rewrite (check_access_no_role _ _ _ required Hno) in Hacc.
    rewrite (check_access_no_role _ _ _ required' Hno).
    destruct (get_document_by_id D false db).1 as [[[k d]|]|e]; try done.
    injection Hacc as Hacc. apply andb_true_iff in Hacc as [Hp Hv].
    apply bool_decide_eq_true in Hv. subst required.
    assert (required' = VIEWER) as ->
      by (destruct required'; [| |done]; vm_compute in Hle; by destruct Hle).
    by rewrite Hp.
  - rewrite (check_access_role _ _ _ _ _ required E) in Hacc.
    rewrite (check_access_role _ _ _ _ _ required' E).
    injection Hacc as Hacc. f_equal. f_equal. lia.
Qed.

Lemma check_access_monotone_witness :
  check_access 1 Examples.alice.1 VIEWER Examples.public_db = (Ok true, Examples.public_db).
Proof.
  apply (check_access_monotone Examples.public_db 1 Examples.alice.1 OWNER VIEWER);
    [by vm_compute | reflexivity].
Defined.

(** X2: above VIEWER, [check_access] is passed only through a permission
    row of sufficient rank: the public flag gives viewer access and nothing
    more. *)
Theorem check_access_above_viewer db D U required :
  required ≠ VIEWER →
  check_access D U required db = (Ok true, db) →
  ∃ k p, document_permissions db !! k = Some p
         ∧ DocumentPermission.document_id p = D ∧ DocumentPermission.user_id p = U
         ∧ (rank required <= rank (DocumentPermission.role p))%Z
         ∧ (get_user_role D U db).1 = Ok (Some (DocumentPermission.role p)).
Proof.
  intros Hreq Hacc.
  destruct (get_user_permission_cases db D U)
    as [[e E]|[[E Hno]|(k & p & E & Hk & HD & HU & _)]].
  - by rewrite (check_access_raise _ _ _ _ _ E) in Hacc.
  - rewrite (check_access_no_role _ _ _ _ Hno) in Hacc.
    destruct (get_document_by_id D false db).1 as [[[k d]|]|e]; try done.
    injection Hacc as Hacc. apply andb_true_iff in Hacc as [_ Hv].
    by apply bool_decide_eq_true in Hv.
  - rewrite (check_access_role _ _ _ _ _ _ E) in Hacc. injection Hacc as Hacc.
    exists k, p. repeat split; try done; [lia|].
    unfold get_user_role. bind_step. by rewrite E.
Qed.

Lemma check_access_above_viewer_witness :
  ∃ k p, document_permissions Examples.public_db !! k = Some p
         ∧ DocumentPermission.document_id p = 1%N
         ∧ DocumentPermission.user_id p = Examples.alice.1
         ∧ (rank EDITOR <= rank (DocumentPermission.role p))%Z
         ∧ (get_user_role 1 Examples.alice.1 Examples.public_db).1
           = Ok (Some (DocumentPermission.role p)).
Proof.
  apply (check_access_above_viewer Examples.public_db 1 Examples.alice.1 EDITOR);
    [discriminate | reflexivity].
Defined.
End access.

(** ** Permissions *)

Section permissions.
Import DocumentService.

Lemma permissions_unique_add db k p :
  permissions_unique db →
  no_permission db (DocumentPermission.document_id p) (DocumentPermission.user_id p) →
  permissions_unique (with_document_permissions (<[k := p]>) db).
Proof.
  intros Hu Hno k1 k2 p1 p2 H1 H2 Hd Hus. simpl in H1, H2.
  apply lookup_insert_Some in H1 as [[<- <-]|[Hne1 H1]];
    apply lookup_insert_Some in H2 as [[<- <-]|[Hne2 H2]]; [done| | |].
  - destruct (Hno k2 p2 H2). by split.
  - destruct (Hno k1 p1 H1). by split.
  - by apply (Hu k1 k2 p1 p2).
Qed.

Lemma permissions_unique_set db k p p' :
  permissions_unique db →
  document_permissions db !! k = Some p →
  DocumentPermission.document_id p' = DocumentPermission.document_id p →
  DocumentPermission.user_id p' = DocumentPermission.user_id p →
  permissions_unique (with_document_permissions (<[k := p']>) db).
Proof.
  intros Hu Hk Hd' Hu' k1 k2 p1 p2 H1 H2 Hd Hus. simpl in H1, H2.
  apply lookup_insert_Some in H1 as [[<- <-]|[Hne1 H1]];
    apply lookup_insert_Some in H2 as [[<- <-]|[Hne2 H2]]; [done| | |].
  - apply (Hu k k2 p p2); congruence.
  - apply (Hu k1 k p1 p); congruence.
  - by apply (Hu k1 k2 p1 p2).
Qed.

(** Dropping rows keeps the pairs unique. *)
Lemma permissions_unique_subseteq db db' :
  document_permissions db' ⊆ document_permissions db →
  permissions_unique db → permissions_unique db'.
Proof.
  intros Hsub Hu k1 k2 p1 p2 H1 H2. apply (Hu k1 k2 p1 p2).
  - by apply (lookup_weaken _ _ _ _ H1).
  - by apply (lookup_weaken _ _ _ _ H2).
Qed.

Lemma get_user_permission_unique db D U :
  permissions_unique db → ∃ r, get_user_permission D U db = (Ok r, db).
Proof.
  intros Hu. unfold get_user_permission, execute.
  destruct (scalar_one_or_none_unique
    (λ kv, DocumentPermission.document_id kv.2 = D ∧ DocumentPermission.user_id kv.2 = U)
    (document_permissions db)) as [r ->]; [|by exists r].
  intros k1 k2 p1 p2 H1 H2 [Hd1 Hu1] [Hd2 Hu2]. simpl in *.
  apply (Hu k1 k2 p1 p2); congruence.
Qed.

Lemma get_user_role_of_permissions db D U k p :
  permissions_of db D U = {[ k := p ]} →
  get_user_permission D U db = (Ok (Some (k, p)), db)
  ∧ get_user_role D U db = (Ok (Some (DocumentPermission.role p)), db).
Proof.
  intros Hp.
  assert (get_user_permission D U db = (Ok (Some (k, p)), db)) as E.
  { unfold get_user_permission, execute. unfold permissions_of in Hp.
    by rewrite Hp, scalar_one_or_none_singleton. }
  split; [done|]. unfold get_user_role. bind_step. by rewrite E.
Qed.

Lemma permissions_of_insert_other db D U D' U' k p :
  DocumentPermission.document_id p = D → DocumentPermission.user_id p = U →
  (D', U') ≠ (D, U) →
  (∀ q, document_permissions db !! k = Some q →
        DocumentPermission.document_id q = D ∧ DocumentPermission.user_id q = U) →
  permissions_of (with_document_permissions (<[k := p]>) db) D' U'
  = permissions_of db D' U'.
Proof.
  intros HD HU Hne Hold. unfold permissions_of. cbn [document_permissions
    with_document_permissions].
  rewrite map_filter_insert_False by (simpl; intros [? ?]; apply Hne; congruence).
  rewrite map_filter_delete. apply delete_id.
  apply map_lookup_filter_None. right. intros q Hq [Hd Hu]. simpl in *.
  destruct (Hold q Hq). apply Hne. congruence.
Qed.

Lemma get_document_by_id_ok db D include_archived :
  ∃ r, get_document_by_id D include_archived db = (Ok r, db).
Proof.
  unfold get_document_by_id, execute.
  destruct (select_by_id (documents db) D) as [[k d]|]; [|by eexists].
  destruct (_ && _); by eexists.
Qed.

Lemma grant_permission_stores now new_id db D U role granted_by :
  permissions_unique db → document_permissions db !! new_id = None →
  let p := DocumentPermission.mk D U role now (Some granted_by) in
  ∃ k, grant_permission now new_id D U role granted_by db
       = (Ok (k, p), with_document_permissions (<[k := p]>) db)
       ∧ permissions_of (with_document_permissions (<[k := p]>) db) D U = {[ k := p ]}
       ∧ get_user_role D U (with_document_permissions (<[k := p]>) db)
         = (Ok (Some role), with_document_permissions (<[k := p]>) db)
       ∧ (∀ D' U', (D', U') ≠ (D, U) →
            permissions_of (with_document_permissions (<[k := p]>) db) D' U'
            = permissions_of db D' U')
       ∧ permissions_unique (with_document_permissions (<[k := p]>) db).
Proof.
  intros Huniq Hpk p.
  destruct (get_user_permission_cases db D U)
    as [[e E]|[[E Hno]|(k & q & E & Hk & HD & HU & Hof)]].
  - destruct (get_user_permission_unique db D U Huniq) as [r Hr]. congruence.
  - exists new_id.
    assert (permissions_of (with_document_permissions (<[new_id := p]>) db) D U
            = {[ new_id := p ]}) as Hof'.
    { unfold permissions_of. cbn [document_permissions with_document_permissions].
      rewrite map_filter_insert_True by done.
      rewrite (proj2 (filter_empty_iff _ (document_permissions db)));
        [by rewrite insert_empty|].
      intros k' q Hk'. simpl. by apply (Hno k'). }
    split; [|split; [done|split; [|split]]].
    + unfold grant_permission, commit. bind_step. rewrite E. cbn beta iota.
      fold p. by rewrite (add_document_permission_ok db new_id p Hpk).
    + by apply (get_user_role_of_permissions _ D U new_id p).
    + intros D' U' Hne. apply (permissions_of_insert_other db D U); try done.
      intros q Hq. congruence.
    + by apply permissions_unique_add.
  - exists k.
    assert (DocumentPermission.mk (DocumentPermission.document_id q)
              (DocumentPermission.user_id q) role now (Some granted_by) = p) as Hp
      by (by rewrite HD, HU).
    assert (permissions_of (with_document_permissions (<[k := p]>) db) D U
            = {[ k := p ]}) as Hof'.
    { unfold permissions_of in *. cbn [document_permissions with_document_permissions].
      rewrite map_filter_insert_True by done. rewrite Hof.
      apply insert_singleton_eq. }
    split; [|split; [done|split; [|split]]].
    + unfold grant_permission, commit. bind_step. rewrite E. cbn beta iota.
      by rewrite Hp.
    + by apply (get_user_role_of_permissions _ D U k p).
    + intros D' U' Hne. apply (permissions_of_insert_other db D U); try done.
      intros q' Hq'. rewrite Hk in Hq'. by injection Hq' as <-.
    + by apply (permissions_unique_set db k q p).
Qed.

(** X3: [grant_permission] is an upsert. For a document, a user and a
    granting user that are rows of their tables (the rows the foreign
    keys of a permission refer to), on a table with one row per pair at
    most, it stores the role under the row of the pair, a new row when
    there was none, so that the pair has exactly one row, [get_user_role]
    returns the granted role, the rows of every other pair are as before
    and the pairs are still unique. *)
Theorem grant_permission_upsert now new_id db D U role granted_by :
  is_Some (documents db !! D) → is_Some (users db !! U) →
  is_Some (users db !! granted_by) →
  permissions_unique db → document_permissions db !! new_id = None →
  let p := DocumentPermission.mk D U role now (Some granted_by) in
  ∃ k, grant_permission now new_id D U role granted_by db
       = (Ok (k, p), with_document_permissions (<[k := p]>) db)
       ∧ permissions_of (with_document_permissions (<[k := p]>) db) D U = {[ k := p ]}
       ∧ get_user_role D U (with_document_permissions (<[k := p]>) db)
         = (Ok (Some role), with_document_permissions (<[k := p]>) db)
       ∧ (∀ D' U', (D', U') ≠ (D, U) →
            permissions_of (with_document_permissions (<[k := p]>) db) D' U'
            = permissions_of db D' U')
       ∧ permissions_unique (with_document_permissions (<[k := p]>) db).
Proof. intros _ _ _. apply grant_permission_stores. Qed.

Lemma permissions_unique_public_db : permissions_unique Examples.public_db.
Proof.
  intros k1 k2 p1 p2 H1 H2 _ _.
  change (document_permissions Examples.public_db) with
    ({[ 10%N := DocumentPermission.mk 1 Examples.alice.1 OWNER 1000 (Some Examples.alice.1) ]}
       : gmap N DocumentPermission.t) in H1, H2.
  apply lookup_singleton_Some in H1 as [<- _].
  by apply lookup_singleton_Some in H2 as [<- _].
Qed.

(** Bob is granted VIEWER on Alice's document. *)
Lemma grant_permission_upsert_witness :
  let p := DocumentPermission.mk 1 Examples.bob.1 VIEWER 2000 (Some Examples.alice.1) in
  ∃ k, grant_permission 2000 11 1 Examples.bob.1 VIEWER Examples.alice.1 Examples.public_db
       = (Ok (k, p), with_document_permissions (<[k := p]>) Examples.public_db)
       ∧ permissions_of (with_document_permissions (<[k := p]>) Examples.public_db)
           1 Examples.bob.1 = {[ k := p ]}
       ∧ get_user_role 1 Examples.bob.1
           (with_document_permissions (<[k := p]>) Examples.public_db)
         = (Ok (Some VIEWER), with_document_permissions (<[k := p]>) Examples.public_db)
       ∧ (∀ D' U', (D', U') ≠ (1%N, Examples.bob.1) →
            permissions_of (with_document_permissions (<[k := p]>) Examples.public_db) D' U'
            = permissions_of Examples.public_db D' U')
       ∧ permissions_unique (with_document_permissions (<[k := p]>) Examples.public_db).
Proof.
  apply (grant_permission_upsert 2000 11 Examples.public_db 1 Examples.bob.1 VIEWER
           Examples.alice.1);
    [by eexists | by eexists | by eexists
    | apply permissions_unique_public_db | reflexivity].
Defined.

(** X4: [revoke_permission] on a user who holds a role below OWNER deletes
    the row of the pair and returns [True]; afterwards the user has no role
    on the document, fails the check for EDITOR, and every other row of
    the table is as before. On a user without a row it returns [False]
    and changes nothing. *)
Theorem revoke_permission_member db D U :
  (∀ role, (get_user_role D U db).1 = Ok (Some role) → role ≠ OWNER →
     ∃ k, revoke_permission D U db = (Ok true, with_document_permissions (delete k) db)
          ∧ get_user_role D U (with_document_permissions (delete k) db)
            = (Ok None, with_document_permissions (delete k) db)
          ∧ check_access D U EDITOR (with_document_permissions (delete k) db)
            = (Ok false, with_document_permissions (delete k) db)
          ∧ ∀ k', k' ≠ k →
              document_permissions (with_document_permissions (delete k) db) !! k'
              = document_permissions db !! k')
  ∧ ((get_user_role D U db).1 = Ok None → revoke_permission D U db = (Ok false, db)).
Proof.
  split.
  - intros role Hrole Hne.
    destruct (get_user_permission_cases db D U)
      as [[e E]|[[E Hno]|(k & p & E & Hk & HD & HU & Hof)]].
    + unfold get_user_role in Hrole. revert Hrole. bind_step. by rewrite E.
    + unfold get_user_role in Hrole. revert Hrole. bind_step. by rewrite E.
    + assert (DocumentPermission.role p = role) as Hr.
      { unfold get_user_role in Hrole. revert Hrole. bind_step. rewrite E.
        by intros [= ->]. }
      exists k.
      assert (no_permission (with_document_permissions (delete k) db) D U) as Hno'.
      { intros k' q Hk' [Hd Hu]. simpl in Hk'.
        apply lookup_delete_Some in Hk' as [Hne' Hk'].
        assert ((permissions_of db D U) !! k' = Some q) as Hin
          by (by apply map_lookup_filter_Some).
        rewrite Hof in Hin. apply lookup_singleton_Some in Hin as [? _]. congruence. }
      split; [|split; [|split]].
      * unfold revoke_permission, commit. bind_step. rewrite E. cbn beta iota.
        rewrite bool_decide_eq_false_2 by congruence. done.
      * unfold get_user_role. bind_step.
        by rewrite (get_user_permission_no_permission _ _ _ Hno').
      * rewrite (check_access_no_role _ _ _ _ Hno').
        destruct (get_document_by_id_ok (with_document_permissions (delete k) db) D false)
          as [[[? ?]|] ->]; cbn [fst]; [|done].
        by rewrite andb_false_r.
      * intros k' Hne'. simpl. by apply lookup_delete_ne.
  - intros Hrole. unfold revoke_permission. bind_step.
    destruct (get_user_permission_cases db D U)
      as [[e E]|[[E Hno]|(k & p & E & _)]]; rewrite E; [| done |].
    + unfold get_user_role in Hrole. revert Hrole. bind_step. by rewrite E.
    + unfold get_user_role in Hrole. revert Hrole. bind_step. by rewrite E.
Qed.

(** Bob, granted VIEWER and then revoked; Carol never had a row. *)
Lemma revoke_permission_member_witness :
  (∃ k, revoke_permission 1 Examples.bob.1 Examples.granted_db
        = (Ok true, with_document_permissions (delete k) Examples.granted_db)
        ∧ get_user_role 1 Examples.bob.1
            (with_document_permissions (delete k) Examples.granted_db)
          = (Ok None, with_document_permissions (delete k) Examples.granted_db))
  ∧ revoke_permission 1 Examples.carol.1 Examples.granted_db
    = (Ok false, Examples.granted_db).
Proof.
  split.
  - destruct (revoke_permission_member Examples.granted_db 1 Examples.bob.1) as [Hmember _].
    destruct (Hmember VIEWER) as (k & Hrev & Hrole & _); [reflexivity | discriminate |].
    by exists k.
  - destruct (revoke_permission_member Examples.granted_db 1 Examples.carol.1) as [_ Hnone].
    apply Hnone. reflexivity.
Defined.
End permissions.

(** ** Documents and their state *)

Section documents.
Import DocumentService.

Lemma get_document_by_id_inv db D include_archived k d :
  (get_document_by_id D include_archived db).1 = Ok (Some (k, d)) →
  k = D ∧ documents db !! D = Some d
  ∧ (include_archived = false → Document.is_archived d = false).
Proof.
  unfold get_document_by_id, execute, select_by_id. cbn [fst].
  destruct (documents db !! D) as [d0|] eqn:HD; [|discriminate]. simpl.
  destruct include_archived; simpl.
  - intros [= <- <-]. by repeat split.
  - case_bool_decide as Ha; simpl; [|discriminate]. intros [= <- <-]. by repeat split.
Qed.

Lemma update_crdt_state_live now db D d s expected :
  documents db !! D = Some d → Document.is_archived d = false →
  update_crdt_state now D s expected db
  = if match expected with
       | Some v => bool_decide (Document.crdt_version d = v)
       | None => true
       end
    then
      if bool_decide (INTEGER_MIN ≤ Document.crdt_version d + 1 ≤ INTEGER_MAX)%Z
      then (Ok (Some (D, written now s d)), with_documents (<[D := written now s d]>) db)
      else (Raise (DBAPIError "integer out of range"), db)
    else (Ok None, db).
Proof.
  intros HD Ha. unfold update_crdt_state. bind_step.
  rewrite (get_document_by_id_live _ _ _ HD Ha).
  assert (commit (update_document_version D (written now s d)) db
          = if bool_decide (INTEGER_MIN ≤ Document.crdt_version d + 1 ≤ INTEGER_MAX)%Z
            then (Ok tt, with_documents (<[D := written now s d]>) db)
            else (Raise (DBAPIError "integer out of range"), db)) as Hcommit.
  { unfold commit, update_document_version, written. cbn [Document.crdt_version].
    by destruct (bool_decide _). }
  fold (written now s d).
  destruct expected as [v|].
  - destruct (bool_decide (Document.crdt_version d = v)); cbn [negb]; [|done].
    rewrite Hcommit. by destruct (bool_decide _).
  - rewrite Hcommit. by destruct (bool_decide _).
Qed.

(** X5: what [update_crdt_state] has written is what [get_crdt_state]
    reads: after a write that was applied, the read returns the written
    bytes and the version the write returned. *)
Theorem crdt_state_write_read now db D s expected k d' db' :
  update_crdt_state now D s expected db = (Ok (Some (k, d')), db') →
  k = D
  ∧ Document.crdt_state d' = Some s
  ∧ get_crdt_state D db' = (Ok (Some (Some s, Document.crdt_version d')), db').
Proof.
  unfold update_crdt_state. rewrite bind_read_only by apply read_only_get_document_by_id.
  destruct (get_document_by_id D false db).1 as [[[k0 d]|]|e] eqn:E; try discriminate.
  destruct (get_document_by_id_inv _ _ _ _ _ E) as (-> & HD & Ha).
  destruct (match expected with Some v => _ | None => _ end); [discriminate|].
  unfold commit, update_document_version. bind_step.
  destruct (bool_decide _); [|discriminate].
  intros [= <- <- <-]. repeat split.
  unfold get_crdt_state. bind_step.
  rewrite (get_document_by_id_live _ D (written now s d)); [done| |by apply Ha].
  simpl. apply lookup_insert_eq.
Qed.

Lemma crdt_state_write_read_witness :
  get_crdt_state 1
    (update_crdt_state 2000 1 Examples.abc (Some 0%Z) Examples.public_db).2
  = (Ok (Some (Some Examples.abc, 1%Z)),
     (update_crdt_state 2000 1 Examples.abc (Some 0%Z) Examples.public_db).2).
Proof.
  destruct (crdt_state_write_read 2000 Examples.public_db 1 Examples.abc (Some 0%Z) 1%N
              (written 2000 Examples.abc Examples.public_doc)
              (update_crdt_state 2000 1 Examples.abc (Some 0%Z) Examples.public_db).2)
    as (_ & _ & Hread); [reflexivity | exact Hread].
Defined.

(** X6: the version of a document counts the writes that were applied to
    it. After any sequence of writes to a document that is not archived,
    whose version is a value of the 32-bit column, the version is the one
    before plus the number of writes applied, so it never goes down, and
    it stays a value of the column; of writes without an expected version
    as many are applied as there is room below 2147483647, so all of them
    when the version before plus their number does not exceed it; the
    owner and the flags of the document are as before. *)
Theorem write_all_counts D writes db d :
  documents db !! D = Some d → Document.is_archived d = false →
  (INTEGER_MIN ≤ Document.crdt_version d ≤ INTEGER_MAX)%Z →
  ∃ d', documents (write_all D writes db).2 !! D = Some d'
        ∧ Document.crdt_version d'
          = (Document.crdt_version d + (write_all D writes db).1)%Z
        ∧ (0 <= (write_all D writes db).1 <= Z.of_nat (length writes))%Z
        ∧ (Document.crdt_version d' <= 2147483647)%Z
        ∧ (Forall (λ w, w.2 = None) writes →
           (write_all D writes db).1
           = Z.min (Z.of_nat (length writes)) (2147483647 - Document.crdt_version d))
        ∧ (Forall (λ w, w.2 = None) writes →
           (Document.crdt_version d + Z.of_nat (length writes) <= 2147483647)%Z →
           (write_all D writes db).1 = Z.of_nat (length writes))
        ∧ Document.owner_id d' = Document.owner_id d
        ∧ Document.is_archived d' = false
        ∧ Document.is_public d' = Document.is_public d.
Proof.
  revert db d. induction writes as [|[[now s] expected] writes IH]; intros db d HD Ha Hr.
  - exists d. unfold INTEGER_MIN, INTEGER_MAX in Hr. simpl.
    split_and!; try done; try lia.
  - cbn [write_all]. rewrite (update_crdt_state_live now db D d s expected HD Ha).
    destruct (match expected with Some v => _ | None => _ end) eqn:Happlied.
    + case_bool_decide as Hfit.
      * destruct (IH (with_documents (<[D := written now s d]>) db) (written now s d))
          as (d' & HD' & Hv & Hn & Hmax & Hmin & Hall & Ho & Ha' & Hp);
          [simpl; apply lookup_insert_eq | done | done |].
        destruct (write_all D writes _) as [n db''] eqn:Hw. cbn [fst snd] in *.
        exists d'. simpl in Hv, Hmin, Hall. cbn [length]. rewrite Nat2Z.inj_succ.
        unfold INTEGER_MIN, INTEGER_MAX in *.
        split_and!; try done; try lia.
        -- intros [_ Htl]%Forall_cons. rewrite (Hmin Htl). lia.
        -- intros [_ Htl]%Forall_cons Hroom. rewrite (Hall Htl); lia.
      * destruct (IH db d HD Ha Hr)
          as (d' & HD' & Hv & Hn & Hmax & Hmin & Hall & Ho & Ha' & Hp).
        exists d'. cbn [length]. rewrite Nat2Z.inj_succ.
        unfold INTEGER_MIN, INTEGER_MAX in *.
        split_and!; try done; lia.
    + destruct (IH db d HD Ha Hr)
        as (d' & HD' & Hv & Hn & Hmax & Hmin & Hall & Ho & Ha' & Hp).
      exists d'. cbn [length]. rewrite Nat2Z.inj_succ.
      split_and!; try done; try lia.
      * intros [Hhd _]%Forall_cons. simpl in Hhd. by subst expected.
      * intros [Hhd _]%Forall_cons. simpl in Hhd. by subst expected.
Qed.

(** A stale write between two writes that apply. *)
Lemma write_all_counts_witness :
  let writes := [(2000%Z, Examples.abc, Some 0%Z); (3000%Z, Examples.xyz, Some 0%Z);
                 (4000%Z, Examples.xyz, None)] in
  ∃ d', documents (write_all 1 writes Examples.public_db).2 !! 1%N = Some d'
        ∧ Document.crdt_version d'
          = (Document.crdt_version Examples.public_doc
             + (write_all 1 writes Examples.public_db).1)%Z
        ∧ (write_all 1 writes Examples.public_db).1 = 2%Z.
Proof.
  intros writes.
  destruct (write_all_counts 1 writes Examples.public_db Examples.public_doc)
    as (d' & HD' & Hv & _); [reflexivity | reflexivity | by vm_compute |].
  exists d'. repeat split; [exact HD' | exact Hv].
Defined.

(** X7: [create_document] makes its caller the owner. With a free
    document id and a free permission id the document is stored at version
    0 with no state and not archived; the creator holds OWNER and passes
    [check_access] for every role; anybody else without a row passes it
    for VIEWER exactly when the document was created public. *)
Theorem create_document_owner now new_id new_perm_id owner title description is_public db :
  documents db !! new_id = None → document_permissions db !! new_perm_id = None →
  (∀ U, no_permission db new_id U) →
  let d := Document.mk owner title description None 0 false is_public None in
  let p := DocumentPermission.mk new_id owner OWNER now (Some owner) in
  let db' := with_document_permissions (<[new_perm_id := p]>)
               (with_documents (<[new_id := d]>) db) in
  create_document now new_id new_perm_id owner title description is_public db
  = (Ok (new_id, d), db')
  ∧ get_user_role new_id owner db' = (Ok (Some OWNER), db')
  ∧ (∀ required, check_access new_id owner required db' = (Ok true, db'))
  ∧ get_crdt_state new_id db' = (Ok (Some (None, 0%Z)), db')
  ∧ (∀ U required, U ≠ owner →
       check_access new_id U required db'
       = (Ok (is_public && bool_decide (required = VIEWER)), db')).
Proof.
  intros Hpk Hppk Hno d p db'.
  assert (documents db' !! new_id = Some d) as HD by (simpl; apply lookup_insert_eq).
  assert (permissions_of db' new_id owner = {[ new_perm_id := p ]}) as Hof.
  { unfold permissions_of. subst db'. cbn [document_permissions
      with_document_permissions with_documents].
    rewrite map_filter_insert_True by done.
    rewrite (proj2 (filter_empty_iff _ (document_permissions db)));
      [by rewrite insert_empty|].
    intros k q Hk. simpl. by apply (Hno owner k). }
  destruct (get_user_role_of_permissions db' new_id owner new_perm_id p Hof) as [Hperm Hrole].
  split; [|split; [done|split; [|split]]].
  - unfold create_document, commit, add_document. bind_step.
    rewrite (pk_free_true _ _ Hpk). unfold mbind, result_bind.
    fold d. fold p.
    rewrite (add_document_permission_ok (with_documents (<[new_id := d]>) db) new_perm_id p);
      [done|done|]. intros k q Hk. by apply (Hno owner k).
  - intros required. rewrite (check_access_role _ _ _ _ _ required Hperm).
    by destruct required.
  - unfold get_crdt_state. bind_step.
    by rewrite (get_document_by_id_live db' new_id d HD).
  - intros U required HU.
    assert (no_permission db' new_id U) as Hno'.
    { intros k q Hk [Hd Hu]. subst db'. simpl in Hk.
      apply lookup_insert_Some in Hk as [[_ <-]|[_ Hk]]; [by simpl in Hu|].
      by apply (Hno U k q). }
    rewrite (check_access_no_role _ _ _ _ Hno').
    by rewrite (get_document_by_id_live db' new_id d HD).
Qed.

Lemma create_document_owner_witness :
  get_user_role 1 Examples.alice.1 Examples.public_db
  = (Ok (Some OWNER), Examples.public_db)
  ∧ (∀ required, check_access 1 Examples.alice.1 required Examples.public_db
                 = (Ok true, Examples.public_db))
  ∧ get_crdt_state 1 Examples.public_db = (Ok (Some (None, 0%Z)), Examples.public_db).
Proof.
  destruct (create_document_owner 1000 1 10 Examples.alice.1 "Untitled Document" None true
              (Examples.with_users empty_db))
    as (_ & Hrole & Hall & Hstate & _); [reflexivity | reflexivity | |].
  - intros U k q Hk. simpl in Hk. by rewrite lookup_empty in Hk.
  - split_and!; [exact Hrole | exact Hall | exact Hstate].
Defined.
End documents.

(** ** The document routes *)

Section document_routes.
Import DocumentService.

Lemma get_user_role_Some db D U role :
  (get_user_role D U db).1 = Ok (Some role) →
  ∃ k p, get_user_permission D U db = (Ok (Some (k, p)), db)
         ∧ DocumentPermission.role p = role
         ∧ document_permissions db !! k = Some p
         ∧ DocumentPermission.document_id p = D ∧ DocumentPermission.user_id p = U.
Proof.
  intros Hrole.
  destruct (get_user_permission_cases db D U)
    as [[e E]|[[E Hno]|(k & p & E & Hk & HD & HU & _)]];
    unfold get_user_role in Hrole; revert Hrole; bind_step; rewrite E; try done.
  intros [= <-]. by exists k, p.
Qed.

Lemma DocumentAccessChecker_role db D u required role :
  (get_user_role D u.1 db).1 = Ok (Some role) →
  DocumentsRouter.DocumentAccessChecker required D u db
  = if (rank role >=? rank required)%Z then (Ok tt, db)
    else (Raise (HTTPException HTTP_403_FORBIDDEN
                   ("Insufficient permissions. Required role: "
                    +:+ DocumentRole_value required)), db).
Proof.
  intros Hrole. destruct (get_user_role_Some _ _ _ _ Hrole) as (k & p & E & <- & _).
  unfold DocumentsRouter.DocumentAccessChecker. bind_step.
  rewrite (check_access_role _ _ _ _ _ required E).
  by destruct (_ >=? _)%Z.
Qed.

(** X8: the permission route lets an owner overwrite their own OWNER
    role. Called by the owner of [D] for their own user id with EDITOR or
    VIEWER, [grant_permission] succeeds and stores that role in the owner's
    row; afterwards the caller is refused by [require_owner]. *)
Theorem grant_permission_route_on_owner now new_id db D owner role :
  permissions_unique db → document_permissions db !! new_id = None →
  (get_user_role D owner.1 db).1 = Ok (Some OWNER) → role ≠ OWNER →
  let p := DocumentPermission.mk D owner.1 role now (Some owner.1) in
  ∃ k, DocumentsRouter.grant_permission now new_id D
         (DocumentsRouter.Build_DocumentPermissionCreate owner.1 role) owner db
       = (Ok (k, p), with_document_permissions (<[k := p]>) db)
       ∧ get_user_role D owner.1 (with_document_permissions (<[k := p]>) db)
         = (Ok (Some role), with_document_permissions (<[k := p]>) db)
       ∧ DocumentsRouter.require_owner D owner (with_document_permissions (<[k := p]>) db)
         = (Raise (HTTPException HTTP_403_FORBIDDEN
                     "Insufficient permissions. Required role: OWNER"),
            with_document_permissions (<[k := p]>) db).
Proof.
  intros Huniq Hpk Howner Hrole p.
  destruct (grant_permission_stores now new_id db D owner.1 role owner.1 Huniq Hpk)
    as (k & Hgrant & _ & Hafter & _).
  exists k. fold p in Hgrant, Hafter. split; [|split; [done|]].
  - unfold DocumentsRouter.grant_permission.
    rewrite bind_read_only by apply read_only_DocumentAccessChecker.
    unfold DocumentsRouter.require_owner.
    rewrite (DocumentAccessChecker_role _ _ _ OWNER OWNER Howner). cbn [fst].
    cbn [DocumentsRouter.role DocumentsRouter.user_id].
    by rewrite bool_decide_eq_false_2.
  - unfold DocumentsRouter.require_owner.
    rewrite (DocumentAccessChecker_role _ _ _ OWNER role); [|by rewrite Hafter].
    by destruct role.
Qed.

(** Alice makes herself a VIEWER of her own document. *)
Lemma grant_permission_route_on_owner_witness :
  let p := DocumentPermission.mk 1 Examples.alice.1 VIEWER 2000 (Some Examples.alice.1) in
  ∃ k, DocumentsRouter.grant_permission 2000 11 1
         (DocumentsRouter.Build_DocumentPermissionCreate Examples.alice.1 VIEWER)
         Examples.alice Examples.public_db
       = (Ok (k, p), with_document_permissions (<[k := p]>) Examples.public_db)
       ∧ get_user_role 1 Examples.alice.1
           (with_document_permissions (<[k := p]>) Examples.public_db)
         = (Ok (Some VIEWER), with_document_permissions (<[k := p]>) Examples.public_db)
       ∧ DocumentsRouter.require_owner 1 Examples.alice
           (with_document_permissions (<[k := p]>) Examples.public_db)
         = (Raise (HTTPException HTTP_403_FORBIDDEN
                     "Insufficient permissions. Required role: OWNER"),
            with_document_permissions (<[k := p]>) Examples.public_db).
Proof.
  apply (grant_permission_route_on_owner 2000 11 Examples.public_db 1 Examples.alice VIEWER);
    [apply permissions_unique_public_db | reflexivity | reflexivity | discriminate].
Defined.

(** X9: the update route cannot reach an archived document. On an
    archived document every [update_document] request raises and changes
    nothing (for a caller with EDITOR or OWNER the error is the 404), while
    on a live document an editor's request with [is_archived = true]
    archives it: through this route archiving cannot be undone. *)
Theorem update_document_route_archived db D d updates current_user :
  documents db !! D = Some d →
  (Document.is_archived d = true →
     (∃ e, DocumentsRouter.update_document D updates current_user db = (Raise e, db))
     ∧ (∀ role, (get_user_role D current_user.1 db).1 = Ok (Some role) →
          (rank EDITOR <= rank role)%Z →
          DocumentsRouter.update_document D updates current_user db
          = (Raise (HTTPException HTTP_404_NOT_FOUND "Document not found"), db)))
  ∧ (Document.is_archived d = false →
     ∀ role, (get_user_role D current_user.1 db).1 = Ok (Some role) →
       (rank EDITOR <= rank role)%Z →
       DocumentsRouter.is_archived updates = Some true →
       ∃ d', DocumentsRouter.update_document D updates current_user db
             = (Ok (D, d'), with_documents (<[D := d']>) db)
             ∧ Document.is_archived d' = true
             ∧ Document.crdt_version d' = Document.crdt_version d
             ∧ Document.owner_id d' = Document.owner_id d).
Proof.
  intros HD. split.
  - intros Ha.
    assert (∀ role, (get_user_role D current_user.1 db).1 = Ok (Some role) →
              (rank EDITOR <= rank role)%Z →
              DocumentsRouter.update_document D updates current_user db
              = (Raise (HTTPException HTTP_404_NOT_FOUND "Document not found"), db)) as H404.
    { intros role Hrole Hrank. unfold DocumentsRouter.update_document.
      rewrite bind_read_only by apply read_only_DocumentAccessChecker.
      unfold DocumentsRouter.require_editor.
      rewrite (DocumentAccessChecker_role _ _ _ EDITOR role Hrole).
      rewrite (proj2 (Z.geb_le _ _)) by done. cbn [fst].
      rewrite bind_read_only by apply read_only_get_document_by_id.
      by rewrite (get_document_by_id_archived _ _ _ HD Ha). }
    split; [|exact H404].
    unfold DocumentsRouter.update_document.
    rewrite bind_read_only by apply read_only_DocumentAccessChecker.
    destruct (DocumentsRouter.require_editor D current_user db).1 as [[]|e]; [|by eexists].
    rewrite bind_read_only by apply read_only_get_document_by_id.
    rewrite (get_document_by_id_archived _ _ _ HD Ha). by eexists.
  - intros Ha role Hrole Hrank Hupd. eexists.
    unfold DocumentsRouter.update_document.
    rewrite bind_read_only by apply read_only_DocumentAccessChecker.
    unfold DocumentsRouter.require_editor.
    rewrite (DocumentAccessChecker_role _ _ _ EDITOR role Hrole).
    rewrite (proj2 (Z.geb_le _ _)) by done. cbn [fst].
    rewrite bind_read_only by apply read_only_get_document_by_id.
    rewrite (get_document_by_id_live _ _ _ HD Ha). cbn [fst].
    unfold update_document, commit. bind_step. cbn [fst snd].
    split; [reflexivity|]. simpl. by rewrite Hupd.
Qed.

(** Alice archives her document and cannot rename it afterwards. *)
Lemma update_document_route_archived_witness :
  (∃ d', DocumentsRouter.update_document 1
           (DocumentsRouter.Build_DocumentUpdate None None (Some true) None)
           Examples.alice Examples.public_db
         = (Ok (1%N, d'), with_documents (<[1%N := d']>) Examples.public_db)
         ∧ Document.is_archived d' = true
         ∧ Document.crdt_version d' = Document.crdt_version Examples.public_doc
         ∧ Document.owner_id d' = Document.owner_id Examples.public_doc)
  ∧ DocumentsRouter.update_document 1
      (DocumentsRouter.Build_DocumentUpdate (Some "Renamed") None (Some false) None)
      Examples.alice Examples.archived_db
    = (Raise (HTTPException HTTP_404_NOT_FOUND "Document not found"), Examples.archived_db).
Proof.
  split.
  - destruct (update_document_route_archived Examples.public_db 1 Examples.public_doc
                (DocumentsRouter.Build_DocumentUpdate None None (Some true) None)
                Examples.alice) as [_ Hlive]; [reflexivity|].
    apply (Hlive eq_refl OWNER); [reflexivity | by vm_compute | reflexivity].
  - destruct (update_document_route_archived Examples.archived_db 1 Examples.archived_doc
                (DocumentsRouter.Build_DocumentUpdate (Some "Renamed") None (Some false) None)
                Examples.alice) as [Harchived _]; [reflexivity|].
    destruct (Harchived eq_refl) as [_ H404].
    apply (H404 OWNER); [reflexivity | by vm_compute].
Defined.

(** X10: [get_document] does not look at [is_archived]. A caller without a
    token gets every public document of the table, archived or not, with
    all the permission rows of the document, although [check_access]
    refuses the same archived document to every user without a row. *)
Theorem get_document_public db D d :
  documents db !! D = Some d → Document.is_public d = true →
  DocumentsRouter.get_document D None db
  = (Ok (DocumentsRouter.Build_DocumentWithPermissions (D, d)
           (filter (λ kv, DocumentPermission.document_id kv.2 = D) (document_permissions db))
           None), db)
  ∧ (Document.is_archived d = true →
     ∀ U, no_permission db D U → check_access D U VIEWER db = (Ok false, db)).
Proof.
  intros HD Hp. split.
  - unfold DocumentsRouter.get_document, get_document_with_permissions, execute,
      select_by_id. bind_step. rewrite HD. cbn [fmap option_fmap option_map].
    cbn [fst snd]. by rewrite Hp.
  - intros Ha U Hno. by destruct (check_access_archived db D d U HD Ha Hp Hno) as (_ & ? & _).
Qed.

Lemma get_document_public_witness :
  DocumentsRouter.get_document 1 None Examples.archived_db
  = (Ok (DocumentsRouter.Build_DocumentWithPermissions (1%N, Examples.archived_doc)
           (filter (λ kv, DocumentPermission.document_id kv.2 = 1%N)
                   (document_permissions Examples.archived_db))
           None), Examples.archived_db)
  ∧ check_access 1 Examples.bob.1 VIEWER Examples.archived_db
    = (Ok false, Examples.archived_db).
Proof.
  destruct (get_document_public Examples.archived_db 1 Examples.archived_doc)
    as [Hget Hcheck]; [reflexivity | reflexivity |].
  split; [exact Hget|]. apply (Hcheck eq_refl). apply no_permission_bob_archived_db.
Defined.

(** X11: a permanent delete takes the document, its permissions and its
    invitations with it. When the owner deletes [D] permanently (archived
    or not), afterwards [check_access] on [D] is false for every user and
    role, [get_document] answers 404, no invitation to [D] is left, and the
    rows of the other documents are as before. *)
Theorem delete_document_route_permanent db D d owner :
  documents db !! D = Some d →
  (get_user_role D owner.1 db).1 = Ok (Some OWNER) →
  DocumentsRouter.delete_document D true owner db
  = (Ok "Document deleted permanently", without_document D db)
  ∧ (∀ U required, check_access D U required (without_document D db)
                   = (Ok false, without_document D db))
  ∧ (∀ user, DocumentsRouter.get_document D user (without_document D db)
             = (Raise (HTTPException HTTP_404_NOT_FOUND "Document not found"),
                without_document D db))
  ∧ (∀ k i, invitations (without_document D db) !! k = Some i →
            Invitation.document_id i ≠ D ∧ invitations db !! k = Some i)
  ∧ (∀ k i, invitations db !! k = Some i → Invitation.document_id i ≠ D →
            invitations (without_document D db) !! k = Some i)
  ∧ (∀ k p, document_permissions db !! k = Some p →
            DocumentPermission.document_id p ≠ D →
            document_permissions (without_document D db) !! k = Some p)
  ∧ (∀ D', D' ≠ D → documents (without_document D db) !! D' = documents db !! D').
Proof.
  intros HD Howner.
  assert (∀ U, no_permission (without_document D db) D U) as Hno.
  { intros U k p Hk [Hd _]. simpl in Hk.
    by apply map_lookup_filter_Some in Hk as [_ Hne]. }
  assert (documents (without_document D db) !! D = None) as Hgone
    by (simpl; apply lookup_delete_eq).
  split_and!.
  - unfold DocumentsRouter.delete_document.
    rewrite bind_read_only by apply read_only_DocumentAccessChecker.
    unfold DocumentsRouter.require_owner.
    rewrite (DocumentAccessChecker_role _ _ _ OWNER OWNER Howner). cbn [fst].
    rewrite bind_read_only by apply read_only_get_document_by_id.
    unfold get_document_by_id at 1, execute, select_by_id. rewrite HD. cbn [fst fmap
      option_fmap option_map negb andb].
    unfold delete_document, commit. bind_step. done.
  - intros U required. rewrite (check_access_no_role _ _ _ _ (Hno U)).
    by rewrite (get_document_by_id_missing _ _ Hgone).
  - intros user. unfold DocumentsRouter.get_document, get_document_with_permissions,
      execute, select_by_id. bind_step. by rewrite Hgone.
  - intros k i Hk. simpl in Hk. by apply map_lookup_filter_Some in Hk as [Hk Hne].
  - intros k i Hk Hne. simpl. by apply map_lookup_filter_Some.
  - intros k p Hk Hne. simpl. by apply map_lookup_filter_Some.
  - intros D' Hne. simpl. by apply lookup_delete_ne.
Qed.

Lemma delete_document_route_permanent_witness :
  DocumentsRouter.delete_document 1 true Examples.alice Examples.invited_db
  = (Ok "Document deleted permanently", without_document 1 Examples.invited_db)
  ∧ (∀ U required, check_access 1 U required (without_document 1 Examples.invited_db)
                   = (Ok false, without_document 1 Examples.invited_db))
  ∧ invitations (without_document 1 Examples.invited_db) !! 20%N = None.
Proof.
  destruct (delete_document_route_permanent Examples.invited_db 1 Examples.public_doc
              Examples.alice) as (Hdel & Hacc & _); [reflexivity | reflexivity |].
  split_and!; [exact Hdel | exact Hacc | reflexivity].
Defined.
End document_routes.

(** ** The invitation routes and the sweep *)

Section invitation_routes.
Import DocumentService InvitationService.

Lemma respond_to_invitation_missing now new_id db k accept current_user :
  invitations db !! k = None →
  InvitationsRouter.respond_to_invitation now new_id k accept current_user db
  = (Raise (HTTPException HTTP_404_NOT_FOUND "Invitation not found"), db).
Proof.
  intros Hk. unfold InvitationsRouter.respond_to_invitation, get_invitation_by_id,
    execute, select_by_id. bind_step. by rewrite Hk.
Qed.

(** X12: only the inviter cancels, and only while the invitation is
    PENDING. [cancel_invitation] by anybody else is refused with 403, by
    the inviter on a resolved invitation with 400, both without a change;
    by the inviter on a PENDING invitation it deletes the row and nothing
    else, after which every respond on it answers 404. *)
Theorem cancel_invitation_route db k i current_user :
  invitations db !! k = Some i →
  (Invitation.invited_by_id i ≠ current_user.1 →
     InvitationsRouter.cancel_invitation k current_user db
     = (Raise (HTTPException HTTP_403_FORBIDDEN
                 "Only the inviter can cancel the invitation"), db))
  ∧ (Invitation.invited_by_id i = current_user.1 → Invitation.status i ≠ PENDING →
     InvitationsRouter.cancel_invitation k current_user db
     = (Raise (HTTPException HTTP_400_BAD_REQUEST
                 "Cannot cancel invitation. It may have already been responded to."), db))
  ∧ (Invitation.invited_by_id i = current_user.1 → Invitation.status i = PENDING →
     InvitationsRouter.cancel_invitation k current_user db
     = (Ok tt, with_invitations (delete k) db)
     ∧ ∀ now new_id accept user,
         InvitationsRouter.respond_to_invitation now new_id k accept user
           (with_invitations (delete k) db)
         = (Raise (HTTPException HTTP_404_NOT_FOUND "Invitation not found"),
            with_invitations (delete k) db)).
Proof.
  intros Hk.
  assert (InvitationsRouter.cancel_invitation k current_user db
          = if negb (bool_decide (Invitation.invited_by_id i = current_user.1))
            then (Raise (HTTPException HTTP_403_FORBIDDEN
                           "Only the inviter can cancel the invitation"), db)
            else if negb (bool_decide (Invitation.status i = PENDING))
            then (Raise (HTTPException HTTP_400_BAD_REQUEST
                   "Cannot cancel invitation. It may have already been responded to."), db)
            else (Ok tt, with_invitations (delete k) db)) as Hunfold.
  { unfold InvitationsRouter.cancel_invitation, get_invitation_by_id, execute,
      select_by_id. bind_step. rewrite Hk. cbn [fmap option_fmap option_map fst snd].
    destruct (negb (bool_decide (Invitation.invited_by_id i = _))); [done|].
    unfold cancel_invitation, commit. cbn [fst snd].
    by destruct (negb (bool_decide (Invitation.status i = PENDING))). }
  rewrite Hunfold. split_and!.
  - intros Hne. by rewrite bool_decide_eq_false_2.
  - intros He Hst. by rewrite bool_decide_eq_true_2, bool_decide_eq_false_2.
  - intros He Hst. rewrite !bool_decide_eq_true_2 by done. split; [done|].
    intros now new_id accept user. apply respond_to_invitation_missing.
    simpl. apply lookup_delete_eq.
Qed.

Lemma cancel_invitation_route_witness :
  InvitationsRouter.cancel_invitation 20 Examples.bob Examples.invited_db
  = (Raise (HTTPException HTTP_403_FORBIDDEN
              "Only the inviter can cancel the invitation"), Examples.invited_db)
  ∧ InvitationsRouter.cancel_invitation 20 Examples.alice Examples.accepted_db
    = (Raise (HTTPException HTTP_400_BAD_REQUEST
                "Cannot cancel invitation. It may have already been responded to."),
       Examples.accepted_db)
  ∧ InvitationsRouter.cancel_invitation 20 Examples.alice Examples.invited_db
    = (Ok tt, with_invitations (delete 20%N) Examples.invited_db).
Proof.
  split_and!.
  - destruct (cancel_invitation_route Examples.invited_db 20 Examples.editor_invitation
                Examples.bob) as (H403 & _); [reflexivity|].
    apply H403. discriminate.
  - destruct (cancel_invitation_route Examples.accepted_db 20
                (accepted 3000 Examples.bob.1 Examples.editor_invitation) Examples.alice)
      as (_ & H400 & _); [reflexivity|].
    apply H400; [reflexivity | discriminate].
  - destruct (cancel_invitation_route Examples.invited_db 20 Examples.editor_invitation
                Examples.alice) as (_ & _ & Hok); [reflexivity|].
    by destruct (Hok eq_refl eq_refl).
Defined.

Lemma with_invitations_same db :
  with_invitations (λ _, invitations db) db = db.
Proof. by destruct db. Qed.

(** X13: the sweep returns the number of PENDING invitations whose expiry
    has been reached and makes exactly those EXPIRED: afterwards no PENDING
    invitation has [expires_at <= now], every other invitation is as
    before, and a second sweep at the same or an earlier time finds
    nothing and changes nothing. *)
Theorem expire_old_invitations_sweep now db :
  let swept := expire_old_invitations now db in
  swept.1 = Ok (Z.of_nat (size (filter
                 (λ kv, Invitation.status kv.2 = PENDING
                        ∧ (Invitation.expires_at kv.2 <= now)%Z) (invitations db))))
  ∧ (∀ k i, invitations swept.2 !! k = Some i → Invitation.status i = PENDING →
            (now < Invitation.expires_at i)%Z)
  ∧ (∀ k i, invitations db !! k = Some i →
            Invitation.status i = PENDING → (Invitation.expires_at i <= now)%Z →
            invitations swept.2 !! k = Some (Invitation.set_status EXPIRED i))
  ∧ (∀ k i, invitations db !! k = Some i →
            Invitation.status i ≠ PENDING ∨ (now < Invitation.expires_at i)%Z →
            invitations swept.2 !! k = Some i)
  ∧ (∀ now', (now' <= now)%Z → expire_old_invitations now' swept.2 = (Ok 0%Z, swept.2)).
Proof.
  intros swept.
  assert (∀ k i, invitations swept.2 !! k = Some i → Invitation.status i = PENDING →
                 (now < Invitation.expires_at i)%Z) as Hleft.
  { intros k i Hk Hst. subst swept. rewrite expire_old_invitations_lookup in Hk.
    destruct (invitations db !! k) as [i0|]; [|done]. simpl in Hk.
    destruct (decide _) as [|Hn]; injection Hk as <-; [done|].
    destruct (decide (Invitation.expires_at i0 <= now)%Z); [|lia]. by destruct Hn. }
  split_and!.
  - subst swept. unfold expire_old_invitations, execute, commit. bind_step. cbn [fst snd].
    f_equal.
    exact (for_each_row_count
      (λ kv, Invitation.status kv.2 = PENDING ∧ (Invitation.expires_at kv.2 <= now)%Z)
      (Invitation.set_status EXPIRED) (invitations db)).
  - exact Hleft.
  - intros k i Hk Hst He. subst swept. rewrite expire_old_invitations_lookup, Hk. simpl.
    by rewrite decide_True.
  - intros k i Hk Hor. subst swept. rewrite expire_old_invitations_lookup, Hk. simpl.
    rewrite decide_False; [done|]. intros [Hst He]. destruct Hor; [done|lia].
  - intros now' Hle.
    assert (filter (λ kv : N * Invitation.t, Invitation.status kv.2 = PENDING
                      ∧ (Invitation.expires_at kv.2 <= now')%Z) (invitations swept.2)
            = ∅) as Hnone.
    { apply filter_empty_iff. intros k i Hk [Hst He]. simpl in *.
      specialize (Hleft k i Hk Hst). lia. }
    unfold expire_old_invitations, execute, commit. bind_step. cbn [fst snd].
    rewrite Hnone, map_to_list_empty. unfold for_each_row. cbn [foldl fst snd].
    by rewrite with_invitations_same.
Qed.

(** The sweep eight days after Alice's invitation of Bob. *)
Lemma expire_old_invitations_sweep_witness :
  let now := (2000 + timedelta_days 8)%Z in
  let swept := expire_old_invitations now Examples.invited_db in
  swept.1 = Ok 1%Z
  ∧ invitations swept.2 !! 20%N
    = Some (Invitation.set_status EXPIRED Examples.editor_invitation)
  ∧ expire_old_invitations now swept.2 = (Ok 0%Z, swept.2).
Proof.
  intros now swept.
  destruct (expire_old_invitations_sweep now Examples.invited_db)
    as (Hcount & _ & Hexpired & _ & Hagain).
  split_and!.
  - etrans; [exact Hcount | reflexivity].
  - apply Hexpired; [reflexivity | reflexivity | by vm_compute].
  - apply Hagain. reflexivity.
Defined.

(** X14: the sweep does not change what a user sees. The listing of
    pending invitations at time [now] is the same before and after a sweep
    made at [now] or earlier. *)
Theorem pending_listing_after_sweep now swept_at user_id user_email db :
  (swept_at <= now)%Z →
  (get_pending_invitations_for_user now user_id user_email
     (expire_old_invitations swept_at db).2).1
  = (get_pending_invitations_for_user now user_id user_email db).1.
Proof.
  intros Hle. unfold get_pending_invitations_for_user, execute. cbn [fst].
  f_equal. f_equal. apply map_eq. intros k.
  set (P := λ kv : N * Invitation.t,
         Invitation.status kv.2 = PENDING ∧ (Invitation.expires_at kv.2 > now)%Z
         ∧ (Invitation.invitee_id kv.2 = Some user_id
            ∨ Invitation.invitee_email kv.2 = user_email)).
  destruct (invitations db !! k) as [i|] eqn:Hk.
  - destruct (decide (Invitation.status i = PENDING ∧ (Invitation.expires_at i <= swept_at)%Z))
      as [[Hst He]|Hn].
    + transitivity (@None Invitation.t).
      * apply map_lookup_filter_None. right. intros i' Hk' (Hst' & _).
        rewrite expire_old_invitations_lookup, Hk in Hk'. simpl in Hk'.
        rewrite decide_True in Hk' by done. by injection Hk' as <-.
      * symmetry. apply map_lookup_filter_None. right. intros i' Hk' (_ & Hgt & _).
        rewrite Hk in Hk'. injection Hk' as <-. simpl in Hgt. lia.
    + assert (invitations (expire_old_invitations swept_at db).2 !! k = Some i) as Hk'.
      { rewrite expire_old_invitations_lookup, Hk. simpl. by rewrite decide_False. }
      destruct (decide (P (k, i))) as [HP|HP].
      * transitivity (Some i); [|symmetry]; by apply map_lookup_filter_Some.
      * transitivity (@None Invitation.t); [|symmetry];
          apply map_lookup_filter_None; right; intros i' Hi'; simplify_eq; done.
  - transitivity (@None Invitation.t); [|symmetry]; apply map_lookup_filter_None; left.
    + by rewrite expire_old_invitations_lookup, Hk.
    + done.
Qed.

Lemma pending_listing_after_sweep_witness :
  (get_pending_invitations_for_user 3000 Examples.bob.1 "bob@example.com"
     (expire_old_invitations 2500 Examples.invited_db).2).1
  = (get_pending_invitations_for_user 3000 Examples.bob.1 "bob@example.com"
       Examples.invited_db).1.
Proof. apply pending_listing_after_sweep. by vm_compute. Defined.
End invitation_routes.

Section invitation_creation.
Import DocumentService InvitationService.

Lemma users_by_email db E :
  users_email_unique db →
  (∀ u acct, users db !! u = Some acct → User.email acct = E →
     scalar_one_or_none (filter (λ kv, User.email kv.2 = E) (users db)) = Ok (Some (u, acct)))
  ∧ ((∀ u acct, users db !! u = Some acct → User.email acct ≠ E) →
     scalar_one_or_none (filter (λ kv, User.email kv.2 = E) (users db)) = Ok None).
Proof.
  intros Huniq. split.
  - intros u acct Hu He.
    rewrite (filter_singleton_of_unique _ _ u acct); [apply scalar_one_or_none_singleton|..];
      try done.
    intros u' acct' Hu' He'. simpl in He'. apply (Huniq u' u acct' acct); congruence.
  - intros Hnone. apply scalar_one_or_none_empty, filter_empty_iff.
    intros u acct Hu. simpl. by apply (Hnone u).
Qed.

(** X15: [create_invitation] never inserts a row. The object it builds
    for a pair without a PENDING invitation has no [token_hash], and the
    INSERT of such a row is refused whatever the table holds; so with
    unique user emails and no PENDING invitation for the pair the call
    raises [IntegrityError] and leaves the database as it was, for every
    role, message and expiry; and whatever the database, the invitation
    ids after the call are the ids before it. *)
Theorem create_invitation_insert_refused now new_id db D inviter E role message days :
  (∀ invitee_id db0,
     add_invitation new_id (new_invitation now D inviter E invitee_id role message days) db0
     = Raise (IntegrityError "invitations.token_hash is null"))
  ∧ (users_email_unique db → pending_invitations db D E = ∅ →
     create_invitation now new_id D inviter E role message days db
     = (Raise (IntegrityError "invitations.token_hash is null"), db))
  ∧ (∀ k, is_Some (invitations
                     (create_invitation now new_id D inviter E role message days db).2 !! k)
          ↔ is_Some (invitations db !! k)).
Proof.
  split; [done|]. split.
  - intros Huniq Hf. by apply create_invitation_new.
  - intros k.
    destruct (create_invitation_cases now new_id D inviter E role message days db)
      as [[e ->]|(k' & e & Hk' & _ & _ & ->)]; cbn [snd]; [done|].
    cbn [invitations with_invitations].
    destruct (decide (k = k')) as [->|Hne].
    + rewrite lookup_insert_eq, Hk'. split; eauto.
    + by rewrite lookup_insert_ne.
Qed.

(** Bob has an account, nobody has [dave@example.com]: either way the
    create raises and stores nothing. *)
Lemma create_invitation_insert_refused_witness :
  create_invitation 2000 20 1 Examples.alice.1 "bob@example.com" EDITOR None None
    Examples.public_db
  = (Raise (IntegrityError "invitations.token_hash is null"), Examples.public_db)
  ∧ create_invitation 2000 20 1 Examples.alice.1 "dave@example.com" VIEWER (Some "hi")
      (Some 3%Z) Examples.public_db
    = (Raise (IntegrityError "invitations.token_hash is null"), Examples.public_db).
Proof.
  split.
  - destruct (create_invitation_insert_refused 2000 20 Examples.public_db 1
                Examples.alice.1 "bob@example.com" EDITOR None None) as (_ & Hraise & _).
    apply Hraise; [apply users_email_unique_public_db | reflexivity].
  - destruct (create_invitation_insert_refused 2000 20 Examples.public_db 1
                Examples.alice.1 "dave@example.com" VIEWER (Some "hi") (Some 3%Z))
      as (_ & Hraise & _).
    apply Hraise; [apply users_email_unique_public_db | reflexivity].
Defined.

(** X16: nobody invites their own address, and the refusal is never the
    one written for it. With unique permissions and user emails, a request
    of a user of the table to invite their own email is refused with 403
    when they hold neither OWNER nor EDITOR on the document and otherwise
    as "already a collaborator": the check that answers "You cannot invite
    yourself" comes after it and is not reached. *)
Theorem create_invitation_route_self now new_id db invitation_data current_user :
  permissions_unique db → users_email_unique db →
  users db !! current_user.1 = Some current_user.2 →
  InvitationsRouter.invitee_email invitation_data = User.email current_user.2 →
  let D := InvitationsRouter.document_id invitation_data in
  let refused e :=
    InvitationsRouter.create_invitation now new_id invitation_data current_user db
    = (Raise e, db) in
  (refused (HTTPException HTTP_400_BAD_REQUEST
              "User is already a collaborator on this document")
   ∨ refused (HTTPException HTTP_403_FORBIDDEN
                "You don't have permission to invite users to this document"))
  ∧ (∀ role, (get_user_role D current_user.1 db).1 = Ok (Some role) →
       role = OWNER ∨ role = EDITOR →
       refused (HTTPException HTTP_400_BAD_REQUEST
                  "User is already a collaborator on this document"))
  ∧ (∀ held, (get_user_role D current_user.1 db).1 = Ok held →
       held = None ∨ held = Some VIEWER →
       refused (HTTPException HTTP_403_FORBIDDEN
                  "You don't have permission to invite users to this document")).
Proof.
  intros Hpu Huu Hme Hself D refused.
  assert (∀ k p, get_user_permission D current_user.1 db = (Ok (Some (k, p)), db) →
            DocumentPermission.role p = OWNER ∨ DocumentPermission.role p = EDITOR →
            refused (HTTPException HTTP_400_BAD_REQUEST
                       "User is already a collaborator on this document")) as Hcollab.
  { intros k p E Hmay. unfold refused, InvitationsRouter.create_invitation. fold D.
    rewrite bind_read_only by apply read_only_can_invite_to_document.
    unfold can_invite_to_document. rewrite bind_read_only by apply read_only_get_user_role.
    assert (get_user_role D current_user.1 db
            = (Ok (Some (DocumentPermission.role p)), db)) as ->
      by (unfold get_user_role; bind_step; by rewrite E).
    cbn [fst mret M_ret].
    rewrite (bool_decide_eq_true_2 (Some _ = Some OWNER ∨ _))
      by (destruct Hmay as [-> | ->]; auto).
    cbn [negb].
    rewrite bind_read_only by apply read_only_is_already_collaborator.
    unfold is_already_collaborator.
    rewrite bind_read_only by apply read_only_execute.
    unfold execute at 1. cbn [fst]. rewrite Hself.
    destruct (users_by_email db (User.email current_user.2) Huu) as [Hfound _].
    rewrite (Hfound current_user.1 current_user.2 Hme eq_refl).
    rewrite bind_read_only by apply read_only_execute.
    unfold execute. cbn [fst].
    unfold get_user_permission, execute in E. injection E as ->.
    cbn [mret M_ret fst]. by rewrite bool_decide_eq_true_2. }
  assert (∀ r, get_user_role D current_user.1 db = (Ok r, db) →
            ¬ (r = Some OWNER ∨ r = Some EDITOR) →
            refused (HTTPException HTTP_403_FORBIDDEN
                       "You don't have permission to invite users to this document"))
    as Hforbidden.
  { intros r Hr Hnot. unfold refused, InvitationsRouter.create_invitation. fold D.
    rewrite bind_read_only by apply read_only_can_invite_to_document.
    unfold can_invite_to_document. rewrite bind_read_only by apply read_only_get_user_role.
    rewrite Hr. cbn [fst mret M_ret]. by rewrite bool_decide_eq_false_2. }
  split; [|split].
  - destruct (get_user_permission_unique db D current_user.1 Hpu) as [[[k p]|] E].
    + destruct (decide (DocumentPermission.role p = OWNER
                        ∨ DocumentPermission.role p = EDITOR)) as [Hmay|Hmay].
      * left. by apply (Hcollab k p).
      * right. apply (Hforbidden (Some (DocumentPermission.role p))).
        -- unfold get_user_role. bind_step. by rewrite E.
        -- intros [[= ?]|[= ?]]; tauto.
    + right. apply (Hforbidden None).
      * unfold get_user_role. bind_step. by rewrite E.
      * by intros [|].
  - intros role Hrole Hmay.
    destruct (get_user_role_Some _ _ _ _ Hrole) as (k & p & E & <- & _).
    by apply (Hcollab k p).
  - intros held Hheld Hlow. apply (Hforbidden held).
    + pose proof (read_only_get_user_role D current_user.1 db) as Hro.
      destruct (get_user_role D current_user.1 db) as [x db'].
      cbn [fst snd] in *. by subst.
    + intros [?|?]; destruct Hlow; congruence.
Qed.

Lemma create_invitation_route_self_witness :
  InvitationsRouter.create_invitation 2000 20
    (InvitationsRouter.Build_InvitationCreate 1 "alice@example.com" EDITOR None)
    Examples.alice Examples.public_db
  = (Raise (HTTPException HTTP_400_BAD_REQUEST
              "User is already a collaborator on this document"), Examples.public_db).
Proof.
  destruct (create_invitation_route_self 2000 20 Examples.public_db
              (InvitationsRouter.Build_InvitationCreate 1 "alice@example.com" EDITOR None)
              Examples.alice) as (_ & Hrole & _);
    [apply permissions_unique_public_db | apply users_email_unique_public_db
     | reflexivity | reflexivity |].
  apply (Hrole OWNER); [reflexivity | by left].
Defined.
End invitation_creation.

Section invitation_accept.
Import DocumentService InvitationService.

(** X17: accepting gives exactly the invited role. When the invitee of a
    PENDING invitation, holding no permission on its document, accepts,
    the invitation is bound to them, [get_user_role] on the document
    returns the invited role for them, [check_access] answers by the rank
    of that role, and the permissions of every other user on the document
    are as before. *)
Theorem respond_accept_grants_role now new_id db k i current_user :
  invitations db !! k = Some i → Invitation.status i = PENDING →
  is_invitee i current_user = true →
  document_permissions db !! new_id = None →
  no_permission db (Invitation.document_id i) current_user.1 →
  let D := Invitation.document_id i in
  let db' := with_document_permissions
               (<[new_id := granted_on_accept now current_user.1 i]>)
               (with_invitations (<[k := accepted now current_user.1 i]>) db) in
  InvitationsRouter.respond_to_invitation now new_id k true current_user db
  = (Ok (InvitationsRouter.Accepted (DocumentRole_value (Invitation.role i)) D), db')
  ∧ (∃ i', invitations db' !! k = Some i' ∧ Invitation.status i' = ACCEPTED
           ∧ Invitation.invitee_id i' = Some current_user.1
           ∧ Invitation.responded_at i' = Some now)
  ∧ get_user_role D current_user.1 db' = (Ok (Some (Invitation.role i)), db')
  ∧ (∀ required, check_access D current_user.1 required db'
                 = (Ok (rank (Invitation.role i) >=? rank required)%Z, db'))
  ∧ (∀ U, U ≠ current_user.1 → permissions_of db' D U = permissions_of db D U).
Proof.
  intros Hk Hst Hinv Hpk Hno D db'.
  assert (permissions_of db' D current_user.1
          = {[ new_id := granted_on_accept now current_user.1 i ]}) as Hof.
  { unfold permissions_of. subst db'. cbn [document_permissions
      with_document_permissions with_invitations].
    rewrite map_filter_insert_True by done.
    rewrite (proj2 (filter_empty_iff _ (document_permissions db)));
      [by rewrite insert_empty|].
    intros k' q Hk'. simpl. by apply (Hno k'). }
  destruct (get_user_role_of_permissions db' D current_user.1 new_id _ Hof) as [Hperm Hrole].
  split_and!.
  - rewrite (respond_to_invitation_unfold _ _ _ _ _ _ _ Hk), Hinv, Hst. simpl.
    by rewrite add_document_permission_ok.
  - exists (accepted now current_user.1 i). subst db'. simpl.
    by rewrite lookup_insert_eq.
  - exact Hrole.
  - intros required. by rewrite (check_access_role _ _ _ _ _ required Hperm).
  - intros U HU. subst db'.
    assert (permissions_of (with_invitations (<[k := accepted now current_user.1 i]>) db) D U
            = permissions_of db D U) as <- by done.
    apply (permissions_of_insert_other _ D current_user.1); try done.
    + intros [= ?]. done.
    + intros q Hq. simpl in Hq. congruence.
Qed.

Lemma respond_accept_grants_role_witness :
  get_user_role 1 Examples.bob.1 Examples.accepted_db
  = (Ok (Some EDITOR), Examples.accepted_db)
  ∧ (∀ required, check_access 1 Examples.bob.1 required Examples.accepted_db
                 = (Ok (rank EDITOR >=? rank required)%Z, Examples.accepted_db)).
Proof.
  destruct (respond_accept_grants_role 3000 12 Examples.invited_db 20
              Examples.editor_invitation Examples.bob)
    as (_ & _ & Hrole & Hacc & _);
    [reflexivity | reflexivity | reflexivity | reflexivity | |].
  - change (no_permission Examples.public_db 1 Examples.bob.1).
    apply no_permission_bob_public_db.
  - split; [exact Hrole | exact Hacc].
Defined.
End invitation_accept.

(** ** What the requests write *)

Section request_writes.
Import DocumentService InvitationService.

Variable deletable : UUID → Prop.

Lemma bind_read_only_rtc {A B} (m : M A) (f : A → M B) db :
  read_only m →
  (∀ a, (m db).1 = Ok a → rtc (write deletable) db (f a db).2) →
  rtc (write deletable) db ((m ≫= f) db).2.
Proof.
  intros Hm Hf. rewrite (bind_read_only m f db Hm).
  destruct (m db).1 as [a|e]; [by apply Hf|apply rtc_refl].
Qed.

Lemma bind_then_read_only {A B} (m : M A) (f : A → M B) db :
  (∀ a, read_only (f a)) → ((m ≫= f) db).2 = (m db).2.
Proof.
  intros Hf. unfold mbind, M_bind. destruct (m db) as [[a|e] db']; [apply Hf|done].
Qed.

Lemma add_document_permission_write db k p db' :
  add_document_permission k p db = Ok db' → write deletable db db'.
Proof.
  unfold add_document_permission.
  destruct (pk_free (document_permissions db) k) eqn:Hpk; cbn [negb]; [|discriminate].
  case_bool_decide as Hf; [|discriminate]. intros [= <-].
  apply bool_decide_eq_true in Hpk. apply write_add_permission; [done|].
  intros k' q Hk'. by apply (proj1 (filter_empty_iff _ _) Hf k' q Hk').
Qed.

Lemma create_document_writes now new_id new_perm_id owner title description is_public db :
  rtc (write deletable) db
    (create_document now new_id new_perm_id owner title description is_public db).2.
Proof.
  unfold create_document. rewrite bind_then_read_only by (intros; apply read_only_ret).
  unfold commit, add_document, mbind, result_bind.
  destruct (pk_free (documents db) new_id) eqn:Hpk; [|apply rtc_refl].
  apply bool_decide_eq_true in Hpk.
  destruct (add_document_permission _ _ _) as [db'|e] eqn:Hadd; [|apply rtc_refl].
  cbn [snd]. eapply rtc_l; [by apply write_add_document|].
  apply rtc_once. by apply (add_document_permission_write _ _ _ _ Hadd).
Qed.

Lemma update_document_route_writes D updates current_user db :
  rtc (write deletable) db (DocumentsRouter.update_document D updates current_user db).2.
Proof.
  unfold DocumentsRouter.update_document.
  apply bind_read_only_rtc; [apply read_only_DocumentAccessChecker|]. intros _ _.
  apply bind_read_only_rtc; [apply read_only_get_document_by_id|].
  intros [[k d]|] Hfound; [|apply rtc_refl].
  destruct (get_document_by_id_inv _ _ _ _ _ Hfound) as (-> & HD & _).
  unfold update_document, commit. bind_step. cbn [fst snd].
  apply rtc_once. by apply (write_set_document _ _ D d).
Qed.

Lemma delete_document_route_writes D permanent current_user db :
  (permanent = true → deletable D) →
  rtc (write deletable) db (DocumentsRouter.delete_document D permanent current_user db).2.
Proof.
  intros Hdel. unfold DocumentsRouter.delete_document.
  apply bind_read_only_rtc; [apply read_only_DocumentAccessChecker|]. intros _ _.
  apply bind_read_only_rtc; [apply read_only_get_document_by_id|].
  intros [[k d]|] Hfound; [|apply rtc_refl].
  destruct (get_document_by_id_inv _ _ _ _ _ Hfound) as (-> & HD & _).
  rewrite bind_then_read_only by (intros; apply read_only_ret).
  unfold delete_document. rewrite bind_then_read_only by (intros; apply read_only_ret).
  destruct permanent; cbn [negb fst snd]; unfold commit; cbn [snd]; apply rtc_once.
  - apply (write_delete_document deletable db D). by apply Hdel.
  - by apply (write_set_document _ _ D d).
Qed.

Lemma grant_permission_writes now new_id D U role granted_by db :
  rtc (write deletable) db (grant_permission now new_id D U role granted_by db).2.
Proof.
  unfold grant_permission.
  apply bind_read_only_rtc; [apply read_only_get_user_permission|].
  intros [[k e]|] Hfound.
  - assert (get_user_permission D U db = (Ok (Some (k, e)), db)) as E.
    { pose proof (read_only_get_user_permission D U db) as Hro.
      destruct (get_user_permission D U db) as [r db0]. simpl in *. congruence. }
    destruct (get_user_permission_found _ _ _ _ _ E) as (Hk & _).
    unfold commit. bind_step. cbn [snd].
    apply rtc_once. by apply (write_set_permission _ _ k e).
  - rewrite bind_then_read_only by (intros; apply read_only_ret).
    unfold commit. destruct (add_document_permission _ _ _) as [db'|?] eqn:Hadd;
      [|apply rtc_refl].
    apply rtc_once. by apply (add_document_permission_write _ _ _ _ Hadd).
Qed.

Lemma grant_permission_route_writes now new_id D permission_data current_user db :
  rtc (write deletable) db
    (DocumentsRouter.grant_permission now new_id D permission_data current_user db).2.
Proof.
  unfold DocumentsRouter.grant_permission.
  apply bind_read_only_rtc; [apply read_only_DocumentAccessChecker|]. intros _ _.
  destruct (bool_decide _); [apply rtc_refl|]. apply grant_permission_writes.
Qed.

Lemma revoke_permission_route_writes D U current_user db :
  rtc (write deletable) db (DocumentsRouter.revoke_permission D U current_user db).2.
Proof.
  unfold DocumentsRouter.revoke_permission.
  apply bind_read_only_rtc; [apply read_only_DocumentAccessChecker|]. intros _ _.
  rewrite bind_then_read_only
    by (intros b; destruct (negb b); [apply read_only_raise|apply read_only_ret]).
  unfold revoke_permission.
  apply bind_read_only_rtc; [apply read_only_get_user_permission|].
  intros [[k p]|] _; [|apply rtc_refl].
  destruct (bool_decide _); [apply rtc_refl|].
  unfold commit. bind_step. cbn [snd]. apply rtc_once. apply write_delete_permission.
Qed.

Lemma update_crdt_state_writes now D s expected db :
  rtc (write deletable) db (update_crdt_state now D s expected db).2.
Proof.
  unfold update_crdt_state.
  apply bind_read_only_rtc; [apply read_only_get_document_by_id|].
  intros [[k d]|] Hfound; [|apply rtc_refl].
  destruct (get_document_by_id_inv _ _ _ _ _ Hfound) as (-> & HD & _).
  destruct (match expected with Some v => _ | None => _ end); [apply rtc_refl|].
  unfold commit, update_document_version. bind_step.
  destruct (bool_decide _); cbn [snd]; [|apply rtc_refl]. apply rtc_once.
  apply (write_set_document _ _ D d); [done|done|simpl; lia].
Qed.

Lemma create_invitation_writes now new_id D inviter E role message days db :
  rtc (write deletable) db (create_invitation now new_id D inviter E role message days db).2.
Proof.
  destruct (create_invitation_cases now new_id D inviter E role message days db)
    as [[e ->]|(k & e & Hk & HP & _ & ->)]; cbn [snd].
  - apply rtc_refl.
  - apply rtc_once. apply (write_set_invitation _ _ k e); [done|]. by destruct HP as (_ & _ & ?).
Qed.

Lemma create_invitation_route_writes now new_id invitation_data current_user db :
  rtc (write deletable) db
    (InvitationsRouter.create_invitation now new_id invitation_data current_user db).2.
Proof.
  unfold InvitationsRouter.create_invitation.
  apply bind_read_only_rtc; [apply read_only_can_invite_to_document|]. intros can_invite _.
  destruct (negb can_invite); [apply rtc_refl|].
  apply bind_read_only_rtc; [apply read_only_is_already_collaborator|].
  intros is_collaborator _.
  destruct is_collaborator; [apply rtc_refl|].
  destruct (bool_decide _); [apply rtc_refl|]. apply create_invitation_writes.
Qed.

Lemma respond_to_invitation_writes now new_id k accept current_user db :
  rtc (write deletable) db
    (InvitationsRouter.respond_to_invitation now new_id k accept current_user db).2.
Proof.
  destruct (invitations db !! k) as [i|] eqn:Hk.
  - rewrite (respond_to_invitation_unfold _ _ _ _ _ _ _ Hk).
    destruct (negb (is_invitee i current_user)); [apply rtc_refl|].
    case_bool_decide as Hst; cbn [negb]; [|apply rtc_refl].
    destruct accept.
    + destruct (add_document_permission _ _ _) as [db'|e] eqn:Hadd; [|apply rtc_refl].
      cbn [snd]. eapply rtc_l; [by apply (write_set_invitation _ _ k i)|].
      apply rtc_once. by apply (add_document_permission_write _ _ _ _ Hadd).
    + apply rtc_once. by apply (write_set_invitation _ _ k i).
  - rewrite respond_to_invitation_missing by done. apply rtc_refl.
Qed.

Lemma cancel_invitation_route_writes k current_user db :
  rtc (write deletable) db (InvitationsRouter.cancel_invitation k current_user db).2.
Proof.
  unfold InvitationsRouter.cancel_invitation.
  apply bind_read_only_rtc; [apply read_only_get_invitation_by_id|].
  intros [[k' i]|] Hfound; [|apply rtc_refl].
  assert (k' = k ∧ invitations db !! k = Some i) as [-> Hk].
  { unfold get_invitation_by_id, execute, select_by_id in Hfound. cbn [fst] in Hfound.
    destruct (invitations db !! k) as [i0|]; [|discriminate]. by injection Hfound as <- <-. }
  cbn [fst snd]. destruct (negb (bool_decide _)); [apply rtc_refl|].
  rewrite bind_then_read_only
    by (intros b; destruct (negb b); [apply read_only_raise|apply read_only_ret]).
  unfold cancel_invitation. cbn [fst snd].
  case_bool_decide as Hst; cbn [negb]; [|apply rtc_refl].
  unfold commit. bind_step. cbn [snd]. apply rtc_once.
  by apply (write_delete_invitation _ _ k i).
Qed.
End request_writes.

Section serve_writes.

(** Every request is made of the single writes, and deletes a document
    only when it is a permanent delete of that document. *)
Lemma serve_writes db timed :
  rtc (write (λ D, Requests.deletes D timed)) db (Requests.serve db timed).
Proof.
  destruct timed as [now []]; unfold Requests.serve; cbn [fst snd].
  - apply create_document_writes.
  - apply update_document_route_writes.
  - apply delete_document_route_writes. intros ->. by split.
  - apply grant_permission_route_writes.
  - apply revoke_permission_route_writes.
  - apply update_crdt_state_writes.
  - apply create_invitation_route_writes.
  - apply respond_to_invitation_writes.
  - apply cancel_invitation_route_writes.
  - apply rtc_once. apply write_expire_invitations.
Qed.

(** An invariant of the single writes is an invariant of the requests. *)
Lemma serve_all_invariant_of_writes (keeps : UUID → Prop) (I : DB → Prop) :
  (∀ (deletable : UUID → Prop) db db',
     (∀ D, deletable D → keeps D → False) →
     write deletable db db' → I db → I db') →
  ∀ requests db,
    Forall (λ timed, ∀ D, keeps D → ¬ Requests.deletes D timed) requests →
    I db → I (Requests.serve_all requests db).
Proof.
  intros Hwrite requests. unfold Requests.serve_all.
  induction requests as [|timed requests IH]; intros db Hkeep HI; [done|].
  apply Forall_cons in Hkeep as [Hhd Htl]. simpl. apply IH; [done|].
  pose proof (serve_writes db timed) as Hrtc.
  induction Hrtc as [|x y z Hxy _ IHrtc]; [done|].
  apply IHrtc. apply (Hwrite (λ D, Requests.deletes D timed) x y); [|done|done].
  intros D HD HK. by apply (Hhd D).
Qed.
End serve_writes.

(** ** Invariants of the requests *)

Section request_invariants.
Import DocumentService.

Lemma Forall_no_keeps requests :
  Forall (λ timed : datetime * Requests.request,
            ∀ D, False → ¬ Requests.deletes D timed) requests.
Proof. apply Forall_forall. by intros timed _ D []. Qed.

Lemma Forall_keeps_one D0 requests :
  Forall (λ timed, ¬ Requests.deletes D0 timed) requests →
  Forall (λ timed : datetime * Requests.request,
            ∀ D, D = D0 → ¬ Requests.deletes D timed) requests.
Proof. intros Hkeep. eapply Forall_impl; [exact Hkeep|]. by intros timed Hn D ->. Qed.

(** X18: no sequence of requests breaks the uniqueness of (document, user)
    among the permissions: the inserts that would are refused. So, from
    the empty database or from any database with unique pairs, the lookup
    of a user's permission never raises [MultipleResultsFound]. *)
Theorem requests_keep_permissions_unique requests db :
  permissions_unique db →
  permissions_unique (Requests.serve_all requests db)
  ∧ ∀ D U, ∃ r, get_user_permission D U (Requests.serve_all requests db)
                = (Ok r, Requests.serve_all requests db).
Proof.
  intros Hu.
  assert (permissions_unique (Requests.serve_all requests db)) as Hu'.
  { apply (serve_all_invariant_of_writes (λ _, False) permissions_unique);
      [|apply Forall_no_keeps|done].
    clear. intros deletable db db' _ Hw Hu.
    destruct Hw as [| | | k p Hk Hno | k p p' Hk Hd Hus | | | |]; try done.
    - apply (permissions_unique_subseteq db); [|done]. simpl. apply map_filter_subseteq.
    - by apply permissions_unique_add.
    - by apply (permissions_unique_set db k p).
    - apply (permissions_unique_subseteq db); [|done]. simpl. apply delete_subseteq. }
  split; [done|]. intros D U. by apply get_user_permission_unique.
Qed.

Lemma requests_keep_permissions_unique_witness :
  let requests :=
    [(2000%Z, Requests.CreateInvitation 20 Examples.editor_invite Examples.alice);
     (2500%Z, Requests.GrantPermission 11 1
                (DocumentsRouter.Build_DocumentPermissionCreate Examples.bob.1 VIEWER)
                Examples.alice);
     (3000%Z, Requests.RespondToInvitation 12 20 true Examples.bob)] in
  permissions_unique (Requests.serve_all requests Examples.public_db)
  ∧ ∀ D U, ∃ r, get_user_permission D U (Requests.serve_all requests Examples.public_db)
                = (Ok r, Requests.serve_all requests Examples.public_db).
Proof.
  intros requests.
  apply (requests_keep_permissions_unique requests Examples.public_db).
  apply permissions_unique_public_db.
Defined.

(** X19: ACCEPTED, DECLINED and EXPIRED are final. An invitation that is
    not PENDING is left exactly as it is by every sequence of requests that
    does not delete its document permanently: no respond, cancel, re-invite
    or sweep touches it. *)
Theorem resolved_invitation_is_final requests db k i :
  invitations db !! k = Some i → Invitation.status i ≠ PENDING →
  Forall (λ timed, ¬ Requests.deletes (Invitation.document_id i) timed) requests →
  invitations (Requests.serve_all requests db) !! k = Some i.
Proof.
  intros Hk Hst Hkeep.
  apply (serve_all_invariant_of_writes (λ D, D = Invitation.document_id i)
           (λ db, invitations db !! k = Some i));
    [|by apply Forall_keeps_one|done].
  clear db Hk Hkeep requests. intros deletable db db' Hdel Hw Hk.
  destruct Hw as [| | k0 Hk0 | | | | k0 i0 i0' Hk0 Hst0
                  | k0 i0 Hk0 Hst0 | now]; try done.
  - simpl. apply map_lookup_filter_Some. split; [done|]. simpl.
    intros He. by apply (Hdel k0).
  - simpl. rewrite lookup_insert_ne; [done|]. intros ->. congruence.
  - simpl. rewrite lookup_delete_ne; [done|]. intros ->. congruence.
  - rewrite expire_old_invitations_lookup, Hk. simpl.
    rewrite decide_False; [done|]. by intros [? _].
Qed.

(** On the invitation Bob has accepted: a sweep long after its expiry, a
    re-invitation of Bob's address, a cancel and a second respond. *)
Lemma resolved_invitation_is_final_witness :
  invitations
    (Requests.serve_all
       [((3000 + timedelta_days 30)%Z, Requests.ExpireOldInvitations);
        (4000%Z, Requests.CancelInvitation 20 Examples.alice);
        (5000%Z, Requests.RespondToInvitation 13 20 false Examples.bob);
        (6000%Z, Requests.DeleteDocument 1 false Examples.alice)]
       Examples.accepted_db) !! 20%N
  = Some (accepted 3000 Examples.bob.1 Examples.editor_invitation).
Proof.
  apply resolved_invitation_is_final; [reflexivity | discriminate |].
  repeat constructor; unfold Requests.deletes; cbn [snd]; try tauto;
    by intros [? ?].
Defined.

(** X20: only a permanent delete removes a document. Through every
    sequence of requests without a permanent delete of [D], the document
    stays in the table, its owner is the same and its version does not go
    down. *)
Theorem requests_keep_document requests db D d :
  documents db !! D = Some d →
  Forall (λ timed, ¬ Requests.deletes D timed) requests →
  ∃ d', documents (Requests.serve_all requests db) !! D = Some d'
        ∧ Document.owner_id d' = Document.owner_id d
        ∧ (Document.crdt_version d <= Document.crdt_version d')%Z.
Proof.
  intros HD Hkeep.
  apply (serve_all_invariant_of_writes (λ D', D' = D)
           (λ db, ∃ d', documents db !! D = Some d'
                        ∧ Document.owner_id d' = Document.owner_id d
                        ∧ (Document.crdt_version d <= Document.crdt_version d')%Z));
    [|by apply Forall_keeps_one|by exists d].
  clear db HD Hkeep requests. intros deletable db db' Hdel Hw (d0 & HD & Ho & Hv).
  destruct Hw as [k0 d1 Hk0 | k0 d1 d1' Hk0 Ho1 Hv1 | k0 Hk0 | | | | | |];
    try (by exists d0).
  - exists d0. simpl. rewrite lookup_insert_ne; [done|]. intros ->. congruence.
  - destruct (decide (k0 = D)) as [->|Hne].
    + exists d1'. simpl. rewrite lookup_insert_eq.
      rewrite HD in Hk0. injection Hk0 as <-. split_and!; [done|congruence|lia].
    + exists d0. simpl. by rewrite lookup_insert_ne.
  - exists d0. simpl. rewrite lookup_delete_ne; [done|]. intros ->. by apply (Hdel D).
Qed.

Lemma requests_keep_document_witness :
  ∃ d', documents
          (Requests.serve_all
             [(2000%Z, Requests.UpdateCrdtState 1 Examples.abc (Some 0%Z));
              (3000%Z, Requests.DeleteDocument 1 false Examples.alice);
              (4000%Z, Requests.DeleteDocument 2 true Examples.alice)]
             Examples.public_db) !! 1%N = Some d'
        ∧ Document.owner_id d' = Document.owner_id Examples.public_doc
        ∧ (Document.crdt_version Examples.public_doc <= Document.crdt_version d')%Z.
Proof.
  apply requests_keep_document; [reflexivity|].
  repeat constructor; unfold Requests.deletes; cbn [snd]; try tauto;
    by intros [? ?].
Defined.
End request_invariants.

(** ** Sessions *)

Section sessions.
Variable settings : Settings.
Variable hash_token : string → string.

Lemma verify_refresh_token_Some now token db k row db' :
  AuthService.verify_refresh_token hash_token now token db = (Ok (Some (k, row)), db') →
  ∃ r, refresh_tokens db !! k = Some r
       ∧ RefreshToken.token_hash r = hash_token token
       ∧ RefreshToken.is_revoked r = false
       ∧ (now < RefreshToken.expires_at r)%Z
       ∧ row = RefreshToken.set_last_used_at now r
       ∧ db' = with_refresh_tokens (<[k := row]>) db.
Proof.
  unfold AuthService.verify_refresh_token, execute, commit. bind_step.
  destruct (scalar_one_or_none _) as [[[k0 r]|]|e] eqn:Hq; try discriminate.
  intros [= <- <- <-].
  apply scalar_one_or_none_Some, filter_singleton_lookup in Hq as [Hk (Hh & Hb & He)].
  simpl in *. exists r. split_and!; try done. lia.
Qed.

(** X21: [revoke_all_user_tokens] ends every session of the user and
    no other. It returns the number of the user's tokens that were not
    revoked yet and revokes exactly those; afterwards every token of the
    user is revoked, no token of the user verifies, the tokens of other
    users and the tokens revoked earlier are as before, and a second call
    returns 0 and changes nothing. *)
Theorem revoke_all_user_tokens_ends_sessions now U db :
  let revoked := AuthService.revoke_all_user_tokens now U db in
  revoked.1 = Ok (Z.of_nat (size (filter
                    (λ kv, RefreshToken.user_id kv.2 = U
                           ∧ RefreshToken.is_revoked kv.2 = false) (refresh_tokens db))))
  ∧ (∀ k r, refresh_tokens revoked.2 !! k = Some r → RefreshToken.user_id r = U →
            RefreshToken.is_revoked r = true)
  ∧ (∀ k r, refresh_tokens db !! k = Some r →
            RefreshToken.user_id r ≠ U ∨ RefreshToken.is_revoked r = true →
            refresh_tokens revoked.2 !! k = Some r)
  ∧ (∀ t token k row db',
       AuthService.verify_refresh_token hash_token t token revoked.2
       = (Ok (Some (k, row)), db') → RefreshToken.user_id row ≠ U)
  ∧ (∀ now', AuthService.revoke_all_user_tokens now' U revoked.2 = (Ok 0%Z, revoked.2)).
Proof.
  intros revoked.
  assert (∀ k r, refresh_tokens revoked.2 !! k = Some r → RefreshToken.user_id r = U →
                 RefreshToken.is_revoked r = true) as Hall.
  { intros k r Hk HU. subst revoked. rewrite revoke_all_user_tokens_lookup in Hk.
    destruct (refresh_tokens db !! k) as [r0|]; [|done]. simpl in Hk.
    destruct (decide _) as [|Hn]; injection Hk as <-; [done|].
    destruct (RefreshToken.is_revoked r0) eqn:Hb; [done|]. by destruct Hn. }
  split_and!.
  - subst revoked. unfold AuthService.revoke_all_user_tokens, execute, commit.
    bind_step. cbn [fst snd]. f_equal.
    exact (for_each_row_count
      (λ kv, RefreshToken.user_id kv.2 = U ∧ RefreshToken.is_revoked kv.2 = false)
      (RefreshToken.revoke now) (refresh_tokens db)).
  - exact Hall.
  - intros k r Hk Hor. subst revoked. rewrite revoke_all_user_tokens_lookup, Hk. simpl.
    rewrite decide_False; [done|]. intros [HU Hb]. destruct Hor; congruence.
  - intros t token k row db' Hv HU.
    destruct (verify_refresh_token_Some _ _ _ _ _ _ Hv) as (r & Hk & _ & Hb & _ & -> & _).
    simpl in HU. rewrite (Hall k r Hk HU) in Hb. discriminate.
  - intros now'.
    assert (filter (λ kv : N * RefreshToken.t, RefreshToken.user_id kv.2 = U
                      ∧ RefreshToken.is_revoked kv.2 = false) (refresh_tokens revoked.2)
            = ∅) as Hnone.
    { apply filter_empty_iff. intros k r Hk [HU Hb]. simpl in *.
      rewrite (Hall k r Hk HU) in Hb. discriminate. }
    unfold AuthService.revoke_all_user_tokens, execute, commit. bind_step. cbn [fst snd].
    rewrite Hnone, map_to_list_empty. unfold for_each_row. cbn [foldl fst snd].
    by destruct (revoked.2).
Qed.

Lemma token_hashes_unique_set db k r r' :
  token_hashes_unique db → refresh_tokens db !! k = Some r →
  RefreshToken.token_hash r' = RefreshToken.token_hash r →
  token_hashes_unique (with_refresh_tokens (<[k := r']>) db).
Proof.
  intros Hu Hk Hh k1 k2 r1 r2 H1 H2 He. simpl in H1, H2.
  apply lookup_insert_Some in H1 as [[<- <-]|[Hne1 H1]];
    apply lookup_insert_Some in H2 as [[<- <-]|[Hne2 H2]]; [done| | |].
  - apply (Hu k k2 r r2); congruence.
  - apply (Hu k1 k r1 r); congruence.
  - by apply (Hu k1 k2 r1 r2).
Qed.

Lemma serve_token_hashes_unique db timed :
  token_hashes_unique db → token_hashes_unique (AuthService.serve settings hash_token db timed).
Proof.
  intros Hu. destruct timed as [now [new_id token U | token | token | U]];
    unfold AuthService.serve; cbn [fst snd].
  - unfold AuthService.create_refresh_token, commit, add_refresh_token. bind_step.
    destruct (pk_free _ _) eqn:Hpk; cbn [negb]; [|done].
    case_bool_decide as Hf; [|done]. cbn [snd].
    pose proof (proj1 (filter_empty_iff _ _) Hf) as Hnone.
    intros k1 k2 r1 r2 H1 H2 He. simpl in H1, H2.
    apply lookup_insert_Some in H1 as [[<- <-]|[Hne1 H1]];
      apply lookup_insert_Some in H2 as [[<- <-]|[Hne2 H2]]; [done| | |].
    + destruct (Hnone k2 r2 H2). by simpl in *.
    + destruct (Hnone k1 r1 H1). by simpl in *.
    + by apply (Hu k1 k2 r1 r2).
  - unfold AuthService.verify_refresh_token, execute, commit. bind_step.
    destruct (scalar_one_or_none _) as [[[k r]|]|e] eqn:Hq; cbn [snd]; try done.
    apply scalar_one_or_none_Some, filter_singleton_lookup in Hq as [Hk _].
    by apply (token_hashes_unique_set db k r).
  - unfold AuthService.revoke_refresh_token, execute, commit. bind_step.
    destruct (scalar_one_or_none _) as [[[k r]|]|e] eqn:Hq; cbn [snd]; try done.
    apply scalar_one_or_none_Some, filter_singleton_lookup in Hq as [Hk _].
    by apply (token_hashes_unique_set db k r).
  - intros k1 k2 r1 r2 H1 H2 He.
    rewrite revoke_all_user_tokens_lookup in H1, H2.
    destruct (refresh_tokens db !! k1) as [r1'|] eqn:H1'; [|done].
    destruct (refresh_tokens db !! k2) as [r2'|] eqn:H2'; [|done].
    simpl in H1, H2. injection H1 as <-. injection H2 as <-.
    apply (Hu k1 k2 r1' r2' H1' H2').
    by repeat destruct (decide _).
Qed.

(** X22: the stored hashes stay unique through every sequence of issue,
    verify, revoke and revoke-all requests, an issue with a hash that is
    already stored being refused; so verifying or revoking a token never
    raises [MultipleResultsFound]. *)
Theorem auth_requests_keep_hashes_unique requests db :
  token_hashes_unique db →
  let db' := AuthService.serve_all settings hash_token requests db in
  token_hashes_unique db'
  ∧ (∀ t token, ∃ r, (AuthService.verify_refresh_token hash_token t token db').1 = Ok r)
  ∧ (∀ t token, ∃ b, (AuthService.revoke_refresh_token hash_token t token db').1 = Ok b).
Proof.
  intros Hu db'.
  assert (token_hashes_unique db') as Hu'.
  { subst db'. unfold AuthService.serve_all. revert db Hu.
    induction requests as [|timed requests IH]; intros db Hu; [done|].
    simpl. apply IH. by apply serve_token_hashes_unique. }
  split; [done|]. split.
  - intros t token. unfold AuthService.verify_refresh_token, execute, commit. bind_step.
    destruct (scalar_one_or_none_unique
      (λ kv, RefreshToken.token_hash kv.2 = hash_token token
             ∧ RefreshToken.is_revoked kv.2 = false
             ∧ (RefreshToken.expires_at kv.2 > t)%Z) (refresh_tokens db')) as [r ->].
    + intros k1 k2 r1 r2 H1 H2 [Hh1 _] [Hh2 _]. simpl in *.
      apply (Hu' k1 k2 r1 r2); congruence.
    + destruct r as [[k r]|]; simpl; by eexists.
  - intros t token. unfold AuthService.revoke_refresh_token, execute, commit. bind_step.
    destruct (scalar_one_or_none_unique
      (λ kv, RefreshToken.token_hash kv.2 = hash_token token) (refresh_tokens db'))
      as [r ->].
    + intros k1 k2 r1 r2 H1 H2 Hh1 Hh2. simpl in *.
      apply (Hu' k1 k2 r1 r2); congruence.
    + destruct r as [[k r]|]; simpl; by eexists.
Qed.
End sessions.

Section sessions_witness.
Import Examples.

(** Bob logs out everywhere after the requests of the session. *)
Lemma revoke_all_user_tokens_ends_sessions_witness :
  let db := AuthService.serve_all default_settings tagged
              ((1000%Z, AuthService.Issue 30 "secret" bob.1) :: other_requests) public_db in
  let revoked := AuthService.revoke_all_user_tokens 5000 bob.1 db in
  revoked.1 = Ok 1%Z
  ∧ AuthService.revoke_all_user_tokens 6000 bob.1 revoked.2 = (Ok 0%Z, revoked.2)
  ∧ (∀ t token k row db',
       AuthService.verify_refresh_token tagged t token revoked.2
       = (Ok (Some (k, row)), db') → RefreshToken.user_id row ≠ bob.1).
Proof.
  intros db revoked.
  destruct (revoke_all_user_tokens_ends_sessions tagged 5000 bob.1 db)
    as (Hcount & _ & _ & Hverify & Hagain).
  split_and!.
  - etrans; [exact Hcount | reflexivity].
  - apply Hagain.
  - exact Hverify.
Defined.

Lemma auth_requests_keep_hashes_unique_witness :
  let requests := (1000%Z, AuthService.Issue 30 "secret" bob.1)
                  :: (1100%Z, AuthService.Issue 32 "secret" carol.1) :: other_requests in
  let db' := AuthService.serve_all default_settings tagged requests public_db in
  token_hashes_unique db'
  ∧ (∀ t token, ∃ r, (AuthService.verify_refresh_token tagged t token db').1 = Ok r)
  ∧ (∀ t token, ∃ b, (AuthService.revoke_refresh_token tagged t token db').1 = Ok b).
Proof.
  intros requests.
  apply (auth_requests_keep_hashes_unique default_settings tagged requests public_db).
  intros k1 k2 r1 r2 H1. change (refresh_tokens public_db) with (∅ : gmap N RefreshToken.t) in H1.
  by rewrite lookup_empty in H1.
Defined.

(** X23: deactivating an account ends its sessions and keeps its
    documents. After [deactivate_my_account] the account is no longer
    returned by [get_user_by_id], none of its refresh tokens verifies, and
    the documents, permissions and invitations are as before. *)
Theorem deactivate_my_account_ends_sessions hash_token now current_user db :
  let deactivated := UsersRouter.deactivate_my_account now current_user db in
  deactivated.1 = Ok "Account deactivated successfully"
  ∧ AuthService.get_user_by_id current_user.1 deactivated.2 = (Ok None, deactivated.2)
  ∧ (∀ t token k row db',
       AuthService.verify_refresh_token hash_token t token deactivated.2
       = (Ok (Some (k, row)), db') → RefreshToken.user_id row ≠ current_user.1)
  ∧ documents deactivated.2 = documents db
  ∧ document_permissions deactivated.2 = document_permissions db
  ∧ invitations deactivated.2 = invitations db.
Proof.
  intros deactivated.
  destruct (revoke_all_user_tokens_ends_sessions hash_token now current_user.1 db)
    as (Hcount & Hall & _).
  assert (deactivated
          = (Ok "Account deactivated successfully",
             with_user_table (<[current_user.1 := User.mk (User.email current_user.2) false]>)
               (AuthService.revoke_all_user_tokens now current_user.1 db).2)) as Hd.
  { subst deactivated. unfold UsersRouter.deactivate_my_account.
    destruct (AuthService.revoke_all_user_tokens now current_user.1 db) as [[n|e] db1];
      [done|discriminate Hcount]. }
  rewrite Hd. cbn [fst snd]. split_and!; try done.
  - unfold AuthService.get_user_by_id, execute, select_by_id. simpl.
    by rewrite lookup_insert_eq.
  - intros t token k row db' Hv HU.
    destruct (verify_refresh_token_Some _ _ _ _ _ _ _ Hv) as (r & Hk & _ & Hb & _ & -> & _).
    simpl in Hk, HU. rewrite (Hall k r Hk HU) in Hb. discriminate.
Qed.
Lemma deactivate_my_account_ends_sessions_witness :
  let db := AuthService.serve_all default_settings tagged
              [(1000%Z, AuthService.Issue 30 "secret" bob.1)] public_db in
  let deactivated := UsersRouter.deactivate_my_account 5000 bob db in
  deactivated.1 = Ok "Account deactivated successfully"
  ∧ AuthService.get_user_by_id bob.1 deactivated.2 = (Ok None, deactivated.2)
  ∧ AuthService.verify_refresh_token tagged 6000 "secret" deactivated.2
    = (Ok None, deactivated.2)
  ∧ AuthService.verify_refresh_token tagged 4000 "secret" db
    = (Ok (Some (30%N, RefreshToken.mk bob.1 (tagged "secret") false
                         (1000 + timedelta_days 30) (Some 4000%Z) None)),
       with_refresh_tokens
         (<[30%N := RefreshToken.mk bob.1 (tagged "secret") false
                      (1000 + timedelta_days 30) (Some 4000%Z) None]>) db).
Proof.
  intros db deactivated.
  destruct (deactivate_my_account_ends_sessions tagged 5000 bob db)
    as (Hok & Hgone & _).
  split_and!; [exact Hok | exact Hgone | reflexivity | reflexivity].
Defined.
End sessions_witness.

(** ** Listing *)

Section listing.
Variable order_by_updated_at : list (N * Document.t) → list (N * Document.t).
Hypothesis order_by_updated_at_perm : ∀ l, order_by_updated_at l ≡ₚ l.

Abbreviation list_my_documents := (Listing.list_my_documents order_by_updated_at).

Lemma elem_of_perm_subquery db U D :
  D ∈ Listing.perm_subquery db U
  ↔ ∃ k p, document_permissions db !! k = Some p
           ∧ DocumentPermission.user_id p = U ∧ DocumentPermission.document_id p = D.
Proof.
  unfold Listing.perm_subquery. rewrite elem_of_list_to_set, list_elem_of_fmap. split.
  - intros ([k p] & -> & Hin). apply elem_of_map_to_list, map_lookup_filter_Some in Hin
      as [Hk HU]. by exists k, p.
  - intros (k & p & Hk & HU & <-). exists (k, p). split; [done|].
    by apply elem_of_map_to_list, map_lookup_filter_Some.
Qed.

(** X24: the pages of [list_my_documents] cut the user's documents into
    consecutive runs. For [page >= 1] and [page_size >= 1] the response
    carries at most [page_size] documents, [total] is the number of
    documents the user owns or (with [include_shared]) holds a permission
    on, archived ones left out unless asked for; every listed document is
    one of those; and [has_more] is true exactly when the next page is not
    empty, in which case this page is full. *)
Theorem list_my_documents_pages db current_user include_shared include_archived page page_size :
  (1 <= page)%Z → (1 <= page_size)%Z →
  ∃ response next,
    list_my_documents current_user include_shared include_archived page page_size db
    = (Ok response, db)
    ∧ list_my_documents current_user include_shared include_archived (page + 1) page_size db
      = (Ok next, db)
    ∧ Listing.total next = Listing.total response
    ∧ (Z.of_nat (length (Listing.documents response)) <= page_size)%Z
    ∧ (Listing.has_more response = true ↔ Listing.documents next ≠ [])
    ∧ (Listing.has_more response = true →
       Z.of_nat (length (Listing.documents response)) = page_size)
    ∧ (∀ k d, (k, d) ∈ Listing.documents response →
         documents db !! k = Some d
         ∧ (Document.owner_id d = current_user.1
            ∨ (include_shared = true
               ∧ ∃ kp p, document_permissions db !! kp = Some p
                         ∧ DocumentPermission.user_id p = current_user.1
                         ∧ DocumentPermission.document_id p = k))
         ∧ (include_archived = false → Document.is_archived d = false)).
Proof.
  intros Hpage Hsize.
  unfold Listing.list_my_documents, Listing.get_user_documents, execute. bind_step.
  cbn [fst snd].
  set (rows := filter _ (documents db)).
  set (L := order_by_updated_at (map_to_list rows)).
  assert (length L = size rows) as HL.
  { subst L. rewrite (Permutation_length (order_by_updated_at_perm _)).
    apply length_map_to_list. }
  eexists _, _. split; [reflexivity|]. split; [reflexivity|]. cbn.
  assert ((page + 1 - 1) * page_size = (page - 1) * page_size + page_size)%Z as -> by lia.
  assert (page * page_size = (page - 1) * page_size + page_size)%Z as -> by lia.
  set (off := ((page - 1) * page_size)%Z).
  assert (0 <= off)%Z as Hoff by (subst off; nia).
  split_and!.
  - done.
  - rewrite length_take, length_drop. lia.
  - rewrite bool_decide_eq_true. split.
    + intros Hlt Hnil. apply (f_equal length) in Hnil.
      rewrite length_take, length_drop in Hnil. simpl in Hnil. lia.
    + intros Hne. destruct (decide (off + page_size < Z.of_nat (size rows))%Z); [done|].
      destruct Hne. apply nil_length_inv. rewrite length_take, length_drop. lia.
  - rewrite bool_decide_eq_true. intros Hlt. rewrite length_take, length_drop. lia.
  - intros k d Hin.
    apply subseteq_take, subseteq_drop in Hin.
    assert ((k, d) ∈ map_to_list rows) as Hin'
      by (by rewrite <- (order_by_updated_at_perm (map_to_list rows))).
    apply elem_of_map_to_list, map_lookup_filter_Some in Hin' as [Hk [Hown Harch]].
    simpl in Hown, Harch. split_and!; [done| |done].
    destruct Hown as [?|[? Hshared]]; [by left|right]. split; [done|].
    by apply elem_of_perm_subquery.
Qed.
End listing.

Section listing_witness.

(** Alice lists her documents one per page, in the order of the table. *)
Lemma list_my_documents_pages_witness :
  ∃ response next,
    Listing.list_my_documents id Examples.alice true false 1 1 Examples.public_db
    = (Ok response, Examples.public_db)
    ∧ Listing.list_my_documents id Examples.alice true false (1 + 1) 1 Examples.public_db
      = (Ok next, Examples.public_db)
    ∧ Listing.total next = Listing.total response
    ∧ (Z.of_nat (length (Listing.documents response)) <= 1)%Z
    ∧ (Listing.has_more response = true ↔ Listing.documents next ≠ [])
    ∧ (Listing.has_more response = true →
       Z.of_nat (length (Listing.documents response)) = 1%Z)
    ∧ (∀ k d, (k, d) ∈ Listing.documents response →
         documents Examples.public_db !! k = Some d
         ∧ (Document.owner_id d = Examples.alice.1
            ∨ (true = true
               ∧ ∃ kp p, document_permissions Examples.public_db !! kp = Some p
                         ∧ DocumentPermission.user_id p = Examples.alice.1
                         ∧ DocumentPermission.document_id p = k))
         ∧ (false = false → Document.is_archived d = false)).
Proof.
  apply (list_my_documents_pages id (λ l, reflexivity l) Examples.public_db Examples.alice
           true false 1 1); lia.
Defined.
End listing_witness.
